(** * subiquity/ui/views/snaplist.py: the snap list screen

    A shallow embedding of the snap selection screen of the installer
    (module [subiquity.ui.views.snaplist]) and the properties of it that
    its specification states.

    Conventions of the embedding.
    - Python [int] is [Z] and a Python [float] is the rational [Q] it is.
      In [render] the operands of [/] are as large as the screen is said
      to be, and the float that [/] gives on two ints is the quotient
      rounded to the nearest float of 53 bits ([Py.nearest_float]).  In
      [format_datetime] the quotients are numbers of seconds that are
      compared with 60, 3600 and 86400 and truncated below one day only;
      there the exact quotient ([Py.truediv]) gives what the rounded one
      gives, and stands for it.
    - [dict] is [gmap], [set] is [gset], objects that are shared and
      mutated (check boxes, dialogs) live in a store and are named by
      their index.
    - Calls on collaborators that are outside this module (the spinner,
      the overlay machinery of the base view, the controller) are
      recorded in a trace of events.
    - A Python exception is a value of [exn]; a computation that may
      raise returns a [result]. *)

From Stdlib Require Import ZArith QArith Qround Qabs Lia.
From Stdlib Require Import DecimalString.
From stdpp Require Import base gmap strings list fin_maps.

Local Open Scope Z_scope.

(** ** Python numbers *)

Module Py.

(** The exact quotient of two ints, for a positive literal divisor. *)
Definition truediv (a : Z) (b : positive) : Q := Qmake a b.

(** [n < x] for an int [n] and a float [x]. *)
Definition int_lt_float (n : Z) (x : Q) : bool :=
  negb (Qle_bool x (inject_Z n)).

(** [x < n] for a float [x] and an int [n]. *)
Definition float_lt_int (x : Q) (n : Z) : bool :=
  negb (Qle_bool (inject_Z n) x).

(** [x / b] on a float and a positive int literal. *)
Definition fdiv (x : Q) (b : positive) : Q := Qmake (Qnum x) (Qden x * b).

(** [int(x)]: truncation towards zero. *)
Definition int (x : Q) : Z := Z.quot (Qnum x) (Zpos (Qden x)).

(** [c * 2^j], the value of a float of significand [c] and exponent
    [j]. *)
Definition dyadic (c j : Z) : Q :=
  Qmake (c * 2 ^ Z.max 0 j) (Z.to_pos (2 ^ Z.max 0 (- j))).

(** The integer nearest to [num / den], for a positive [den]; of two
    that are as near, the even one. *)
Definition round_half_even (num den : Z) : Z :=
  let q := num / den in
  let r := num mod den in
  if 2 * r <? den then q
  else if den <? 2 * r then q + 1
  else if Z.even q then q else q + 1.

(** [a / (b * 2^e)] as a fraction of two integers. *)
Definition scaled_num (a e : Z) : Z := a * 2 ^ Z.max 0 (- e).
Definition scaled_den (b e : Z) : Z := b * 2 ^ Z.max 0 e.

(** The exponent of the last of the 53 bits of the significand of
    [a / b], for positive [a] and [b]: the [e] with
    [2^52 <= a / (b * 2^e) < 2^53]. *)
Definition ulp_exponent (a b : Z) : Z :=
  let e := Z.log2 a - Z.log2 b - 52 in
  if scaled_den b e * 2 ^ 52 <=? scaled_num a e then e else e - 1.

(** The float that [a / b] gives on two ints, for a positive literal
    divisor: the quotient rounded to the nearest float of 53 bits, a tie
    to the one of even significand.  The quotient of an int by 3 is zero
    or at least a third, far above the floats of fewer bits. *)
Definition nearest_float (a : Z) (b : positive) : Q :=
  if a =? 0 then 0%Q
  else
    let e := ulp_exponent (Z.abs a) (Zpos b) in
    let n :=
      round_half_even (scaled_num (Z.abs a) e) (scaled_den (Zpos b) e) in
    dyadic (Z.sgn a * n) e.

(** [a / b] raises [OverflowError] in place of the float [x] it would
    give when [x] is not below [2^1024]. *)
Definition overflows (x : Q) : bool :=
  Qle_bool (inject_Z (2 ^ 1024)) (Qabs x).

End Py.

(** ** SnapInfoView.render: sharing the rows between two panels *)

(** The allocation computed in [SnapInfoView.render] (lines 223-234):
    the pair [(description_rows, channel_rows)], when no quotient is too
    large for a float ([render_overflows]). *)
Definition render_rows
    (rows_available rows_wanted_description rows_wanted_channels : Z)
    : Z * Z :=
  if rows_wanted_channels + rows_wanted_description <=? rows_available then
    (rows_wanted_description, rows_wanted_channels)
  else if Py.int_lt_float rows_wanted_description
            (Py.nearest_float (2 * rows_available) 3) then
    let description_rows := rows_wanted_description in
    let channel_rows := rows_available - description_rows in
    (description_rows, channel_rows)
  else
    let channel_rows :=
      Z.max (Z.min rows_wanted_channels
               (Py.int (Py.nearest_float rows_available 3))) 3 in
    let description_rows := rows_available - channel_rows in
    (description_rows, channel_rows).

(** [render] raises [OverflowError] (line 227) when the rows wanted do
    not fit and two thirds of the rows available are too many for a
    float: that takes some [2^1024] rows. *)
Definition render_overflows
    (rows_available rows_wanted_description rows_wanted_channels : Z)
    : bool :=
  negb (rows_wanted_channels + rows_wanted_description <=? rows_available)
  && Py.overflows (Py.nearest_float (2 * rows_available) 3).

(** What [render] then records on the two panels (lines 238-245): whether
    the description can take the focus, and the right padding of the
    information table. *)
Definition render_selectable (description_rows rows_wanted_description : Z)
    : bool :=
  if rows_wanted_description <=? description_rows then false else true.

Definition render_padding_right (channel_rows rows_wanted_channels : Z) : Z :=
  if rows_wanted_channels <=? channel_rows then 0 else 1.

(** The three-case rule as the specification words it. *)
Definition split_spec (availableRows wantedA wantedB : Z) : Z * Z :=
  if decide (wantedA + wantedB <= availableRows) then (wantedA, wantedB)
  else if decide (3 * wantedA < 2 * availableRows) then
    (wantedA, availableRows - wantedA)
  else
    let rowsB := Z.max (Z.min wantedB (availableRows / 3)) 3 in
    (availableRows - rowsB, rowsB).

(** ** format_datetime *)

(** A naive [datetime] has a resolution of one microsecond: it is the
    number of microseconds since [datetime.min]. *)
Definition datetime : Type := Z.

Definition datetime_min : datetime := 0.

(** [datetime.timedelta], normalised as Python keeps it:
    [0 <= seconds < 86400] and [0 <= microseconds < 10^6]. *)
Record timedelta : Type := mk_timedelta {
  days : Z;
  seconds : Z;
  microseconds : Z
}.

(** [a - b] on two datetimes. *)
Definition datetime_sub (a b : datetime) : timedelta :=
  let us := a - b in
  {| days := us / 86400000000;
     seconds := (us mod 86400000000) / 1000000;
     microseconds := us mod 1000000 |}.

(** [timedelta.total_seconds()]. *)
Definition total_seconds (td : timedelta) : Q :=
  Py.truediv ((days td * 86400 + seconds td) * 10 ^ 6 + microseconds td)
             1000000.

(** [str(n)] for an int. *)
Definition str_of_int (n : Z) : string := NilZero.string_of_int (Z.to_int n).

(** [s.rjust(width)]. *)
Definition rjust (width : nat) (s : string) : string :=
  String.concat "" (replicate (width - String.length s)%nat " ") +:+ s.

(** [_]: the message catalogue; messages are left untranslated. *)
Definition gettext (s : string) : string := s.

(** ["{amount:2} {unit} ago".format(amount=amount, unit=unit)]: a number
    is right-aligned in its field. *)
Definition format_ago (amount : Z) (unit : string) : string :=
  rjust 2 (str_of_int amount) +:+ " " +:+ unit +:+ " ago".

Section FormatDatetime.

(** [datetime.datetime.now()], the clock read by the call. *)
Variable now : datetime.
(** [str(d.date())], the ISO calendar date of [d]. *)
Variable str_date : datetime -> string.

Definition format_datetime (d : datetime) : string :=
  let delta := datetime_sub now d in
  if Py.float_lt_int (total_seconds delta) 60 then
    gettext "just now"
  else if Py.float_lt_int (total_seconds delta) (60 * 60) then
    let amount := Py.int (Py.fdiv (total_seconds delta) 60) in
    let unit := if amount =? 1 then gettext "minute" else gettext "minutes" in
    format_ago amount unit
  else if Py.float_lt_int (total_seconds delta) (60 * 60 * 24) then
    let amount := Py.int (Py.fdiv (total_seconds delta) (60 * 60)) in
    let unit := if amount =? 1 then gettext "hour" else gettext "hours" in
    format_ago amount unit
  else if days delta <? 30 then
    let amount := days delta in
    let unit := if amount =? 1 then gettext "day" else gettext "days" in
    format_ago amount unit
  else
    str_date d.

End FormatDatetime.

(** ** Exceptions *)

Inductive exn : Type :=
  | FileNotFoundError
  | OSError
  | UnboundLocalError (var : string)
  | YAMLError
  | AttributeError (attr : string)
  | TypeError
  | KeyError (key : string).

Inductive result (A : Type) : Type :=
  | Ok (a : A)
  | Raise (e : exn).

Arguments Ok {A} a.
Arguments Raise {A} e.

#[global] Instance result_ret : MRet result := fun A a => Ok a.

#[global] Instance result_bind : MBind result := fun A B k r =>
  match r with
  | Ok a => k a
  | Raise e => Raise e
  end.

(** ** The seed manifest *)

(** What [yaml.load] returns: the Python value of a YAML document whose
    scalars are nulls, booleans, ints and strings (a document with a
    float or a date is not of this type).  A mapping is kept as the list
    of its items in document order, its keys being distinct strings. *)
#[warnings="-register-all"]
Inductive yaml : Type :=
  | YNull
  | YBool (b : bool)
  | YInt (n : Z)
  | YStr (s : string)
  | YList (l : list yaml)
  | YDict (d : list (string * yaml)).

Fixpoint assoc {A} (k : string) (d : list (string * A)) : option A :=
  match d with
  | [] => None
  | (k', v) :: d => if decide (k' = k) then Some v else assoc k d
  end.

(** [v.get(key, default)]: only a [dict] has the method. *)
Definition yaml_get (v : yaml) (key : string) (dflt : yaml) : result yaml :=
  match v with
  | YDict d => Ok (default dflt (assoc key d))
  | _ => Raise (AttributeError "get")
  end.

Fixpoint chars (s : string) : list string :=
  match s with
  | EmptyString => []
  | String c s => String c EmptyString :: chars s
  end.

(** [for x in v]: the items of a list, the keys of a dict, the characters
    of a string; nothing else here can be iterated. *)
Definition yaml_iter (v : yaml) : result (list yaml) :=
  match v with
  | YList l => Ok l
  | YDict d => Ok (map (fun kv => YStr (fst kv)) d)
  | YStr s => Ok (map YStr (chars s))
  | YNull | YBool _ | YInt _ => Raise TypeError
  end.

(** [if v:] *)
Definition truthy (v : yaml) : bool :=
  match v with
  | YNull => false
  | YBool b => b
  | YInt n => negb (n =? 0)
  | YStr s => negb (String.eqb s "")
  | YList l => negb (Nat.eqb (length l) 0)
  | YDict d => negb (Nat.eqb (length d) 0)
  end.

(** A member of the set [names]: a value that can be hashed.  [True]
    and [1] are equal and hash alike, as are [False] and [0], so of the
    two the set holds one: a boolean is kept as the int it equals. *)
Inductive key : Type :=
  | KNone
  | KInt (n : Z)
  | KStr (s : string).

#[global] Instance key_eq_dec : EqDecision key.
Proof. solve_decision. Defined.

#[global] Instance key_countable : Countable key :=
  inj_countable'
    (fun k => match k with
              | KNone => inl ()
              | KInt n => inr (inl n)
              | KStr s => inr (inr s)
              end)
    (fun x => match x with
              | inl _ => KNone
              | inr (inl n) => KInt n
              | inr (inr s) => KStr s
              end)
    (fun k => match k with KNone | KInt _ | KStr _ => eq_refl end).

(** [names.add(v)].  A list or a dict cannot be hashed. *)
Definition names_add (v : yaml) (names : gset key) : result (gset key) :=
  match v with
  | YNull => Ok ({[ KNone ]} ∪ names)
  | YBool b => Ok ({[ KInt (if b then 1 else 0) ]} ∪ names)
  | YInt n => Ok ({[ KInt n ]} ∪ names)
  | YStr s => Ok ({[ KStr s ]} ∪ names)
  | YList _ | YDict _ => Raise TypeError
  end.

(** [os.path.join(a, b)] for a relative [b]. *)
Definition os_path_join (a b : string) : string :=
  if String.eqb a "" then b
  else if String.eqb (String.substring (String.length a - 1) 1 a) "/" then a +:+ b
  else a +:+ "/" +:+ b.

(** The seed returned in a dry run (lines 424-433). *)
Definition dry_run_seed : string :=
"snaps:
  -
    name: core
    channel: stable
    file: core_4486.snap
  -
    name: lxd
    channel: stable/ubuntu-18.04
    file: lxd_59.snap
".

(** What of the controller [get_seed_yaml] reads. *)
Record Controller : Type := {
  (** [base_model.installpath.sources.values()] *)
  sources : list string;
  (** [opts.dry_run] *)
  dry_run : bool
}.

Section Seed.

Variable controller : Controller.
(** [open(path, encoding='utf-8', errors='replace')] followed by
    [read()]: the text of the file, or the exception [open] raises. *)
Variable open_read : string -> result string.
(** [yaml.load] *)
Variable yaml_load : string -> result yaml.

(** A local variable that was never assigned. *)
Definition local {A} (var : string) (x : option A) : result A :=
  match x with
  | Some a => Ok a
  | None => Raise (UnboundLocalError var)
  end.

Definition get_seed_yaml : result string :=
  let sources := sources controller in
  let source : option string :=
    match sources with
    | [s0] =>
        if String.prefix "cp://" s0
        then Some (String.substring 5 (String.length s0 - 5) s0)
        else None
    | _ => None
    end in
  if dry_run controller then Ok dry_run_seed
  else
    source ← local "source" source;
    let seed_location :=
      os_path_join source "var/lib/snapd/seed/seed.yaml" in
    fp ← match open_read seed_location with
           | Ok text => Ok (Some text)
           | Raise FileNotFoundError => Ok None
           | Raise e => Raise e
           end;
    content ← local "fp" fp;
    Ok content.

Fixpoint collect_names (snaps : list yaml) (names : gset key)
    : result (gset key) :=
  match snaps with
  | [] => Ok names
  | snap :: snaps =>
      name ← yaml_get snap "name" YNull;
      names ← (if truthy name then names_add name names else Ok names);
      collect_names snaps names
  end.

Definition get_preinstalled_snaps : result (gset key) :=
  match (text ← get_seed_yaml; yaml_load text) with
  | Raise YAMLError => Ok ∅
  | Raise e => Raise e
  | Ok seed =>
      snaps ← yaml_get seed "snaps" (YList []);
      snaps ← yaml_iter snaps;
      collect_names snaps ∅
  end.

End Seed.

(** ** Data model *)

(** [subiquity.models.snaplist.SnapSelection] *)
Record SnapSelection : Type := {
  channel : string;
  is_classic : bool
}.

(** [subiquity.models.snaplist.ChannelSnapInfo], the fields read here. *)
Record ChannelSnapInfo : Type := {
  channel_name : string;
  revision : string;
  csi_confinement : string;
  version : string;
  csi_size : Z;
  released_at : datetime
}.

(** [subiquity.models.snaplist.SnapInfo], the fields read here. *)
Record Snap : Type := {
  name : string;
  summary : string;
  publisher : string;
  description : string;
  verified : bool;
  confinement : string;
  license : string;
  channels : list ChannelSnapInfo
}.

Definition set_channels (chans : list ChannelSnapInfo) (s : Snap) : Snap :=
  {| name := name s; summary := summary s; publisher := publisher s;
     description := description s; verified := verified s;
     confinement := confinement s; license := license s;
     channels := chans |}.

(** ** Widgets *)

(** A [SnapCheckBox]: its snap and the state of the check box. *)
Record SnapCheckBox : Type := {
  cb_snap : Snap;
  cb_state : bool
}.

(** A [StarRadioButton] of a detail view: label, state, and the
    [user_data] handed to the state-change callback. *)
Record StarRadioButton : Type := {
  rb_label : string;
  rb_state : bool;
  rb_user_data : SnapSelection
}.

Definition rb_set_state (state : bool) (b : StarRadioButton) : StarRadioButton :=
  {| rb_label := rb_label b; rb_state := state;
     rb_user_data := rb_user_data b |}.

(** [RadioButton.__init__] appends the new button to its group, after
    [set_state] has cleared the buttons of the group that were set when
    the new one is created set. *)
Definition group_append (group : list StarRadioButton) (btn : StarRadioButton)
    : list StarRadioButton :=
  (if rb_state btn then map (rb_set_state false) group else group) ++ [btn].

(** A [SnapInfoView].  Of its widgets the model keeps the ones with a
    behaviour, the radio buttons, and the values computed for the title
    and the information row. *)
Record SnapInfoView : Type := {
  siv_snap : Snap;
  siv_needs_focus : bool;
  siv_group : list StarRadioButton;
  siv_latest_update : datetime
}.

(** [SnapInfoView.__init__] (lines 111-196). *)
Definition SnapInfoView_init (snap : Snap) (cur_channel : option string)
    : SnapInfoView :=
  {| siv_snap := snap;
     siv_needs_focus := true;
     siv_group :=
       fold_left
         (fun radio_group csi =>
            group_append radio_group
              {| rb_label := channel_name csi;
                 rb_state :=
                   bool_decide (Some (channel_name csi) = cur_channel);
                 rb_user_data :=
                   {| channel := channel_name csi;
                      is_classic :=
                        String.eqb (csi_confinement csi) "classic" |} |})
         (channels snap) [];
     siv_latest_update :=
       fold_left (fun latest_update csi => Z.max latest_update (released_at csi))
         (channels snap) datetime_min |}.

(** A row of the table of the main screen (lines 467-481). *)
Record Row : Type := {
  row_box : nat;
  row_publisher : string;
  row_verified : bool;
  row_summary : string
}.

(** What [self._w] can be.  The spinner, the check boxes and the dialogs
    are objects of the store, named by their index. *)
Inductive widget : Type :=
  | LoadingScreen (spinner : nat)
  | RetryScreen
  | MainScreen (id : nat) (body : list Row)
  | DetailScreen (siv : SnapInfoView)
  | Overlay (top : nat) (width : nat) (bottom : widget).

(** The two dialogs. *)
Inductive dialog : Type :=
  | FetchingInfo (closed : bool) (spinner : nat) (width : nat)
  | FetchingFailed (closed : bool) (row : nat) (width : nat).

(** The variables that [load] shares with its callback. *)
Record load_frame : Type := {
  lf_spinner : option nat;
  lf_called : bool
}.

(** The variables that [load_info] shares with its callback, and the row
    ([self]) of the call. *)
Record info_frame : Type := {
  if_self : nat;
  if_called : bool;
  if_fi : option nat
}.

(** What is shown in the header of the installer. *)
Inductive header : Type :=
  | ScreenTitle (title : string)
  | SnapTitle (snap_name : string) (snap_publisher : string) (mark : bool).

(** Calls on the collaborators of the view, in the order they are made:
    the callbacks handed to the controller are named by their frame. *)
Inductive event : Type :=
  | GetSnapList (callback : nat)
  | GetSnapInfo (snap_name : string) (callback : nat)
  | SpinnerStart (spinner : nat)
  | SpinnerStop (spinner : nat)
  | ShowOverlay (top : nat) (width : nat)
  | RemoveOverlay
  | SetHeader (h : header)
  | ControllerDone (selections : gmap string SnapSelection)
  | ControllerCancel.

(** ** The view and its store *)

Record View : Type := mk_View {
  (** [self.to_install] *)
  to_install : gmap string SnapSelection;
  (** [self.snap_boxes] *)
  snap_boxes : gmap string nat;
  (** the [SnapCheckBox] objects, in the order they were created *)
  boxes : list SnapCheckBox;
  (** [self._w], unset until [load] assigns it *)
  w : option widget;
  (** [self._main_screen], unset until [make_main_screen] assigns it *)
  main_screen : option widget;
  (** the dialog objects *)
  dialogs : list dialog;
  load_frames : list load_frame;
  info_frames : list info_frame;
  (** the number of [Spinner] objects created *)
  spinners : nat;
  (** the number of main screens built *)
  screens : nat;
  trace : list event
}.

(** [SnapListView.__init__] before it calls [load]. *)
Definition new_view : View :=
  mk_View ∅ ∅ [] None None [] [] [] 0 0 [].

Definition with_to_install (f : gmap string SnapSelection -> gmap string SnapSelection)
    (v : View) : View :=
  mk_View (f (to_install v)) (snap_boxes v) (boxes v) (w v) (main_screen v)
    (dialogs v) (load_frames v) (info_frames v) (spinners v) (screens v)
    (trace v).

Definition with_snap_boxes (f : gmap string nat -> gmap string nat)
    (v : View) : View :=
  mk_View (to_install v) (f (snap_boxes v)) (boxes v) (w v) (main_screen v)
    (dialogs v) (load_frames v) (info_frames v) (spinners v) (screens v)
    (trace v).

Definition with_boxes (f : list SnapCheckBox -> list SnapCheckBox)
    (v : View) : View :=
  mk_View (to_install v) (snap_boxes v) (f (boxes v)) (w v) (main_screen v)
    (dialogs v) (load_frames v) (info_frames v) (spinners v) (screens v)
    (trace v).

Definition with_w (f : option widget -> option widget) (v : View) : View :=
  mk_View (to_install v) (snap_boxes v) (boxes v) (f (w v)) (main_screen v)
    (dialogs v) (load_frames v) (info_frames v) (spinners v) (screens v)
    (trace v).

Definition with_main_screen (x : option widget) (v : View) : View :=
  mk_View (to_install v) (snap_boxes v) (boxes v) (w v) x
    (dialogs v) (load_frames v) (info_frames v) (spinners v) (screens v)
    (trace v).

Definition with_dialogs (f : list dialog -> list dialog) (v : View) : View :=
  mk_View (to_install v) (snap_boxes v) (boxes v) (w v) (main_screen v)
    (f (dialogs v)) (load_frames v) (info_frames v) (spinners v) (screens v)
    (trace v).

Definition with_load_frames (f : list load_frame -> list load_frame)
    (v : View) : View :=
  mk_View (to_install v) (snap_boxes v) (boxes v) (w v) (main_screen v)
    (dialogs v) (f (load_frames v)) (info_frames v) (spinners v) (screens v)
    (trace v).

Definition with_info_frames (f : list info_frame -> list info_frame)
    (v : View) : View :=
  mk_View (to_install v) (snap_boxes v) (boxes v) (w v) (main_screen v)
    (dialogs v) (load_frames v) (f (info_frames v)) (spinners v) (screens v)
    (trace v).

Definition with_spinners (n : nat) (v : View) : View :=
  mk_View (to_install v) (snap_boxes v) (boxes v) (w v) (main_screen v)
    (dialogs v) (load_frames v) (info_frames v) n (screens v) (trace v).

Definition with_screens (n : nat) (v : View) : View :=
  mk_View (to_install v) (snap_boxes v) (boxes v) (w v) (main_screen v)
    (dialogs v) (load_frames v) (info_frames v) (spinners v) n (trace v).

Definition with_trace (f : list event -> list event) (v : View) : View :=
  mk_View (to_install v) (snap_boxes v) (boxes v) (w v) (main_screen v)
    (dialogs v) (load_frames v) (info_frames v) (spinners v) (screens v)
    (f (trace v)).

(** ** Methods: state passing with exceptions *)

(** A method of the view or of one of its widgets: it runs on the store
    and returns a value or raises, and leaves the store as it is at that
    point. *)
Definition M (A : Type) : Type := View -> result A * View.

#[global] Instance M_ret : MRet M := fun A a v => (Ok a, v).

#[global] Instance M_bind : MBind M := fun A B k m v =>
  match m v with
  | (Ok a, v') => k a v'
  | (Raise e, v') => (Raise e, v')
  end.

Definition get : M View := fun v => (Ok v, v).

Definition modify (f : View -> View) : M unit := fun v => (Ok tt, f v).

Definition raise {A} (e : exn) : M A := fun v => (Raise e, v).

Definition lift {A} (r : result A) : M A := fun v => (r, v).

(** A call on a collaborator. *)
Definition emit (e : event) : M unit := modify (with_trace (fun t => t ++ [e])).

(** The state a method leaves, and what it returns. *)
Definition exec {A} (m : M A) (v : View) : View := snd (m v).
Definition eval {A} (m : M A) (v : View) : result A := fst (m v).

(** The object behind a reference held by a widget or a closure.  A
    reference always names an object of the store; the other case is
    there to have a total function. *)
Definition deref {A} (store : View -> list A) (i : nat) : M A := fun v =>
  match store v !! i with
  | Some a => (Ok a, v)
  | None => (Raise (AttributeError "dangling reference"), v)
  end.

Fixpoint for_each {A} (l : list A) (body : A -> M unit) : M unit :=
  match l with
  | [] => mret tt
  | x :: l => body x;; for_each l body
  end.

(** ** Collaborators *)

(** How the controller answers a fetch: it invokes the callback before it
    returns, with what it fetched, or it returns and keeps the callback
    for later. *)
Inductive reply (A : Type) : Type :=
  | Sync (a : A)
  | Async.

Arguments Sync {A} a.
Arguments Async {A}.

(** Modelled from the spec: [BaseView.show_overlay] and
    [BaseView.remove_overlay] of [subiquitycore.view], which are not part
    of this module.  A dialog is shown over the current screen, and
    removing it dismisses the dialog on top, giving back the screen
    under it. *)
Definition show_overlay (top width : nat) : M unit :=
  emit (ShowOverlay top width);;
  v ← get;
  match w v with
  | Some cur => modify (with_w (fun _ => Some (Overlay top width cur)))
  | None => raise (AttributeError "_w")
  end.

Definition remove_overlay : M unit :=
  emit RemoveOverlay;;
  modify (with_w (fun cur =>
    match cur with
    | Some (Overlay _ _ bottom) => Some bottom
    | _ => cur
    end)).

(** [Spinner(loop, style='dots')] of [subiquity.ui.spinner], then [start]
    and [stop] on it: the spinners are numbered in the order they are
    created, and the calls are recorded. *)
Definition Spinner_init : M nat :=
  v ← get;
  modify (with_spinners (S (spinners v)));;
  mret (spinners v).

Definition Spinner_start (spinner : nat) : M unit := emit (SpinnerStart spinner).
Definition Spinner_stop (spinner : nat) : M unit := emit (SpinnerStop spinner).

(** ** The dialogs *)

Definition new_dialog (d : dialog) : M nat :=
  v ← get;
  modify (with_dialogs (fun l => l ++ [d]));;
  mret (length (dialogs v)).

(** [FetchingInfo.__init__] (lines 254-270) *)
Definition FetchingInfo_init (snap : Snap) : M nat :=
  spinner ← Spinner_init;
  Spinner_start spinner;;
  let text := "Fetching info for " +:+ name snap in
  new_dialog (FetchingInfo false spinner (String.length text + 4)).

(** [FetchingInfo.close] (lines 272-277) *)
Definition FetchingInfo_close (self : nat) : M unit :=
  d ← deref dialogs self;
  match d with
  | FetchingInfo closed spinner width =>
      if closed then mret tt
      else
        modify (with_dialogs <[self := FetchingInfo true spinner width]>);;
        Spinner_stop spinner;;
        remove_overlay
  | FetchingFailed _ _ _ => raise (AttributeError "spinner")
  end.

(** [FetchingFailed.__init__] (lines 282-296) *)
Definition FetchingFailed_init (row : nat) (snap : Snap) : M nat :=
  let text := "Fetching info for " +:+ name snap +:+ " failed" in
  new_dialog (FetchingFailed false row (String.length text + 4)).

(** [FetchingFailed.close] (lines 302-306) *)
Definition FetchingFailed_close (self : nat) : M unit :=
  d ← deref dialogs self;
  match d with
  | FetchingFailed closed row width =>
      if closed then mret tt
      else
        modify (with_dialogs <[self := FetchingFailed true row width]>);;
        remove_overlay
  | FetchingInfo _ _ _ => raise (AttributeError "row")
  end.

Definition dialog_width (d : dialog) : nat :=
  match d with
  | FetchingInfo _ _ width => width
  | FetchingFailed _ _ width => width
  end.

(** ** The check box of a row *)

(** The selection that checking the box of a snap stores (lines
    360-362). *)
Definition default_selection (snap : Snap) : SnapSelection :=
  {| channel := "stable";
     is_classic := String.eqb (confinement snap) "classic" |}.

(** [SnapCheckBox.state_change] (lines 358-364) *)
Definition SnapCheckBox_state_change (self : nat) (new_state : bool) : M unit :=
  box ← deref boxes self;
  let snap := cb_snap box in
  if new_state then
    modify (with_to_install <[name snap := default_selection snap]>)
  else
    modify (with_to_install (delete (name snap))).

Definition set_cb_state (state : bool) (b : SnapCheckBox) : SnapCheckBox :=
  {| cb_snap := cb_snap b; cb_state := state |}.

(** [CheckBox.set_state] of urwid on a check box that exists: nothing when
    the state is the one it has, else the change is signalled, which
    calls [state_change], and then the state is stored. *)
Definition CheckBox_set_state (self : nat) (state : bool) : M unit :=
  box ← deref boxes self;
  if bool_decide (cb_state box = state) then mret tt
  else
    SnapCheckBox_state_change self state;;
    modify (with_boxes (alter (set_cb_state state) self)).

(** [CheckBox.toggle_state] of urwid. *)
Definition CheckBox_toggle_state (self : nat) : M unit :=
  box ← deref boxes self;
  CheckBox_set_state self (negb (cb_state box)).

(** ** The detail view *)

(** [SnapInfoView.state_change] (lines 198-201); [sender] is not read. *)
Definition SnapInfoView_state_change (self : SnapInfoView) (state : bool)
    (selection : SnapSelection) : M unit :=
  if state then
    v ← get;
    match snap_boxes v !! name (siv_snap self) with
    | None => raise (KeyError (name (siv_snap self)))
    | Some box =>
        CheckBox_set_state box true;;
        modify (with_to_install <[name (siv_snap self) := selection]>)
    end
  else mret tt.

(** The detail view on screen, and its replacement by the same view with
    another state of its buttons. *)
Definition shown_detail (v : View) : option SnapInfoView :=
  match w v with
  | Some (DetailScreen siv) => Some siv
  | _ => None
  end.

Definition store_button (k : nat) (state : bool) : M unit :=
  modify (with_w (fun cur =>
    match cur with
    | Some (DetailScreen siv) =>
        Some (DetailScreen
          {| siv_snap := siv_snap siv;
             siv_needs_focus := siv_needs_focus siv;
             siv_group := alter (rb_set_state state) k (siv_group siv);
             siv_latest_update := siv_latest_update siv |})
    | _ => cur
    end)).

(** [CheckBox.set_state] of urwid on button [k] of the detail view on
    screen: the change is signalled to [SnapInfoView.state_change] with
    the [user_data] of the button, before the state is stored. *)
Definition button_set_state (k : nat) (state : bool) : M unit :=
  v ← get;
  match shown_detail v with
  | None => mret tt
  | Some siv =>
      match siv_group siv !! k with
      | None => mret tt
      | Some btn =>
          if bool_decide (rb_state btn = state) then mret tt
          else
            SnapInfoView_state_change siv state (rb_user_data btn);;
            store_button k state
      end
  end.

(** [RadioButton.set_state] of urwid: a button that is set clears the
    other buttons of its group that are set. *)
Definition RadioButton_set_state (k : nat) (state : bool) : M unit :=
  v ← get;
  match shown_detail v with
  | None => mret tt
  | Some siv =>
      match siv_group siv !! k with
      | None => mret tt
      | Some btn =>
          if bool_decide (rb_state btn = state) then mret tt
          else
            button_set_state k state;;
            if state then
              for_each (seq 0 (length (siv_group siv))) (fun j =>
                if bool_decide (j = k) then mret tt
                else
                  v ← get;
                  match shown_detail v ≫= fun siv => siv_group siv !! j with
                  | Some cb =>
                      if rb_state cb then button_set_state j false
                      else mret tt
                  | None => mret tt
                  end)
            else mret tt
      end
  end.

(** [RadioButton.toggle_state] of urwid: choosing a button sets it. *)
Definition RadioButton_toggle_state (k : nat) : M unit :=
  RadioButton_set_state k true.

Section Screen.

Variable controller : Controller.
Variable open_read : string -> result string.
Variable yaml_load : string -> result yaml.

(** *** SnapCheckBox.load_info (lines 320-350) *)

Definition new_info_frame (fr : info_frame) : M nat :=
  v ← get;
  modify (with_info_frames (fun l => l ++ [fr]));;
  mret (length (info_frames v)).

(** [show_screen] (lines 412-413) *)
Definition show_screen (screen : widget) : M unit :=
  modify (with_w (fun _ => Some screen)).

(** What the callback of [load_info] shows for the snap of the row
    (lines 329-343): the failure dialog when the snap has no channel, and
    the detail view otherwise. *)
Definition show_info (self : nat) : M unit :=
  box ← deref boxes self;
  let snap := cb_snap box in
  if Nat.eqb (length (channels snap)) 0 then
    ff ← FetchingFailed_init self snap;
    d ← deref dialogs ff;
    show_overlay ff (dialog_width d)
  else
    v ← get;
    let cur_chan := channel <$> to_install v !! name snap in
    let siv := SnapInfoView_init snap cur_chan in
    emit (SetHeader (SnapTitle (name snap) (publisher snap) (verified snap)));;
    show_screen (DetailScreen siv).

(** [fi.close()] when [fi] is not [None] (lines 327-328). *)
Definition close_fetching (fi : option nat) : M unit :=
  match fi with
  | Some fi => FetchingInfo_close fi
  | None => mret tt
  end.

Definition set_if_called (fr : info_frame) : info_frame :=
  {| if_self := if_self fr; if_called := true; if_fi := if_fi fr |}.

(** The closure [callback] of [load_info] (lines 324-343), on the
    variables of the call it was made in. *)
Definition load_info_callback (frame : nat) : M unit :=
  modify (with_info_frames (alter set_if_called frame));;
  fr ← deref info_frames frame;
  close_fetching (if_fi fr);;
  show_info (if_self fr).

(** The controller stores the channels it fetched in the snap of the
    row, and then invokes the callback. *)
Definition store_channels (chans : list ChannelSnapInfo) (b : SnapCheckBox)
    : SnapCheckBox :=
  {| cb_snap := set_channels chans (cb_snap b); cb_state := cb_state b |}.

Definition info_ready (frame : nat) (chans : list ChannelSnapInfo) : M unit :=
  fr ← deref info_frames frame;
  modify (with_boxes (alter (store_channels chans) (if_self fr)));;
  load_info_callback frame.

Definition set_if_fi (fi : nat) (fr : info_frame) : info_frame :=
  {| if_self := if_self fr; if_called := if_called fr; if_fi := Some fi |}.

(** [SnapCheckBox.load_info] (lines 320-350), with the way the controller
    answers [get_snap_info]. *)
Definition load_info (self : nat) (answer : reply (list ChannelSnapInfo))
    : M unit :=
  frame ← new_info_frame {| if_self := self; if_called := false; if_fi := None |};
  box ← deref boxes self;
  emit (GetSnapInfo (name (cb_snap box)) frame);;
  match answer with
  | Sync chans => info_ready frame chans
  | Async => mret tt
  end;;
  fr ← deref info_frames frame;
  if if_called fr then mret tt
  else
    box ← deref boxes self;
    fi ← FetchingInfo_init (cb_snap box);
    modify (with_info_frames (alter (set_if_fi fi) frame));;
    d ← deref dialogs fi;
    show_overlay fi (dialog_width d).

(** [FetchingFailed.load] (lines 298-300) *)
Definition FetchingFailed_load (self : nat)
    (answer : reply (list ChannelSnapInfo)) : M unit :=
  FetchingFailed_close self;;
  d ← deref dialogs self;
  match d with
  | FetchingFailed _ row _ => load_info row answer
  | FetchingInfo _ _ _ => raise (AttributeError "row")
  end.

(** *** SnapListView *)

(** [offer_retry] (lines 400-406) *)
Definition offer_retry : M unit :=
  modify (with_w (fun _ => Some RetryScreen)).

Definition title : string := "Featured Server Snaps".

(** [show_main_screen] (lines 408-410) *)
Definition show_main_screen : M unit :=
  emit (SetHeader (ScreenTitle (gettext title)));;
  v ← get;
  match main_screen v with
  | Some screen => modify (with_w (fun _ => Some screen))
  | None => raise (AttributeError "_main_screen")
  end.

(** [SnapCheckBox(self, snap)]: a new check box, not checked. *)
Definition SnapCheckBox_init (snap : Snap) : M nat :=
  v ← get;
  modify (with_boxes (fun l => l ++ [{| cb_snap := snap; cb_state := false |}]));;
  mret (length (boxes v)).

(** The loop of [make_main_screen] (lines 463-481), which returns the
    rows it appended to [body]. *)
Fixpoint make_rows (preinstalled : gset key) (snap_list : list Snap)
    (body : list Row) : M (list Row) :=
  match snap_list with
  | [] => mret body
  | snap :: snap_list =>
      if bool_decide (KStr (name snap) ∈ preinstalled) then
        make_rows preinstalled snap_list body
      else
        box ← SnapCheckBox_init snap;
        modify (with_snap_boxes <[name snap := box]>);;
        make_rows preinstalled snap_list
          (body ++ [{| row_box := box;
                       row_publisher := publisher snap;
                       row_verified := verified snap;
                       row_summary := summary snap |}])
  end.

(** [make_main_screen] (lines 459-496) *)
Definition make_main_screen (snap_list : list Snap) : M unit :=
  modify (with_snap_boxes (fun _ => ∅));;
  preinstalled ← lift (get_preinstalled_snaps controller open_read yaml_load);
  body ← make_rows preinstalled snap_list [];
  v ← get;
  modify (with_screens (S (screens v)));;
  modify (with_main_screen (Some (MainScreen (screens v) body))).

Definition new_load_frame (fr : load_frame) : M nat :=
  v ← get;
  modify (with_load_frames (fun l => l ++ [fr]));;
  mret (length (load_frames v)).

Definition set_lf_called (fr : load_frame) : load_frame :=
  {| lf_spinner := lf_spinner fr; lf_called := true |}.

Definition set_lf_spinner (spinner : nat) (fr : load_frame) : load_frame :=
  {| lf_spinner := Some spinner; lf_called := lf_called fr |}.

(** What the callback of [load] shows for the list (lines 386-390): the
    retry screen when the list is empty, and the main screen otherwise. *)
Definition show_list (snap_list : list Snap) : M unit :=
  if Nat.eqb (length snap_list) 0 then offer_retry
  else
    make_main_screen snap_list;;
    show_main_screen.

(** The closure [callback] of [load] (lines 381-390), on the variables of
    the call it was made in. *)
Definition load_callback (frame : nat) (snap_list : list Snap) : M unit :=
  modify (with_load_frames (alter set_lf_called frame));;
  fr ← deref load_frames frame;
  match lf_spinner fr with
  | Some spinner => Spinner_stop spinner
  | None => mret tt
  end;;
  show_list snap_list.

(** [load] (lines 377-398), with the way the controller answers
    [get_snap_list]. *)
Definition load (answer : reply (list Snap)) : M unit :=
  frame ← new_load_frame {| lf_spinner := None; lf_called := false |};
  emit (GetSnapList frame);;
  match answer with
  | Sync snap_list => load_callback frame snap_list
  | Async => mret tt
  end;;
  fr ← deref load_frames frame;
  if lf_called fr then mret tt
  else
    spinner ← Spinner_init;
    modify (with_load_frames (alter (set_lf_spinner spinner) frame));;
    Spinner_start spinner;;
    modify (with_w (fun _ => Some (LoadingScreen spinner))).

(** [SnapListView.__init__] (lines 371-375) *)
Definition SnapListView_init (answer : reply (list Snap)) : View :=
  exec (load answer) new_view.

(** [done] (lines 498-500) *)
Definition done : M unit :=
  v ← get;
  emit (ControllerDone (to_install v)).

(** [cancel] (lines 502-506): [is] compares the screens by the number
    they were built with. *)
Definition cancel : M unit :=
  v ← get;
  match w v, main_screen v with
  | None, _ => raise (AttributeError "_w")
  | _, None => raise (AttributeError "_main_screen")
  | Some (MainScreen i _), Some (MainScreen j _) =>
      if Nat.eqb i j then emit ControllerCancel else show_main_screen
  | Some _, Some _ => show_main_screen
  end.

End Screen.

(** ** The events of the screen *)

(** What can happen to the view once it is created: a key or a button is
    pressed on the widget that has the focus, or the controller invokes a
    callback it was handed.  A key press that makes the view fetch comes
    with the way the controller answers the fetch. *)
Inductive ui_event : Type :=
  (** space on the check box of a row of the main screen *)
  | KeySpace (row : nat)
  (** enter on the check box of a row of the main screen *)
  | KeyEnter (row : nat) (answer : reply (list ChannelSnapInfo))
  (** the controller has the channels of a snap *)
  | InfoReady (callback : nat) (chans : list ChannelSnapInfo)
  (** the controller has the list of snaps *)
  | ListReady (callback : nat) (snap_list : list Snap)
  (** the buttons of the two dialogs *)
  | PressCancelFetching (d : nat)
  | PressTryAgainInfo (d : nat) (answer : reply (list ChannelSnapInfo))
  | PressCancelFailed (d : nat)
  (** a radio button of the detail view, and its Close button *)
  | PressChannel (k : nat)
  | PressClose
  (** the buttons of the retry, loading and main screens *)
  | PressTryAgain (answer : reply (list Snap))
  | PressDone
  | PressBack.

Definition is_uncalled_info (v : View) (frame : nat) : bool :=
  match info_frames v !! frame with
  | Some fr => negb (if_called fr)
  | None => false
  end.

Definition is_uncalled_load (v : View) (frame : nat) : bool :=
  match load_frames v !! frame with
  | Some fr => negb (lf_called fr)
  | None => false
  end.

(** The event can happen: the widget is on top of the screen, and a
    callback is invoked once. *)
Definition enabled (e : ui_event) (v : View) : bool :=
  match e, w v with
  | KeySpace row, Some (MainScreen _ body) =>
      bool_decide (row ∈ row_box <$> body)
  | KeyEnter row _, Some (MainScreen _ body) =>
      bool_decide (row ∈ row_box <$> body)
  | InfoReady frame _, _ => is_uncalled_info v frame
  | ListReady frame _, _ => is_uncalled_load v frame
  | PressCancelFetching d, Some (Overlay top _ _) =>
      bool_decide (top = d) &&
      match dialogs v !! d with Some (FetchingInfo _ _ _) => true | _ => false end
  | PressTryAgainInfo d _, Some (Overlay top _ _) =>
      bool_decide (top = d) &&
      match dialogs v !! d with Some (FetchingFailed _ _ _) => true | _ => false end
  | PressCancelFailed d, Some (Overlay top _ _) =>
      bool_decide (top = d) &&
      match dialogs v !! d with Some (FetchingFailed _ _ _) => true | _ => false end
  | PressChannel k, Some (DetailScreen siv) =>
      bool_decide (k < length (siv_group siv))%nat
  | PressClose, Some (DetailScreen _) => true
  | PressTryAgain _, Some RetryScreen => true
  | PressDone, Some (LoadingScreen _ | RetryScreen | MainScreen _ _) => true
  | PressBack, Some (MainScreen _ _) => true
  | _, _ => false
  end.

Section Handle.

Variable controller : Controller.
Variable open_read : string -> result string.
Variable yaml_load : string -> result yaml.

(** The method that the event runs. *)
Definition handle (e : ui_event) : M unit :=
  match e with
  | KeySpace row => CheckBox_toggle_state row
  | KeyEnter row answer => load_info row answer
  | InfoReady frame chans => info_ready frame chans
  | ListReady frame snap_list =>
      load_callback controller open_read yaml_load frame snap_list
  | PressCancelFetching d => FetchingInfo_close d
  | PressTryAgainInfo d answer => FetchingFailed_load d answer
  | PressCancelFailed d => FetchingFailed_close d
  | PressChannel k => RadioButton_toggle_state k
  | PressClose => show_main_screen
  | PressTryAgain answer => load controller open_read yaml_load answer
  | PressDone => done
  | PressBack => cancel
  end.

(** The snaps of a fetched list have distinct names. *)
Definition distinct_names (snap_list : list Snap) : Prop :=
  NoDup (name <$> snap_list).

Definition answer_ok (answer : reply (list Snap)) : Prop :=
  match answer with
  | Sync snap_list => distinct_names snap_list
  | Async => True
  end.

Definition event_ok (e : ui_event) : Prop :=
  match e with
  | ListReady _ snap_list => distinct_names snap_list
  | PressTryAgain answer => answer_ok answer
  | _ => True
  end.

(** The states of the view: the one its constructor leaves, and the ones
    the events lead to. *)
Inductive reachable : View -> Prop :=
  | reachable_init answer :
      answer_ok answer ->
      reachable (SnapListView_init controller open_read yaml_load answer)
  | reachable_event v e :
      reachable v -> enabled e v = true -> event_ok e ->
      reachable (exec (handle e) v).

End Handle.

(** A snap has an entry in [to_install] iff a check box of it is checked. *)
Definition store_iff_checked (v : View) : Prop :=
  forall n : string,
    is_Some (to_install v !! n) <->
    exists i box, boxes v !! i = Some box /\ name (cb_snap box) = n /\
                  cb_state box = true.


(** The snaps of the rows of the main screen that was built, in the order
    of the rows. *)
Definition displayed (v : View) : list Snap :=
  match main_screen v with
  | Some (MainScreen _ body) =>
      omap (fun r => cb_snap <$> boxes v !! row_box r) body
  | _ => []
  end.


(** The snaps of a fetched list that are offered: the ones that are not
    preinstalled. *)
Definition offered (preinstalled : gset key) (snap_list : list Snap)
    : list Snap :=
  filter (fun snap => KStr (name snap) ∉ preinstalled) snap_list.

(** The check box created for a snap, and the rows of the snaps offered
    when the first check box created is number [first]. *)
Definition new_box (snap : Snap) : SnapCheckBox :=
  {| cb_snap := snap; cb_state := false |}.

Fixpoint rows_of (first : nat) (snaps : list Snap) : list Row :=
  match snaps with
  | [] => []
  | snap :: snaps =>
      {| row_box := first;
         row_publisher := publisher snap;
         row_verified := verified snap;
         row_summary := summary snap |} :: rows_of (S first) snaps
  end.

(** The parts of the view that building the rows leaves alone. *)
Definition same_screen (v v' : View) : Prop :=
  to_install v' = to_install v /\ w v' = w v /\
  dialogs v' = dialogs v /\ load_frames v' = load_frames v /\
  info_frames v' = info_frames v /\ spinners v' = spinners v /\
  trace v' = trace v.


(** The calls that the callback of [load] makes on a spinner. *)
Definition stop_events (spinner : option nat) : list event :=
  match spinner with
  | Some s => [SpinnerStop s]
  | None => []
  end.


(** The widths of the two dialogs for a snap (lines 262 and 288). *)
Definition fetching_width (snap : Snap) : nat :=
  String.length ("Fetching info for " +:+ name snap) + 4.

Definition failed_width (snap : Snap) : nat :=
  String.length ("Fetching info for " +:+ name snap +:+ " failed") + 4.

(** The detail view that the callback of [load_info] builds for a snap. *)
Definition detail_of (v : View) (snap : Snap) : SnapInfoView :=
  SnapInfoView_init snap (channel <$> to_install v !! name snap).

Definition no_spinner_start (evs : list event) : Prop :=
  forall spinner : nat, SpinnerStart spinner ∉ evs.


(** ** A session *)

(** A run of the screen on a dry run of the installer whose seed holds
    the snap B: the store offers A, B and C at once, and the channels of A
    arrive after [load_info] has returned. *)
Module Session.

Definition controller : Controller :=
  {| sources := ["cp:///media/filesystem"]; dry_run := true |}.

Definition open_read (path : string) : result string :=
  Raise FileNotFoundError.

Definition yaml_load (text : string) : result yaml :=
  Ok (YDict [("snaps", YList [YDict [("name", YStr "B")]])]).

Definition snap (n : string) : Snap :=
  {| name := n; summary := "a snap"; publisher := "Canonical";
     description := "A snap for servers."; verified := true;
     confinement := "strict"; license := "MIT"; channels := [] |}.

Definition edge : ChannelSnapInfo :=
  {| channel_name := "edge"; revision := "12"; csi_confinement := "classic";
     version := "1.1"; csi_size := 4096; released_at := 1525125600000000 |}.

Definition stable : ChannelSnapInfo :=
  {| channel_name := "stable"; revision := "10"; csi_confinement := "strict";
     version := "1.0"; csi_size := 4096; released_at := 1525000000000000 |}.

(** The main screen, built by the constructor. *)
Definition main : View :=
  SnapListView_init controller open_read yaml_load
    (Sync [snap "A"; snap "B"; snap "C"]).

(** Enter on the row of A: the fetching dialog is shown. *)
Definition fetching : View := exec (load_info 0 Async) main.

(** The channels of A arrive: the detail view is shown. *)
Definition detail : View := exec (info_ready 0 [stable; edge]) fetching.

(** The snap A once its channels are stored, and its detail view. *)
Definition snap_A : Snap := set_channels [stable; edge] (snap "A").

Definition detail_A : SnapInfoView := SnapInfoView_init snap_A None.

(** The channel edge is chosen in the detail view. *)
Definition chosen : View := exec (RadioButton_toggle_state 1) detail.

(** No channel of A arrives: the failure dialog is shown. *)
Definition failed : View := exec (info_ready 0 []) fetching.

(** Cancel on the fetching dialog of A, before its channels arrive. *)
Definition cancelled : View := exec (FetchingInfo_close 0) fetching.

(** Enter on the row of C: a second fetching dialog is shown. *)
Definition refetching : View := exec (load_info 1 Async) cancelled.

(** The channels of A arrive, while those of C are being fetched. *)
Definition late : View := exec (info_ready 0 [stable; edge]) refetching.

End Session.


(** ** What a method keeps *)

(** A method is stable for a relation between the store it starts on and
    the store it leaves when the two are always related, whether it
    returns or raises. *)
Definition stable (R : View -> View -> Prop) {A} (m : M A) : Prop :=
  forall v, R v (exec m v).

(** The method keeps a property of the store. *)
Definition keeps (P : View -> Prop) : View -> View -> Prop :=
  fun v v' => P v -> P v'.

(** The method leaves a part of the store as it is. *)
Definition same {B} (part : View -> B) : View -> View -> Prop :=
  fun v v' => part v' = part v.

(** The method starts no spinner: the calls it makes are added to the
    trace, and none of them is [SpinnerStart]. *)
Definition starts_no_spinner : View -> View -> Prop :=
  fun v v' => exists evs, trace v' = trace v ++ evs /\ no_spinner_start evs.


(** The method returns: it raises on no store. *)
Definition returns {A} (m : M A) : Prop :=
  forall v, exists a, eval m v = Ok a.


(** ** The states of the screen *)

(** The retry screen is not on screen, nor under a dialog. *)
Fixpoint no_retry (x : widget) : Prop :=
  match x with
  | RetryScreen => False
  | Overlay _ _ bottom => no_retry bottom
  | _ => True
  end.

(** The screen is one that [load] and its callback show before there is
    a main screen. *)
Definition plain (x : option widget) : Prop :=
  match x with
  | None | Some (LoadingScreen _) | Some RetryScreen => True
  | _ => False
  end.

(** Every callback handed out by [load] was invoked. *)
Definition all_called (v : View) : Prop :=
  forall f fr, load_frames v !! f = Some fr -> lf_called fr = true.

(** A callback of [load] that was not invoked is that of the last call,
    and the loading screen is shown. *)
Definition pending_load (v : View) : Prop :=
  forall f fr, load_frames v !! f = Some fr -> lf_called fr = false ->
    S f = length (load_frames v) /\ exists s, w v = Some (LoadingScreen s).

(** [snap_boxes] maps a name to a check box of a snap of that name. *)
Definition boxes_named (v : View) : Prop :=
  forall n i, snap_boxes v !! n = Some i ->
    exists box, boxes v !! i = Some box /\ name (cb_snap box) = n.

Definition box_names (v : View) : list string :=
  (fun box => name (cb_snap box)) <$> boxes v.

(** Before the main screen is built: nothing is selected and nothing can
    be. *)
Definition before_main (v : View) : Prop :=
  main_screen v = None /\ boxes v = [] /\ to_install v = ∅ /\
  info_frames v = [] /\ plain (w v) /\ pending_load v.

(** Once the main screen is built: no list is fetched any more, and the
    selections are the checked boxes. *)
Definition with_main (v : View) : Prop :=
  (exists x, main_screen v = Some x /\ no_retry x) /\
  all_called v /\
  (exists x, w v = Some x /\ no_retry x) /\
  store_iff_checked v /\
  NoDup (box_names v) /\
  boxes_named v.

(** The snap of a detail view, on screen or under a dialog, has a check
    box in [snap_boxes]. *)
Fixpoint detail_ok (sb : gmap string nat) (x : widget) : Prop :=
  match x with
  | DetailScreen siv => is_Some (sb !! name (siv_snap siv))
  | Overlay _ _ bottom => detail_ok sb bottom
  | _ => True
  end.

Definition boxes_registered (v : View) : Prop :=
  forall i box, boxes v !! i = Some box ->
    is_Some (snap_boxes v !! name (cb_snap box)).

Definition detail_inv (v : View) : Prop :=
  boxes_registered v /\
  (forall x, w v = Some x -> detail_ok (snap_boxes v) x) /\
  (forall x, main_screen v = Some x -> detail_ok (snap_boxes v) x).

Definition screen_inv (v : View) : Prop :=
  before_main v \/ (with_main v /\ detail_inv v).


(** ** What SnapInfoView.render decides *)

(** What [render] decides (lines 223-245): the rows of the two panels,
    whether the description can take the focus ([_selectable]), and the
    right padding of the information table ([info_padding.right]). *)
Record Layout : Type := {
  description_rows : Z;
  channel_rows : Z;
  selectable : bool;
  padding_right : Z
}.

Definition layout
    (rows_available rows_wanted_description rows_wanted_channels : Z)
    : Layout :=
  let rows :=
    render_rows rows_available rows_wanted_description rows_wanted_channels in
  {| description_rows := fst rows;
     channel_rows := snd rows;
     selectable := render_selectable (fst rows) rows_wanted_description;
     padding_right := render_padding_right (snd rows) rows_wanted_channels |}.


(** ** A seed manifest of the expected form *)

(** An item of the list [snaps] that [get_preinstalled_snaps] can read:
    a mapping whose [name], if it has one, is a scalar. *)
Definition is_entry (item : yaml) : bool :=
  match item with
  | YDict e =>
      match assoc "name" e with
      | Some (YList _) | Some (YDict _) => false
      | _ => true
      end
  | _ => false
  end.

(** The name of an item as a member of the set, when it is true: a
    string that is not empty, an int that is not zero, or [True]. *)
Definition entry_key (item : yaml) : option key :=
  match item with
  | YDict e =>
      match assoc "name" e with
      | Some (YStr s) => if String.eqb s "" then None else Some (KStr s)
      | Some (YInt n) => if n =? 0 then None else Some (KInt n)
      | Some (YBool b) => if b then Some (KInt 1) else None
      | _ => None
      end
  | _ => None
  end.

(** The names of the items of a manifest. *)
Definition manifest_names (items : list yaml) : gset key :=
  list_to_set (omap entry_key items).

(** ** The detail view, as built *)

(** The radio button that [SnapInfoView.__init__] creates for a channel
    (lines 124-131). *)
Definition channel_button (cur_channel : option string)
    (csi : ChannelSnapInfo) : StarRadioButton :=
  {| rb_label := channel_name csi;
     rb_state := bool_decide (Some (channel_name csi) = cur_channel);
     rb_user_data :=
       {| channel := channel_name csi;
          is_classic := String.eqb (csi_confinement csi) "classic" |} |}.

(** The channel of a button is the last one of its name. *)
Definition last_of_name (chans : list ChannelSnapInfo) (k : nat) : Prop :=
  forall j a b, chans !! k = Some a -> chans !! j = Some b ->
    (k < j)%nat -> channel_name b <> channel_name a.

(** ** Kinds of events *)

(** The events that run a state change of a check box or of a radio
    button: space on a row, and a channel of the detail view. *)
Definition selects (e : ui_event) : bool :=
  match e with
  | KeySpace _ | PressChannel _ => true
  | _ => false
  end.

(** The events that can run [make_main_screen]: the list arrives, or it
    is asked for again. *)
Definition builds (e : ui_event) : bool :=
  match e with
  | ListReady _ _ | PressTryAgain _ => true
  | _ => false
  end.

(** What [make_main_screen] sets up: the check boxes, by the name of
    their snap, the registry [snap_boxes], and the main screen. *)
Definition rows_built (v : View)
    : list string * gmap string nat * option widget :=
  (box_names v, snap_boxes v, main_screen v).

(** No check box is of a snap that is preinstalled. *)
Definition names_outside (preinstalled : gset key) (v : View) : Prop :=
  forall n, n ∈ box_names v -> KStr n ∉ preinstalled.

(** ** The main screen, once built *)

(** The screen is the main screen that was built, a detail view, or a
    dialog over one of them. *)
Fixpoint shows_main (built : option widget) (x : widget) : Prop :=
  match x with
  | MainScreen i body => built = Some (MainScreen i body)
  | DetailScreen _ => True
  | Overlay _ _ bottom => shows_main built bottom
  | LoadingScreen _ | RetryScreen => False
  end.

Definition main_shown (v : View) : Prop :=
  (exists i body, main_screen v = Some (MainScreen i body)) /\
  exists x, w v = Some x /\ shows_main (main_screen v) x.

(** ** Spinners on screen *)

(** A callback of [load] that was not invoked has a spinner, and the
    loading screen with that spinner is shown. *)
Definition loading_shown (v : View) : Prop :=
  forall f fr, load_frames v !! f = Some fr -> lf_called fr = false ->
    exists spinner,
      lf_spinner fr = Some spinner /\ w v = Some (LoadingScreen spinner).

(** The dialog [fi] is a fetching dialog that is not closed: its
    [close], which stops its spinner, has not run. *)
Definition fetching_open (fi spinner width : nat) (v : View) : Prop :=
  dialogs v !! fi = Some (FetchingInfo false spinner width).

(** The event runs [close] on the dialog [fi]: Cancel on it, or a
    callback of [load_info] whose [fi] it is. *)
Definition closes (fi : nat) (e : ui_event) (v : View) : Prop :=
  match e with
  | PressCancelFetching d => d = fi
  | InfoReady frame _ =>
      exists fr, info_frames v !! frame = Some fr /\ if_fi fr = Some fi
  | _ => False
  end.

(** Each fetching dialog and each call of [load] has a spinner of its
    own: the spinners are numbered as they are created, and none belongs
    to two dialogs, to a dialog and a call of [load], or to two calls of
    [load]. *)
Definition spinners_distinct (v : View) : Prop :=
  (forall d closed s width,
     dialogs v !! d = Some (FetchingInfo closed s width) ->
     (s < spinners v)%nat) /\
  (forall f fr s,
     load_frames v !! f = Some fr -> lf_spinner fr = Some s ->
     (s < spinners v)%nat) /\
  (forall d d' closed closed' s width width',
     dialogs v !! d = Some (FetchingInfo closed s width) ->
     dialogs v !! d' = Some (FetchingInfo closed' s width') -> d = d') /\
  (forall d closed s width f fr,
     dialogs v !! d = Some (FetchingInfo closed s width) ->
     load_frames v !! f = Some fr -> lf_spinner fr <> Some s) /\
  (forall f f' fr fr' s,
     load_frames v !! f = Some fr -> lf_spinner fr = Some s ->
     load_frames v !! f' = Some fr' -> lf_spinner fr' = Some s -> f = f').

(** The calls that the method makes do not stop the spinner. *)
Definition stops_not (spinner : nat) : View -> View -> Prop :=
  fun v v' => exists evs,
    trace v' = trace v ++ evs /\ SpinnerStop spinner ∉ evs.

(** * Properties *)

(** ** Running a method *)

Lemma run_bind {A B} (m : M A) (k : A -> M B) (v : View) :
  (m ≫= k) v =
  match m v with
  | (Ok a, v') => k a v'
  | (Raise e, v') => (Raise e, v')
  end.
Proof. reflexivity. Qed.

Lemma run_bind_ok {A B} (m : M A) (k : A -> M B) (v v' : View) (a : A) :
  m v = (Ok a, v') -> (m ≫= k) v = k a v'.
Proof. intros H. rewrite run_bind, H. reflexivity. Qed.

Lemma run_bind_raise {A B} (m : M A) (k : A -> M B) (v v' : View) (e : exn) :
  m v = (Raise e, v') -> (m ≫= k) v = (Raise e, v').
Proof. intros H. rewrite run_bind, H. reflexivity. Qed.

Lemma run_modify (f : View -> View) (v : View) : modify f v = (Ok tt, f v).
Proof. reflexivity. Qed.

Lemma run_get (v : View) : get v = (Ok v, v).
Proof. reflexivity. Qed.

Lemma run_ret {A} (a : A) (v : View) : mret (M := M) a v = (Ok a, v).
Proof. reflexivity. Qed.

Lemma run_emit (e : event) (v : View) :
  emit e v = (Ok tt, with_trace (fun t => t ++ [e]) v).
Proof. reflexivity. Qed.

Lemma run_deref {A} (store : View -> list A) (i : nat) (a : A) (v : View) :
  store v !! i = Some a -> deref store i v = (Ok a, v).
Proof. intros H. unfold deref. rewrite H. reflexivity. Qed.

Lemma exec_eq {A} (m m' : M A) (v v' : View) :
  m v = m' v' -> exec m v = exec m' v'.
Proof. unfold exec. now intros ->. Qed.

Lemma eval_eq {A} (m m' : M A) (v v' : View) :
  m v = m' v' -> eval m v = eval m' v'.
Proof. unfold eval. now intros ->. Qed.

Lemma exec_run {A} (m : M A) (v v' : View) (r : result A) :
  m v = (r, v') -> exec m v = v'.
Proof. unfold exec. now intros ->. Qed.

Lemma eval_run {A} (m : M A) (v v' : View) (r : result A) :
  m v = (r, v') -> eval m v = r.
Proof. unfold eval. now intros ->. Qed.

(** ** Lists as stores *)

Lemma list_alter_lookup_Some {A} (f : A -> A) (l : list A) (i j : nat) (y : A) :
  alter f i l !! j = Some y ->
  (i = j /\ exists x, l !! j = Some x /\ y = f x) \/ (i <> j /\ l !! j = Some y).
Proof.
  destruct (decide (i = j)) as [-> | Hne].
  - rewrite list_lookup_alter_eq. destruct (l !! j) as [x |]; [| discriminate].
    intros [= <-]. left. eauto.
  - rewrite list_lookup_alter_ne by assumption. auto.
Qed.



(** ** Python numbers *)

Lemma float_lt_int_spec a b n :
  Py.float_lt_int (Py.truediv a b) n = (a <? n * Zpos b).
Proof.
  unfold Py.float_lt_int, Py.truediv, Qle_bool; simpl.
  rewrite Z.mul_1_r.
  destruct (Z.leb_spec (n * Z.pos b) a), (Z.ltb_spec a (n * Z.pos b));
    simpl; auto; lia.
Qed.

Lemma int_fdiv_nonneg a b c :
  0 <= a -> Py.int (Py.fdiv (Py.truediv a b) c) = a / Zpos (b * c).
Proof.
  intros Ha. unfold Py.int, Py.fdiv, Py.truediv; simpl.
  apply Z.quot_div_nonneg; lia.
Qed.

(** *** The float of a quotient *)

Lemma int_lt_dyadic (w c j : Z) :
  Py.int_lt_float w (Py.dyadic c j)
  = (w * 2 ^ Z.max 0 (- j) <? c * 2 ^ Z.max 0 j).
Proof.
  unfold Py.int_lt_float, Py.dyadic, Qle_bool. cbn [Qnum Qden inject_Z].
  assert (Hpos : 0 < 2 ^ Z.max 0 (- j)) by (apply Z.pow_pos_nonneg; lia).
  rewrite Z2Pos.id by exact Hpos. rewrite Z.mul_1_r.
  destruct (Z.leb_spec (c * 2 ^ Z.max 0 j) (w * 2 ^ Z.max 0 (- j))),
           (Z.ltb_spec (w * 2 ^ Z.max 0 (- j)) (c * 2 ^ Z.max 0 j));
    cbn; auto; lia.
Qed.

Lemma int_dyadic (c j : Z) :
  Py.int (Py.dyadic c j)
  = Z.quot (c * 2 ^ Z.max 0 j) (2 ^ Z.max 0 (- j)).
Proof.
  unfold Py.int, Py.dyadic. cbn [Qnum Qden].
  rewrite Z2Pos.id by (apply Z.pow_pos_nonneg; lia). reflexivity.
Qed.

Lemma round_half_even_nearest (num den : Z) :
  0 < den ->
  - den <= 2 * (Py.round_half_even num den * den - num) <= den.
Proof.
  intros Hden. unfold Py.round_half_even.
  pose proof (Z.div_mod num den ltac:(lia)) as Hdm.
  pose proof (Z.mod_pos_bound num den Hden) as Hr.
  set (q := num / den) in *. set (r := num mod den) in *.
  destruct (Z.ltb_spec (2 * r) den); [lia |].
  destruct (Z.ltb_spec den (2 * r)); [lia |].
  destruct (Z.even q); lia.
Qed.

Lemma scaled_pos_exponent (a b e : Z) :
  0 <= e -> Py.scaled_num a e = a /\ Py.scaled_den b e = b * 2 ^ e.
Proof.
  intros He. unfold Py.scaled_num, Py.scaled_den.
  rewrite (Z.max_l 0 (- e)), (Z.max_r 0 e) by lia.
  rewrite Z.pow_0_r. split; lia.
Qed.

Lemma scaled_neg_exponent (a b e : Z) :
  e <= 0 -> Py.scaled_num a e = a * 2 ^ (- e) /\ Py.scaled_den b e = b.
Proof.
  intros He. unfold Py.scaled_num, Py.scaled_den.
  rewrite (Z.max_r 0 (- e)), (Z.max_l 0 e) by lia.
  rewrite Z.pow_0_r. split; lia.
Qed.

(** The scaled fraction of the exponent below has twice the value. *)
Lemma scaled_pred (a b e : Z) :
  0 < a -> 0 < b ->
  Py.scaled_num a (e - 1) * Py.scaled_den b e
  = 2 * (Py.scaled_num a e * Py.scaled_den b (e - 1)).
Proof.
  intros Ha Hb. destruct (Z_le_gt_dec e 0) as [He | He].
  - destruct (scaled_neg_exponent a b e He) as [-> ->].
    destruct (scaled_neg_exponent a b (e - 1) ltac:(lia)) as [-> ->].
    replace (- (e - 1)) with (Z.succ (- e)) by lia.
    rewrite Z.pow_succ_r by lia. lia.
  - destruct (scaled_pos_exponent a b e ltac:(lia)) as [-> ->].
    destruct (scaled_pos_exponent a b (e - 1) ltac:(lia)) as [-> ->].
    replace e with (Z.succ (e - 1)) at 1 by lia.
    rewrite Z.pow_succ_r by lia. lia.
Qed.

Lemma scaled_den_pos (b e : Z) : 0 < b -> 0 < Py.scaled_den b e.
Proof.
  intros Hb. unfold Py.scaled_den.
  apply Z.mul_pos_pos; [exact Hb | apply Z.pow_pos_nonneg; lia].
Qed.

Lemma scaled_num_pos (a e : Z) : 0 < a -> 0 < Py.scaled_num a e.
Proof.
  intros Ha. unfold Py.scaled_num.
  apply Z.mul_pos_pos; [exact Ha | apply Z.pow_pos_nonneg; lia].
Qed.

(** The significand has 53 bits. *)
Lemma ulp_exponent_spec (a b : Z) :
  0 < a -> 0 < b ->
  let e := Py.ulp_exponent a b in
  2 ^ 52 * Py.scaled_den b e <= Py.scaled_num a e < 2 ^ 53 * Py.scaled_den b e.
Proof.
  intros Ha Hb.
  pose proof (Z.log2_spec a Ha) as [Ha1 Ha2].
  pose proof (Z.log2_spec b Hb) as [Hb1 Hb2].
  pose proof (Z.log2_nonneg a) as Hla. pose proof (Z.log2_nonneg b) as Hlb.
  set (la := Z.log2 a) in *. set (lb := Z.log2 b) in *.
  rewrite Z.pow_succ_r in Ha2, Hb2 by lia.
  (* a * 2^lb < 2^53 * b * 2^(la - 52) and b * 2^la < 2 * a * 2^lb *)
  assert (Hup : forall e, e = la - lb - 52 ->
            Py.scaled_num a e < 2 ^ 53 * Py.scaled_den b e).
  { intros e He. destruct (Z_le_gt_dec e 0) as [Hneg | Hposi].
    - destruct (scaled_neg_exponent a b e Hneg) as [-> ->].
      assert (Hpow : 2 ^ (- e) * (2 * 2 ^ la) = 2 ^ 53 * 2 ^ lb).
      { replace (2 * 2 ^ la) with (2 ^ (la + 1))
          by (rewrite Z.pow_add_r by lia; lia).
        rewrite <- !Z.pow_add_r by lia. f_equal. lia. }
      assert (0 < 2 ^ (- e)) by (apply Z.pow_pos_nonneg; lia).
      nia.
    - destruct (scaled_pos_exponent a b e ltac:(lia)) as [-> ->].
      assert (Hpow : 2 * 2 ^ la = 2 ^ 53 * (2 ^ lb * 2 ^ e)).
      { replace (2 * 2 ^ la) with (2 ^ (la + 1))
          by (rewrite Z.pow_add_r by lia; lia).
        rewrite <- !Z.pow_add_r by lia. f_equal. lia. }
      assert (0 < 2 ^ e) by (apply Z.pow_pos_nonneg; lia).
      nia. }
  assert (Hlow : forall e, e = la - lb - 52 ->
            2 ^ 52 * Py.scaled_den b (e - 1) <= Py.scaled_num a (e - 1)).
  { intros e He. destruct (Z_le_gt_dec (e - 1) 0) as [Hneg | Hposi].
    - destruct (scaled_neg_exponent a b (e - 1) Hneg) as [-> ->].
      assert (Hpow : 2 ^ (- (e - 1)) * 2 ^ la = 2 ^ 52 * (2 * 2 ^ lb)).
      { replace (2 * 2 ^ lb) with (2 ^ (lb + 1))
          by (rewrite Z.pow_add_r by lia; lia).
        rewrite <- !Z.pow_add_r by lia. f_equal. lia. }
      assert (0 < 2 ^ (- (e - 1))) by (apply Z.pow_pos_nonneg; lia).
      nia.
    - destruct (scaled_pos_exponent a b (e - 1) ltac:(lia)) as [-> ->].
      assert (Hpow : 2 ^ la = 2 ^ 52 * (2 * 2 ^ lb * 2 ^ (e - 1))).
      { replace (2 * 2 ^ lb) with (2 ^ (lb + 1))
          by (rewrite Z.pow_add_r by lia; lia).
        rewrite <- !Z.pow_add_r by lia. f_equal. lia. }
      assert (0 < 2 ^ (e - 1)) by (apply Z.pow_pos_nonneg; lia).
      nia. }
  cbn zeta. unfold Py.ulp_exponent. fold la lb.
  set (e := la - lb - 52) in *.
  specialize (Hup e eq_refl). specialize (Hlow e eq_refl).
  destruct (Z.leb_spec (Py.scaled_den b e * 2 ^ 52) (Py.scaled_num a e))
    as [Hge | Hlt].
  - lia.
  - split; [exact Hlow |].
    pose proof (scaled_pred a b e Ha Hb) as Hpred.
    pose proof (scaled_den_pos b e Hb). pose proof (scaled_den_pos b (e - 1) Hb).
    pose proof (scaled_num_pos a e Ha). pose proof (scaled_num_pos a (e - 1) Ha).
    nia.
Qed.

(** The float of a quotient that is not zero: a significand of 53 bits
    that is an integer nearest to the scaled quotient. *)
Lemma nearest_float_spec (a : Z) (b : positive) :
  a <> 0 ->
  exists n e,
    Py.nearest_float a b = Py.dyadic (Z.sgn a * n) e /\
    2 ^ 52 * Py.scaled_den (Zpos b) e <= Py.scaled_num (Z.abs a) e
      < 2 ^ 53 * Py.scaled_den (Zpos b) e /\
    - Py.scaled_den (Zpos b) e
      <= 2 * (n * Py.scaled_den (Zpos b) e - Py.scaled_num (Z.abs a) e)
      <= Py.scaled_den (Zpos b) e.
Proof.
  intros Ha. unfold Py.nearest_float.
  destruct (Z.eqb_spec a 0) as [| _]; [contradiction |].
  eexists _, _. split; [reflexivity |]. split.
  - apply ulp_exponent_spec; lia.
  - apply round_half_even_nearest. apply scaled_den_pos. lia.
Qed.

(** Up to [3 * 2^52] the float of a third compares with an int as the
    third itself does. *)
Lemma int_lt_nearest_exact (w a : Z) :
  Z.abs a <= 3 * 2 ^ 52 ->
  Py.int_lt_float w (Py.nearest_float a 3) = (w * 3 <? a).
Proof.
  intros Hsmall. destruct (Z.eq_dec a 0) as [-> | Ha].
  - unfold Py.nearest_float, Py.int_lt_float, Qle_bool. cbn.
    destruct (Z.leb_spec 0 (w * 1)), (Z.ltb_spec (w * 3) 0); cbn; auto; lia.
  - destruct (nearest_float_spec a 3 Ha) as (n & e & -> & Hbits & Hnear).
    rewrite int_lt_dyadic.
    assert (He : e <= 0).
    { destruct (Z_le_gt_dec e 0) as [| Hpos]; [assumption | exfalso].
      destruct (scaled_pos_exponent (Z.abs a) 3 e ltac:(lia)) as [E1 E2].
      rewrite E1, E2 in Hbits.
      assert (2 <= 2 ^ e)
        by (change 2 with (2 ^ 1) at 1; apply Z.pow_le_mono_r; lia).
      lia. }
    destruct (scaled_neg_exponent (Z.abs a) 3 e He) as [E1 E2].
    rewrite E1, E2 in Hbits, Hnear.
    rewrite (Z.max_l 0 e), (Z.max_r 0 (- e)) by lia.
    rewrite Z.pow_0_r, Z.mul_1_r.
    assert (Hpow : 0 < 2 ^ (- e)) by (apply Z.pow_pos_nonneg; lia).
    assert (Htwo : e < 0 -> 2 <= 2 ^ (- e))
      by (intros; change 2 with (2 ^ 1) at 1; apply Z.pow_le_mono_r; lia).
    set (N := 2 ^ (- e)) in *.
    destruct (Z.ltb_spec (w * N) (Z.sgn a * n)) as [Hlt | Hge],
             (Z.ltb_spec (w * 3) a) as [Hlt' | Hge'];
      try reflexivity; exfalso;
      destruct (Z.eq_dec e 0) as [-> | Hne];
      try (change N with 1 in *);
      try (specialize (Htwo ltac:(lia)));
      destruct (Z.abs_spec a) as [[Hs Habs] | [Hs Habs]];
      rewrite Habs in *;
      first [ rewrite (Z.sgn_pos a) in * by lia
            | rewrite (Z.sgn_neg a) in * by lia ];
      nia.
Qed.

(** Up to [3 * 2^52] truncating the float of a third gives the
    integer quotient. *)
Lemma int_nearest_exact (a : Z) :
  0 <= a <= 3 * 2 ^ 52 -> Py.int (Py.nearest_float a 3) = a / 3.
Proof.
  intros Hsmall. destruct (Z.eq_dec a 0) as [-> | Ha]; [reflexivity |].
  destruct (nearest_float_spec a 3 Ha) as (n & e & -> & Hbits & Hnear).
  rewrite int_dyadic. rewrite Z.abs_eq in * by lia.
  rewrite Z.sgn_pos by lia.
  assert (He : e <= 0).
  { destruct (Z_le_gt_dec e 0) as [| Hpos]; [assumption | exfalso].
    destruct (scaled_pos_exponent a 3 e ltac:(lia)) as [E1 E2].
    rewrite E1, E2 in Hbits.
    assert (2 <= 2 ^ e)
      by (change 2 with (2 ^ 1) at 1; apply Z.pow_le_mono_r; lia).
    lia. }
  destruct (scaled_neg_exponent a 3 e He) as [E1 E2].
  rewrite E1, E2 in Hbits, Hnear.
  rewrite (Z.max_l 0 e), (Z.max_r 0 (- e)) by lia.
  rewrite Z.pow_0_r, Z.mul_1_r, Z.mul_1_l.
  assert (Hpow : 0 < 2 ^ (- e)) by (apply Z.pow_pos_nonneg; lia).
  assert (Htwo : e < 0 -> 2 <= 2 ^ (- e))
    by (intros; change 2 with (2 ^ 1) at 1; apply Z.pow_le_mono_r; lia).
  set (N := 2 ^ (- e)) in *.
  assert (Hn : 0 <= n) by nia.
  rewrite Z.quot_div_nonneg by lia.
  pose proof (Z.div_mod a 3 ltac:(lia)) as Hdm.
  pose proof (Z.mod_pos_bound a 3 ltac:(lia)) as Hr.
  set (k := a / 3) in *. set (j := a mod 3) in *.
  symmetry. apply (Z.div_unique_pos n N k (n - N * k)); [| lia].
  destruct (Z.eq_dec e 0) as [-> | Hne].
  - change N with 1 in *. lia.
  - specialize (Htwo ltac:(lia)). nia.
Qed.

(** A float of the form [c * 2^j] that is at most an int [y]. *)
Lemma dyadic_le_int (c j y : Z) :
  0 <= y ->
  c * 2 ^ Z.max 0 j <= y * 2 ^ Z.max 0 (- j) ->
  (forall w, Py.int_lt_float w (Py.dyadic c j) = true -> w < y) /\
  Py.int (Py.dyadic c j) <= y.
Proof.
  intros Hy Hle.
  assert (Hpow : 0 < 2 ^ Z.max 0 (- j)) by (apply Z.pow_pos_nonneg; lia).
  set (N := 2 ^ Z.max 0 (- j)) in *. set (X := c * 2 ^ Z.max 0 j) in *.
  split.
  - intros w Hw. rewrite int_lt_dyadic in Hw. fold N X in Hw.
    apply Z.ltb_lt in Hw. nia.
  - rewrite int_dyadic. fold N X.
    destruct (Z_le_gt_dec 0 X) as [Hpos | Hneg].
    + rewrite Z.quot_div_nonneg by lia.
      apply Z.div_le_upper_bound; lia.
    + pose proof (Z.quot_opp_l X N ltac:(lia)) as Hopp.
      pose proof (Z.quot_pos (- X) N ltac:(lia) Hpow). lia.
Qed.

(** The float of a third is at most an int that a float can hold, or
    that is far above the third. *)
Lemma nearest_le_int (a y : Z) :
  0 <= y -> a <= 3 * y ->
  y <= 2 ^ 53 \/ a * 2 ^ 52 <= 3 * y * (2 ^ 52 - 1) ->
  (forall w, Py.int_lt_float w (Py.nearest_float a 3) = true -> w < y) /\
  Py.int (Py.nearest_float a 3) <= y.
Proof.
  intros Hy Ha Hfar. destruct (Z.eq_dec a 0) as [-> | Hnz].
  - apply (dyadic_le_int 0 0 y Hy). cbn. lia.
  - destruct (nearest_float_spec a 3 Hnz) as (n & e & -> & Hbits & Hnear).
    apply dyadic_le_int; [exact Hy |].
    pose proof (scaled_den_pos 3 e ltac:(lia)) as Hden.
    assert (Hn : 0 < n) by nia.
    destruct (Z_lt_le_dec a 0) as [Hneg | Hpos].
    + rewrite Z.sgn_neg by lia.
      assert (0 < 2 ^ Z.max 0 e) by (apply Z.pow_pos_nonneg; lia).
      assert (0 < 2 ^ Z.max 0 (- e)) by (apply Z.pow_pos_nonneg; lia).
      nia.
    + rewrite Z.sgn_pos by lia. rewrite Z.abs_eq in * by lia.
      rewrite Z.mul_1_l.
      destruct (Z_le_gt_dec e 0) as [He | He].
      * destruct (scaled_neg_exponent a 3 e He) as [E1 E2].
        rewrite E1, E2 in Hbits, Hnear.
        rewrite (Z.max_l 0 e), (Z.max_r 0 (- e)) by lia.
        rewrite Z.pow_0_r, Z.mul_1_r.
        assert (0 < 2 ^ (- e)) by (apply Z.pow_pos_nonneg; lia).
        set (N := 2 ^ (- e)) in *. nia.
      * destruct (scaled_pos_exponent a 3 e ltac:(lia)) as [E1 E2].
        rewrite E1, E2 in Hbits, Hnear.
        rewrite (Z.max_r 0 e), (Z.max_l 0 (- e)) by lia.
        rewrite Z.pow_0_r, Z.mul_1_r.
        assert (2 <= 2 ^ e)
          by (change 2 with (2 ^ 1) at 1; apply Z.pow_le_mono_r; lia).
        set (P := 2 ^ e) in *.
        replace (n * (3 * P)) with (3 * (n * P)) in Hnear by lia.
        destruct Hfar as [Hfar | Hfar].
        -- assert (HP : P = 2) by lia. rewrite HP in *. lia.
        -- set (t := n * P) in *. lia.
Qed.

Lemma overflows_dyadic (c j : Z) :
  Py.overflows (Py.dyadic c j)
  = (2 ^ 1024 * 2 ^ Z.max 0 (- j) <=? Z.abs (c * 2 ^ Z.max 0 j)).
Proof.
  unfold Py.overflows, Py.dyadic, Qle_bool. cbn [Qnum Qden inject_Z Qabs].
  rewrite Z2Pos.id by (apply Z.pow_pos_nonneg; lia).
  now rewrite Z.mul_1_r.
Qed.

(** The float of a third of an int of 53 bits is far from the least
    float that is too large. *)
Lemma nearest_no_overflow (a : Z) :
  Z.abs a <= 3 * 2 ^ 52 -> Py.overflows (Py.nearest_float a 3) = false.
Proof.
  intros Hsmall. destruct (Z.eq_dec a 0) as [-> | Ha]; [reflexivity |].
  destruct (nearest_float_spec a 3 Ha) as (n & e & -> & Hbits & Hnear).
  rewrite overflows_dyadic.
  assert (He : e <= 0).
  { destruct (Z_le_gt_dec e 0) as [| Hpos]; [assumption | exfalso].
    destruct (scaled_pos_exponent (Z.abs a) 3 e ltac:(lia)) as [E1 E2].
    rewrite E1, E2 in Hbits.
    assert (2 <= 2 ^ e)
      by (change 2 with (2 ^ 1) at 1; apply Z.pow_le_mono_r; lia).
    lia. }
  destruct (scaled_neg_exponent (Z.abs a) 3 e He) as [E1 E2].
  rewrite E1, E2 in Hbits, Hnear.
  rewrite (Z.max_l 0 e), (Z.max_r 0 (- e)) by lia.
  rewrite Z.pow_0_r, Z.mul_1_r.
  assert (Hpow : 0 < 2 ^ (- e)) by (apply Z.pow_pos_nonneg; lia).
  set (N := 2 ^ (- e)) in *.
  assert (Hn : 0 < n) by nia.
  assert (Hn53 : n <= 2 ^ 53 * N) by nia.
  assert (Hsgn : Z.abs (Z.sgn a) = 1)
    by (destruct a; [contradiction | reflexivity ..]).
  apply Z.leb_gt. rewrite Z.abs_mul, Hsgn, (Z.abs_eq n) by lia.
  assert (2 ^ 53 < 2 ^ 1024) by (apply Z.pow_lt_mono_r; lia).
  nia.
Qed.

(** ** The split of the rows *)

Lemma render_rows_fits ra wa wb :
  wa + wb <= ra -> render_rows ra wa wb = (wa, wb).
Proof.
  intros H. unfold render_rows.
  destruct (Z.leb_spec (wb + wa) ra); [reflexivity | lia].
Qed.

Lemma render_rows_small ra wa wb :
  Z.abs ra <= 3 * 2 ^ 51 ->
  ra < wa + wb -> 3 * wa < 2 * ra -> render_rows ra wa wb = (wa, ra - wa).
Proof.
  intros H0 H1 H2. unfold render_rows.
  destruct (Z.leb_spec (wb + wa) ra); [lia |].
  rewrite int_lt_nearest_exact by lia.
  destruct (Z.ltb_spec (wa * 3) (2 * ra)); [reflexivity | lia].
Qed.

Lemma render_rows_large ra wa wb :
  0 <= ra <= 3 * 2 ^ 51 -> ra < wa + wb -> 2 * ra <= 3 * wa ->
  render_rows ra wa wb =
    (ra - Z.max (Z.min wb (ra / 3)) 3, Z.max (Z.min wb (ra / 3)) 3).
Proof.
  intros H0 H1 H2. unfold render_rows.
  destruct (Z.leb_spec (wb + wa) ra); [lia |].
  rewrite int_lt_nearest_exact by lia.
  destruct (Z.ltb_spec (wa * 3) (2 * ra)); [lia |].
  rewrite int_nearest_exact by lia. reflexivity.
Qed.

(** The three branches of [render], for any number of rows. *)
Lemma render_rows_branches (ra wa wb : Z) :
  (wa + wb <= ra /\ render_rows ra wa wb = (wa, wb)) \/
  (ra < wa + wb /\
   Py.int_lt_float wa (Py.nearest_float (2 * ra) 3) = true /\
   render_rows ra wa wb = (wa, ra - wa)) \/
  (ra < wa + wb /\
   Py.int_lt_float wa (Py.nearest_float (2 * ra) 3) = false /\
   render_rows ra wa wb
     = (ra - Z.max (Z.min wb (Py.int (Py.nearest_float ra 3))) 3,
        Z.max (Z.min wb (Py.int (Py.nearest_float ra 3))) 3)).
Proof.
  unfold render_rows.
  destruct (Z.leb_spec (wb + wa) ra) as [Hfit | Hno].
  - left. split; [lia | reflexivity].
  - right.
    destruct (Py.int_lt_float wa (Py.nearest_float (2 * ra) 3)) eqn:Hlt.
    + left. split; [lia |]. split; reflexivity.
    + right. split; [lia |]. split; reflexivity.
Qed.

(** The description gets what it wants in the second branch only when
    that leaves rows: the float of two thirds of the rows is at most the
    rows less [k], for [k] up to two and a third of the rows. *)
Lemma two_thirds_below (ra wa k : Z) :
  0 <= k <= 2 -> 3 * k <= ra ->
  Py.int_lt_float wa (Py.nearest_float (2 * ra) 3) = true ->
  wa < ra - k.
Proof.
  intros Hk Hra Hlt.
  destruct (nearest_le_int (2 * ra) (ra - k)) as [H _]; [lia | lia | |].
  - destruct (Z_le_gt_dec (ra - k) (2 ^ 53)); [now left | right]. lia.
  - now apply H.
Qed.

Lemma two_thirds_of_none (ra wa : Z) :
  ra <= 0 ->
  Py.int_lt_float wa (Py.nearest_float (2 * ra) 3) = true -> wa < 0.
Proof.
  intros Hra Hlt.
  destruct (nearest_le_int (2 * ra) 0) as [H _]; [lia | lia | left; lia |].
  now apply H.
Qed.

Lemma third_below (ra : Z) :
  Py.int (Py.nearest_float ra 3) <= Z.max ra 0.
Proof.
  destruct (nearest_le_int ra (Z.max ra 0)) as [_ H]; [lia | lia | | exact H].
  destruct (Z_le_gt_dec (Z.max ra 0) (2 ^ 53)); [now left | right]. lia.
Qed.

(** C1, as the specification states it, fails for a number of rows that
    a float of 53 bits cannot hold.  With [3 * 2^51 + 2] rows, two
    thirds of them are [2^52 + 1 + 1/3], which [/] rounds to
    [2^52 + 1]: a description that wants [2^52 + 1] rows wants less than
    two thirds, and is not found to.  And a third of 27021597764222979
    rows is 9007199254740993, which [/] rounds to 9007199254740992. *)
Lemma render_rows_rounding_counterexample :
  (0 <= 6755399441055746 /\
   6755399441055746 = 3 * 2 ^ 51 + 2 /\
   render_rows 6755399441055746 4503599627370497 2251799813685250
     = (4503599627370498, 2251799813685248) /\
   split_spec 6755399441055746 4503599627370497 2251799813685250
     = (4503599627370497, 2251799813685249)) /\
  (0 <= 27021597764222979 /\
   render_rows 27021597764222979 27021597764222979 27021597764222979
     = (18014398509481987, 9007199254740992) /\
   split_spec 27021597764222979 27021597764222979 27021597764222979
     = (18014398509481986, 9007199254740993)).
Proof. vm_compute. repeat split; congruence. Qed.

(** C1, amended.  Up to [3 * 2^51] rows, and for wants that are not
    negative, [render] raises no [OverflowError] and shares the rows by
    the rule of three cases of the specification ([split_spec]): both
    panels get what they want when that fits; else the description gets
    what it wants when that is less than two thirds of the rows, and the
    channels get the rest; else the channels get
    [max (min wanted (available / 3)) 3] rows and the description the
    rest.  So [split 20 5 3 = (5, 3)], [split 10 3 20 = (3, 7)] and
    [split 10 9 20 = (7, 3)]. *)
Theorem render_rows_three_cases (availableRows wantedA wantedB : Z) :
  0 <= availableRows <= 3 * 2 ^ 51 -> 0 <= wantedA -> 0 <= wantedB ->
  render_overflows availableRows wantedA wantedB = false
  /\ render_rows availableRows wantedA wantedB
    = split_spec availableRows wantedA wantedB
  /\ render_rows 20 5 3 = (5, 3)
  /\ render_rows 10 3 20 = (3, 7)
  /\ render_rows 10 9 20 = (7, 3).
Proof.
  intros Hr Ha Hb. split.
  { unfold render_overflows. rewrite nearest_no_overflow by lia.
    apply andb_false_r. }
  split; [| repeat split; reflexivity].
  unfold split_spec.
  destruct (decide (wantedA + wantedB <= availableRows)) as [Hfit | Hfit].
  - now apply render_rows_fits.
  - destruct (decide (3 * wantedA < 2 * availableRows)) as [Hs | Hs].
    + apply render_rows_small; lia.
    + apply render_rows_large; lia.
Qed.

Lemma render_rows_three_cases_witness :
  render_rows 12 9 7 = split_spec 12 9 7 /\ split_spec 12 9 7 = (8, 4).
Proof.
  split; [| reflexivity].
  apply (render_rows_three_cases 12 9 7); lia.
Defined.

(** C2, as the specification states it, fails twice: when both wants fit,
    the rows given add up to the wants and not to the rows available;
    and with three to five rows available the channels can get two
    rows. *)
Lemma render_rows_sum_counterexample :
  (5 + 3 <= 20 /\
   fst (render_rows 20 5 3) + snd (render_rows 20 5 3) <> 20) /\
  (~ 1 + 5 <= 3 /\ ~ 3 < 3 /\ ~ 3 <= snd (render_rows 3 1 5)).
Proof. vm_compute. repeat split; congruence. Qed.

(** C2, amended. When both wants fit, the rows given add up to the wants,
    which is at most the rows available; otherwise they add up to the
    rows available, the description gets no negative number of rows
    unless fewer than three rows are available, and the channels get at
    least three rows when six rows are available or the description wants
    two thirds of them, and at least two when three are available. *)
Theorem render_rows_bounds (availableRows wantedA wantedB : Z) :
  0 <= availableRows -> 0 <= wantedA -> 0 <= wantedB ->
  let rowsA := fst (render_rows availableRows wantedA wantedB) in
  let rowsB := snd (render_rows availableRows wantedA wantedB) in
  (wantedA + wantedB <= availableRows ->
     rowsA + rowsB = wantedA + wantedB /\ rowsA + rowsB <= availableRows) /\
  (availableRows < wantedA + wantedB ->
     rowsA + rowsB = availableRows /\
     (3 <= availableRows -> 0 <= rowsA) /\
     (6 <= availableRows \/ 2 * availableRows <= 3 * wantedA -> 3 <= rowsB) /\
     (3 <= availableRows -> 2 <= rowsB)).
Proof.
  intros Hr Ha Hb rowsA rowsB. subst rowsA rowsB. split.
  - intros Hfit. rewrite render_rows_fits by assumption. simpl. lia.
  - intros Hno.
    destruct (render_rows_branches availableRows wantedA wantedB)
      as [[Hfit _] | [(_ & Hlt & ->) | (_ & Hlt & ->)]]; [lia | |];
      cbn [fst snd].
    + split; [lia |]. split; [lia |]. split.
      * intros [Hsix | Hwant].
        -- pose proof (two_thirds_below availableRows wantedA 2 ltac:(lia) ltac:(lia) Hlt). lia.
        -- destruct (Z_le_gt_dec 6 availableRows) as [Hsix | Hfew].
           ++ pose proof (two_thirds_below availableRows wantedA 2 ltac:(lia) ltac:(lia) Hlt).
              lia.
           ++ rewrite int_lt_nearest_exact in Hlt by lia.
              apply Z.ltb_lt in Hlt. lia.
      * intros Hthree.
        pose proof (two_thirds_below availableRows wantedA 1 ltac:(lia) ltac:(lia) Hlt). lia.
    + pose proof (third_below availableRows). lia.
Qed.

Lemma render_rows_bounds_witness :
  fst (render_rows 7 6 5) + snd (render_rows 7 6 5) = 7 /\
  3 <= snd (render_rows 7 6 5).
Proof.
  pose proof (render_rows_bounds 7 6 5) as H.
  destruct H as [_ H]; [lia | lia | lia |].
  destruct H as (Hsum & _ & Hb & _); [lia |].
  split; [exact Hsum | apply Hb; lia].
Defined.


(** ** format_datetime *)

(** The seconds of a difference of datetimes, as a fraction: the
    microseconds between them over a million. *)
Lemma total_seconds_sub (a b : datetime) :
  total_seconds (datetime_sub a b) = Py.truediv (a - b) 1000000.
Proof.
  unfold total_seconds, datetime_sub; simpl. f_equal.
  set (us := a - b).
  pose proof (Z.div_mod us 86400000000 ltac:(lia)) as H1.
  pose proof (Z.div_mod (us mod 86400000000) 1000000 ltac:(lia)) as H2.
  assert (H3 : (us mod 86400000000) mod 1000000 = us mod 1000000).
  { replace (us mod 86400000000)
      with (us + - (86400 * (us / 86400000000)) * 1000000) by lia.
    apply Z.mod_add; lia. }
  change (10 ^ 6) with 1000000. lia.
Qed.

Lemma days_sub (a b : datetime) :
  days (datetime_sub a b) = (a - b) / 86400000000.
Proof. reflexivity. Qed.

Section FormatDatetimeFacts.

Variable now : datetime.
Variable str_date : datetime -> string.

Abbreviation fmt := (format_datetime now str_date).

Lemma format_datetime_just_now d :
  now - d < 60000000 -> fmt d = "just now".
Proof.
  intros H. unfold format_datetime.
  rewrite total_seconds_sub, float_lt_int_spec.
  destruct (Z.ltb_spec (now - d) (60 * 1000000)); [reflexivity | lia].
Qed.

Lemma format_datetime_minutes d :
  60000000 <= now - d < 3600000000 ->
  fmt d = format_ago ((now - d) / 60000000)
            (if (now - d) / 60000000 =? 1 then "minute" else "minutes").
Proof.
  intros H. unfold format_datetime.
  rewrite total_seconds_sub, !float_lt_int_spec.
  destruct (Z.ltb_spec (now - d) (60 * 1000000)); [lia |].
  destruct (Z.ltb_spec (now - d) (60 * 60 * 1000000)); [| lia].
  rewrite int_fdiv_nonneg by lia. reflexivity.
Qed.

Lemma format_datetime_hours d :
  3600000000 <= now - d < 86400000000 ->
  fmt d = format_ago ((now - d) / 3600000000)
            (if (now - d) / 3600000000 =? 1 then "hour" else "hours").
Proof.
  intros H. unfold format_datetime.
  rewrite total_seconds_sub, !float_lt_int_spec.
  destruct (Z.ltb_spec (now - d) (60 * 1000000)); [lia |].
  destruct (Z.ltb_spec (now - d) (60 * 60 * 1000000)); [lia |].
  destruct (Z.ltb_spec (now - d) (60 * 60 * 24 * 1000000)); [| lia].
  rewrite int_fdiv_nonneg by lia. reflexivity.
Qed.

Lemma format_datetime_old d :
  86400000000 <= now - d ->
  fmt d = if (now - d) / 86400000000 <? 30
          then format_ago ((now - d) / 86400000000)
                 (if (now - d) / 86400000000 =? 1 then "day" else "days")
          else str_date d.
Proof.
  intros H. unfold format_datetime.
  rewrite total_seconds_sub, !float_lt_int_spec, days_sub.
  destruct (Z.ltb_spec (now - d) (60 * 1000000)); [lia |].
  destruct (Z.ltb_spec (now - d) (60 * 60 * 1000000)); [lia |].
  destruct (Z.ltb_spec (now - d) (60 * 60 * 24 * 1000000)); [lia |].
  reflexivity.
Qed.

Lemma format_datetime_days d :
  86400000000 <= now - d < 30 * 86400000000 ->
  fmt d = format_ago ((now - d) / 86400000000)
            (if (now - d) / 86400000000 =? 1 then "day" else "days").
Proof.
  intros H. rewrite format_datetime_old by lia.
  assert ((now - d) / 86400000000 < 30)
    by (apply Z.div_lt_upper_bound; lia).
  destruct (Z.ltb_spec ((now - d) / 86400000000) 30); [reflexivity | lia].
Qed.

Lemma format_datetime_date d :
  30 * 86400000000 <= now - d -> fmt d = str_date d.
Proof.
  intros H. rewrite format_datetime_old by lia.
  assert (30 <= (now - d) / 86400000000)
    by (apply Z.div_le_lower_bound; lia).
  destruct (Z.ltb_spec ((now - d) / 86400000000) 30); [lia | reflexivity].
Qed.

End FormatDatetimeFacts.

(** C3, as the specification states it, fails on the text: one minute
    after [d] the result is [" 1 minute ago"], the amount being
    right-aligned in a field of two characters, and not
    ["1 minute ago"]. *)
Lemma format_datetime_counterexample :
  format_datetime 60000000 (fun _ => "2018-04-26") 0 = " 1 minute ago" /\
  format_datetime 60000000 (fun _ => "2018-04-26") 0 <> "1 minute ago".
Proof. split; [reflexivity | vm_compute; congruence]. Qed.

(** C3, amended. For a datetime [d] that is [us] microseconds in the past,
    [format_datetime d] is ["just now"] under a minute; under an hour,
    a day, and thirty days it is the whole number [N] of minutes, hours
    and days, right-aligned in a field of two characters, followed by the
    unit, in the singular exactly when [N] is 1, and by ["ago"]; from
    thirty days on it is the calendar date of [d].  So 59 s gives
    ["just now"], 60 s [" 1 minute ago"], 61 min [" 1 hour ago"], 25 h
    [" 1 day ago"], and 31 days the date. *)
Theorem format_datetime_past (now : datetime) (str_date : datetime -> string)
    (d : datetime) :
  let us := now - d in
  let ago (n : Z) (unit : string) : string :=
    rjust 2 (str_of_int n) +:+ " " +:+
    (if n =? 1 then unit else unit +:+ "s") +:+ " ago" in
  0 <= us ->
  (us < 60 * 10 ^ 6 -> format_datetime now str_date d = "just now") /\
  (60 * 10 ^ 6 <= us < 3600 * 10 ^ 6 ->
     format_datetime now str_date d = ago (us / (60 * 10 ^ 6)) "minute") /\
  (3600 * 10 ^ 6 <= us < 86400 * 10 ^ 6 ->
     format_datetime now str_date d = ago (us / (3600 * 10 ^ 6)) "hour") /\
  (86400 * 10 ^ 6 <= us < 30 * (86400 * 10 ^ 6) ->
     format_datetime now str_date d = ago (us / (86400 * 10 ^ 6)) "day") /\
  (30 * (86400 * 10 ^ 6) <= us ->
     format_datetime now str_date d = str_date d) /\
  (us = 59 * 10 ^ 6 -> format_datetime now str_date d = "just now") /\
  (us = 60 * 10 ^ 6 -> format_datetime now str_date d = " 1 minute ago") /\
  (us = 61 * 60 * 10 ^ 6 -> format_datetime now str_date d = " 1 hour ago") /\
  (us = 25 * 3600 * 10 ^ 6 -> format_datetime now str_date d = " 1 day ago") /\
  (us = 31 * 86400 * 10 ^ 6 -> format_datetime now str_date d = str_date d).
Proof.
  intros us ago Hpast. subst us ago.
  change (60 * 10 ^ 6) with 60000000.
  change (3600 * 10 ^ 6) with 3600000000.
  change (86400 * 10 ^ 6) with 86400000000.
  repeat split.
  - apply format_datetime_just_now.
  - intros H. rewrite format_datetime_minutes by lia.
    unfold format_ago. now destruct (_ =? 1).
  - intros H. rewrite format_datetime_hours by lia.
    unfold format_ago. now destruct (_ =? 1).
  - intros H. rewrite format_datetime_days by lia.
    unfold format_ago. now destruct (_ =? 1).
  - intros H. apply format_datetime_date. lia.
  - intros H. apply format_datetime_just_now. rewrite H. reflexivity.
  - intros H. rewrite format_datetime_minutes by (rewrite H; vm_compute; intuition congruence).
    rewrite H. reflexivity.
  - intros H. rewrite format_datetime_hours by (rewrite H; vm_compute; intuition congruence).
    rewrite H. reflexivity.
  - intros H. rewrite format_datetime_days by (rewrite H; vm_compute; intuition congruence).
    rewrite H. reflexivity.
  - intros H. apply format_datetime_date. rewrite H. vm_compute. congruence.
Qed.

Lemma format_datetime_past_witness :
  format_datetime 1525132800000000 (fun _ => "2018-04-30") 1525125600000000
    = " 2 hours ago".
Proof.
  pose proof (format_datetime_past 1525132800000000 (fun _ => "2018-04-30")
                1525125600000000) as H.
  simpl in H.
  destruct H as (_ & _ & H & _); [lia |].
  rewrite H by lia. reflexivity.
Defined.

(** ** The seed manifest and the rows of the main screen *)

Lemma get_seed_yaml_missing controller open_read s0 :
  dry_run controller = false ->
  sources controller = [s0] ->
  String.prefix "cp://" s0 = true ->
  open_read
    (os_path_join (String.substring 5 (String.length s0 - 5) s0)
       "var/lib/snapd/seed/seed.yaml") = Raise FileNotFoundError ->
  get_seed_yaml controller open_read = Raise (UnboundLocalError "fp").
Proof.
  intros Hdry Hsrc Hpre Hopen. unfold get_seed_yaml.
  rewrite Hdry, Hsrc, Hpre. simpl. rewrite Hopen. reflexivity.
Qed.

Lemma get_preinstalled_snaps_raises controller open_read yaml_load x :
  get_seed_yaml controller open_read = Raise (UnboundLocalError x) ->
  get_preinstalled_snaps controller open_read yaml_load
    = Raise (UnboundLocalError x).
Proof. intros H. unfold get_preinstalled_snaps. rewrite H. reflexivity. Qed.

Lemma make_main_screen_raises controller open_read yaml_load e snap_list v :
  get_preinstalled_snaps controller open_read yaml_load = Raise e ->
  make_main_screen controller open_read yaml_load snap_list v
    = (Raise e, with_snap_boxes (fun _ => ∅) v).
Proof.
  intros H. unfold make_main_screen, mbind, M_bind, lift, modify.
  rewrite H. reflexivity.
Qed.

Lemma load_callback_prefix controller open_read yaml_load frame fr snap_list
    v :
  load_frames v !! frame = Some fr ->
  load_callback controller open_read yaml_load frame snap_list v =
  show_list controller open_read yaml_load snap_list
    (with_trace (fun t => t ++ stop_events (lf_spinner fr))
       (with_load_frames (alter set_lf_called frame) v)).
Proof.
  intros Hfr. unfold load_callback.
  rewrite run_bind, run_modify.
  erewrite run_bind_ok; cycle 1.
  { apply run_deref. cbn. rewrite list_lookup_alter_eq, Hfr. reflexivity. }
  cbn [lf_spinner set_lf_called]. rewrite run_bind.
  destruct (lf_spinner fr) as [spinner |].
  - unfold Spinner_stop. rewrite run_emit. reflexivity.
  - rewrite run_ret. cbn [stop_events].
    replace (with_trace (fun t => t ++ []) _)
      with (with_load_frames (alter set_lf_called frame) v); [reflexivity |].
    destruct v; unfold with_trace, with_load_frames; cbn.
    rewrite app_nil_r. reflexivity.
Qed.

Lemma load_callback_raises controller open_read yaml_load e frame fr
    snap_list v :
  load_frames v !! frame = Some fr ->
  snap_list <> [] ->
  get_preinstalled_snaps controller open_read yaml_load = Raise e ->
  eval (load_callback controller open_read yaml_load frame snap_list) v
    = Raise e /\
  main_screen
    (exec (load_callback controller open_read yaml_load frame snap_list) v)
    = main_screen v.
Proof.
  intros Hfr Hne H. unfold eval, exec.
  rewrite (load_callback_prefix _ _ _ _ _ _ _ Hfr). unfold show_list.
  assert (Hlen : Nat.eqb (length snap_list) 0 = false)
    by (destruct snap_list; [congruence | reflexivity]).
  rewrite Hlen.
  erewrite run_bind_raise by (apply make_main_screen_raises, H).
  split; reflexivity.
Qed.

(** C4. With the install source [cp:///media/filesystem], no dry run and
    no seed file there, [get_seed_yaml] handles [FileNotFoundError] and
    then reads the variable [fp] that was not assigned: the
    [UnboundLocalError] is not a [YAMLError], so it leaves
    [get_preinstalled_snaps], [make_main_screen] and the callback of
    [load]; no empty set is returned and no main screen is built. *)
Theorem missing_seed_file_raises (yaml_load : string -> result yaml)
    (snap : Snap) (snap_list : list Snap) :
  let controller :=
    {| sources := ["cp:///media/filesystem"]; dry_run := false |} in
  let open_read (path : string) : result string := Raise FileNotFoundError in
  let v := exec (load controller open_read yaml_load Async) new_view in
  get_preinstalled_snaps controller open_read yaml_load
    = Raise (UnboundLocalError "fp")
  /\ eval (load_callback controller open_read yaml_load 0 (snap :: snap_list)) v
    = Raise (UnboundLocalError "fp")
  /\ main_screen
       (exec (load_callback controller open_read yaml_load 0 (snap :: snap_list)) v)
    = None.
Proof.
  intros controller open_read v.
  assert (H : get_preinstalled_snaps controller open_read yaml_load
              = Raise (UnboundLocalError "fp")).
  { apply get_preinstalled_snaps_raises.
    now apply (get_seed_yaml_missing controller open_read
                 "cp:///media/filesystem"). }
  split; [exact H |].
  apply (load_callback_raises controller open_read yaml_load _ 0
           {| lf_spinner := Some 0%nat; lf_called := false |}
           (snap :: snap_list) v); [reflexivity | congruence | exact H].
Qed.

Lemma make_rows_spec pre snap_list :
  forall body v, exists v',
    make_rows pre snap_list body v
      = (Ok (body ++ rows_of (length (boxes v)) (offered pre snap_list)), v') /\
    boxes v' = boxes v ++ (new_box <$> offered pre snap_list) /\
    (forall n i, snap_boxes v' !! n = Some i ->
       snap_boxes v !! n = Some i \/
       exists k s, offered pre snap_list !! k = Some s /\ name s = n /\
                   i = (length (boxes v) + k)%nat) /\
    main_screen v' = main_screen v /\ screens v' = screens v /\
    same_screen v v'.
Proof.
  induction snap_list as [| snap snap_list IH]; intros body v.
  - exists v. cbn. rewrite !app_nil_r. unfold same_screen. naive_solver.
  - cbn [make_rows]. unfold offered. rewrite filter_cons.
    destruct (decide (KStr (name snap) ∉ pre)) as [Hout | Hin].
    + rewrite bool_decide_eq_false_2 by assumption.
      set (v1 := with_snap_boxes <[name snap := length (boxes v)]>
                   (with_boxes (fun l => l ++ [new_box snap]) v)).
      destruct (IH (body ++ [{| row_box := length (boxes v);
                                row_publisher := publisher snap;
                                row_verified := verified snap;
                                row_summary := summary snap |}]) v1)
        as (v' & Hrun & Hboxes & Hsb & Hmain & Hscr & Hsame).
      exists v'. split; [| split; [| split; [| split; [| split]]]].
      * change (make_rows pre snap_list
                  (body ++ [{| row_box := length (boxes v);
                               row_publisher := publisher snap;
                               row_verified := verified snap;
                               row_summary := summary snap |}]) v1
                = (Ok (body ++ rows_of (length (boxes v))
                         (snap :: offered pre snap_list)), v')).
        rewrite Hrun. cbn [rows_of]. rewrite <- app_assoc.
        subst v1. cbn [boxes with_snap_boxes with_boxes].
        rewrite length_app, Nat.add_1_r. reflexivity.
      * rewrite Hboxes. subst v1.
        cbn [snap_boxes with_snap_boxes with_boxes boxes].
        rewrite <- app_assoc. reflexivity.
      * intros n i Hi. destruct (Hsb n i Hi) as [Hold | (k & s & Hk & Hn & Hik)].
        -- subst v1. cbn [snap_boxes with_snap_boxes with_boxes boxes] in Hold.
           destruct (decide (name snap = n)) as [Heq | Hne].
           ++ subst n. rewrite lookup_insert_eq in Hold. injection Hold as <-.
              right. exists 0%nat, snap. rewrite Nat.add_0_r. auto.
           ++ rewrite lookup_insert_ne in Hold by assumption. auto.
        -- right. exists (S k), s. subst v1.
           cbn [snap_boxes with_snap_boxes with_boxes boxes] in Hik.
           rewrite length_app in Hik. cbn [length] in Hik.
           split; [exact Hk | split; [exact Hn | lia]].
      * rewrite Hmain. reflexivity.
      * rewrite Hscr. reflexivity.
      * unfold same_screen in *. subst v1. cbn in Hsame. exact Hsame.
    + assert (Hin' : KStr (name snap) ∈ pre) by (destruct (decide (KStr (name snap) ∈ pre)); tauto).
      rewrite bool_decide_eq_true_2 by assumption.
      apply IH.
Qed.

Lemma displayed_rows_of (snaps : list Snap) :
  forall (old rest : list SnapCheckBox),
  omap (fun r => cb_snap <$> (old ++ (new_box <$> snaps) ++ rest) !! row_box r)
       (rows_of (length old) snaps) = snaps.
Proof.
  induction snaps as [| s snaps IH]; intros old rest; [reflexivity |].
  cbn [rows_of omap list_omap row_box].
  rewrite fmap_cons.
  assert (Hhere : (old ++ (new_box s :: (new_box <$> snaps)) ++ rest)
                    !! length old = Some (new_box s)).
  { rewrite lookup_app_r by lia. rewrite Nat.sub_diag. reflexivity. }
  rewrite Hhere. cbn [fmap option_fmap option_map new_box cb_snap].
  f_equal.
  specialize (IH (old ++ [new_box s]) rest).
  rewrite length_app, Nat.add_1_r, <- app_assoc in IH. exact IH.
Qed.

Lemma make_main_screen_spec controller open_read yaml_load pre snap_list v :
  get_preinstalled_snaps controller open_read yaml_load = Ok pre ->
  exists v',
    make_main_screen controller open_read yaml_load snap_list v = (Ok tt, v') /\
    boxes v' = boxes v ++ (new_box <$> offered pre snap_list) /\
    main_screen v' =
      Some (MainScreen (screens v)
              (rows_of (length (boxes v)) (offered pre snap_list))) /\
    (forall n i, snap_boxes v' !! n = Some i ->
       exists k s, offered pre snap_list !! k = Some s /\ name s = n /\
                   i = (length (boxes v) + k)%nat) /\
    screens v' = S (screens v) /\
    same_screen v v'.
Proof.
  intros Hpre. unfold make_main_screen.
  rewrite run_bind, run_modify. unfold lift at 1. rewrite run_bind, Hpre.
  destruct (make_rows_spec pre snap_list [] (with_snap_boxes (fun _ => ∅) v))
    as (v1 & Hrun & Hboxes & Hsb & Hmain & Hscr & Hsame).
  rewrite (run_bind_ok _ _ _ _ _ Hrun).
  rewrite run_bind, run_get, run_bind, run_modify, run_modify.
  eexists. split; [reflexivity |].
  cbn [boxes main_screen snap_boxes screens with_screens with_main_screen].
  cbn [boxes with_snap_boxes] in Hboxes, Hrun.
  split; [exact Hboxes |]. split; [now rewrite Hscr |].
  split.
  - intros n i Hi. destruct (Hsb n i Hi) as [Hold | Hnew]; [| exact Hnew].
    cbn [snap_boxes with_snap_boxes] in Hold.
    rewrite lookup_empty in Hold. discriminate.
  - split; [now rewrite Hscr |]. exact Hsame.
Qed.

Lemma displayed_make_main_screen controller open_read yaml_load pre snap_list v :
  get_preinstalled_snaps controller open_read yaml_load = Ok pre ->
  eval (make_main_screen controller open_read yaml_load snap_list) v = Ok tt /\
  displayed (exec (make_main_screen controller open_read yaml_load snap_list) v)
    = offered pre snap_list.
Proof.
  intros Hpre.
  destruct (make_main_screen_spec controller open_read yaml_load pre snap_list
              v Hpre) as (v' & Hrun & Hboxes & Hmain & _).
  unfold eval, exec. rewrite Hrun. split; [reflexivity |].
  cbn [snd]. unfold displayed. rewrite Hmain, Hboxes.
  rewrite <- (app_nil_r (new_box <$> offered pre snap_list)).
  apply displayed_rows_of.
Qed.

Lemma load_callback_builds controller open_read yaml_load pre frame fr
    snap_list v :
  load_frames v !! frame = Some fr ->
  snap_list <> [] ->
  get_preinstalled_snaps controller open_read yaml_load = Ok pre ->
  exists v',
    load_callback controller open_read yaml_load frame snap_list v
      = (Ok tt, v') /\
    w v' = main_screen v' /\
    main_screen v' =
      Some (MainScreen (screens v)
              (rows_of (length (boxes v)) (offered pre snap_list))) /\
    boxes v' = boxes v ++ (new_box <$> offered pre snap_list) /\
    (forall n i, snap_boxes v' !! n = Some i ->
       exists k s, offered pre snap_list !! k = Some s /\ name s = n /\
                   i = (length (boxes v) + k)%nat) /\
    to_install v' = to_install v /\
    dialogs v' = dialogs v /\
    info_frames v' = info_frames v /\
    load_frames v' = alter set_lf_called frame (load_frames v) /\
    trace v' = trace v ++ stop_events (lf_spinner fr)
                 ++ [SetHeader (ScreenTitle title)].
Proof.
  intros Hfr Hne Hpre.
  rewrite (load_callback_prefix _ _ _ _ _ _ _ Hfr). unfold show_list.
  assert (Hlen : Nat.eqb (length snap_list) 0 = false)
    by (destruct snap_list; [congruence | reflexivity]).
  rewrite Hlen.
  set (v0 := with_trace _ _).
  destruct (make_main_screen_spec controller open_read yaml_load pre snap_list
              v0 Hpre)
    as (v1 & Hrun & Hboxes & Hmain & Hsb & Hscr & Hsame).
  destruct Hsame as (Hti & Hw & Hdlg & Hlf & Hif & Hsp & Htr).
  rewrite (run_bind_ok _ _ _ _ _ Hrun).
  unfold show_main_screen. rewrite run_bind, run_emit, run_bind, run_get.
  cbn [main_screen with_trace]. rewrite Hmain. rewrite run_modify.
  eexists. split; [reflexivity |].
  cbn [w main_screen boxes snap_boxes to_install dialogs info_frames
       load_frames trace with_w with_trace].
  subst v0.
  cbn [w main_screen boxes snap_boxes to_install dialogs info_frames
       load_frames trace screens with_load_frames with_trace] in *.
  rewrite Hmain, Hboxes, Hti, Hdlg, Hlf, Hif, Htr, <- app_assoc.
  repeat split; try reflexivity. exact Hsb.
Qed.

Lemma get_preinstalled_snaps_parse_failure controller open_read yaml_load text :
  get_seed_yaml controller open_read = Ok text ->
  yaml_load text = Raise YAMLError ->
  get_preinstalled_snaps controller open_read yaml_load = Ok ∅.
Proof.
  intros Hseed Hload. unfold get_preinstalled_snaps.
  rewrite Hseed. cbn. rewrite Hload. reflexivity.
Qed.

Lemma offered_empty snap_list : offered ∅ snap_list = snap_list.
Proof.
  unfold offered. induction snap_list as [| s l IH]; [reflexivity |].
  rewrite filter_cons_True by set_solver. now rewrite IH.
Qed.

Lemma offered_ABC (a b c : Snap) :
  name a = "A" -> name b = "B" -> name c = "C" ->
  offered {[ KStr "B" ]} [a; b; c] = [a; c].
Proof.
  intros Ha Hb Hc. unfold offered.
  rewrite filter_cons_True by (rewrite Ha; set_solver).
  rewrite filter_cons_False by (rewrite Hb; set_solver).
  rewrite filter_cons_True by (rewrite Hc; set_solver).
  reflexivity.
Qed.

(** C7. The callback of [load], given a fetched list that is not empty,
    builds the main screen and shows it, and its rows are, in the order of
    the list, the snaps whose name is not in the set that
    [get_preinstalled_snaps] returns: names A, B, C and the set {B} give
    the rows A, C.  When the seed manifest is read and [yaml.load] raises
    [YAMLError], that set is empty and every snap of the list has its
    row. *)
Theorem preinstalled_snaps_not_offered (controller : Controller)
    (open_read : string -> result string) (yaml_load : string -> result yaml)
    (frame : nat) (fr : load_frame) (snap_list : list Snap) (v : View) :
  load_frames v !! frame = Some fr ->
  snap_list <> [] ->
  let v' :=
    exec (load_callback controller open_read yaml_load frame snap_list) v in
  (forall pre : gset key,
     get_preinstalled_snaps controller open_read yaml_load = Ok pre ->
     w v' = main_screen v' /\
     displayed v' = offered pre snap_list /\
     (forall snap, snap ∈ displayed v' <->
                   snap ∈ snap_list /\ KStr (name snap) ∉ pre) /\
     (pre = {[ KStr "B" ]} -> name <$> snap_list = ["A"; "B"; "C"] ->
      name <$> displayed v' = ["A"; "C"])) /\
  (forall text : string,
     get_seed_yaml controller open_read = Ok text ->
     yaml_load text = Raise YAMLError ->
     get_preinstalled_snaps controller open_read yaml_load = Ok ∅ /\
     w v' = main_screen v' /\
     displayed v' = snap_list).
Proof.
  intros Hfr Hne v'.
  assert (Hshown : forall pre,
            get_preinstalled_snaps controller open_read yaml_load = Ok pre ->
            w v' = main_screen v' /\ displayed v' = offered pre snap_list).
  { intros pre Hpre.
    destruct (load_callback_builds controller open_read yaml_load pre frame fr
                snap_list v Hfr Hne Hpre)
      as (v1 & Hrun & Hw & Hmain & Hboxes & _).
    subst v'. unfold exec. rewrite Hrun. cbn [snd].
    split; [exact Hw |].
    unfold displayed. rewrite Hmain, Hboxes.
    rewrite <- (app_nil_r (new_box <$> offered pre snap_list)).
    apply displayed_rows_of. }
  split.
  - intros pre Hpre. destruct (Hshown pre Hpre) as [Hw Hd].
    split; [exact Hw |]. split; [exact Hd |]. split.
    + intros snap. rewrite Hd. unfold offered. rewrite list_elem_of_filter.
      tauto.
    + intros -> Hnames. rewrite Hd.
      destruct snap_list as [| a [| b [| c [| ? ?]]]]; try discriminate.
      injection Hnames as Ha Hb Hc.
      rewrite (offered_ABC a b c Ha Hb Hc). cbn. now rewrite Ha, Hc.
  - intros text Hseed Hload.
    pose proof (get_preinstalled_snaps_parse_failure _ _ _ _ Hseed Hload)
      as Hpre.
    destruct (Hshown ∅ Hpre) as [Hw Hd].
    split; [exact Hpre |]. split; [exact Hw |].
    rewrite Hd. apply offered_empty.
Qed.

Lemma preinstalled_snaps_not_offered_witness :
  let controller := {| sources := ["cp:///media/filesystem"]; dry_run := true |} in
  let open_read (path : string) : result string := Raise FileNotFoundError in
  let yaml_load (text : string) : result yaml :=
    Ok (YDict [("snaps", YList [YDict [("name", YStr "B")]])]) in
  let snap (n : string) : Snap :=
    {| name := n; summary := ""; publisher := "Canonical"; description := "";
       verified := true; confinement := "strict"; license := "";
       channels := [] |} in
  let v := exec (load controller open_read yaml_load Async) new_view in
  name <$> displayed
    (exec (load_callback controller open_read yaml_load 0
             [snap "A"; snap "B"; snap "C"]) v) = ["A"; "C"].
Proof.
  intros controller open_read yaml_load snap v.
  destruct (preinstalled_snaps_not_offered controller open_read yaml_load 0
              {| lf_spinner := Some 0%nat; lf_called := false |}
              [snap "A"; snap "B"; snap "C"] v) as [H _].
  - reflexivity.
  - discriminate.
  - destruct (H {[ KStr "B" ]}) as (_ & _ & _ & Hex).
    + vm_compute. reflexivity.
    + apply Hex; reflexivity.
Defined.


(** ** The dialogs *)

Lemma FetchingInfo_close_closed (v : View) (d spinner width : nat) :
  dialogs v !! d = Some (FetchingInfo true spinner width) ->
  FetchingInfo_close d v = (Ok tt, v).
Proof.
  intros Hd. unfold FetchingInfo_close.
  rewrite (run_bind_ok _ _ _ _ _ (run_deref dialogs d _ v Hd)). reflexivity.
Qed.

Lemma FetchingInfo_close_open (v : View) (d spinner width : nat) :
  dialogs v !! d = Some (FetchingInfo false spinner width) ->
  FetchingInfo_close d v =
  (Ok tt,
   with_w (fun cur => match cur with
                      | Some (Overlay _ _ bottom) => Some bottom
                      | _ => cur
                      end)
     (with_trace (fun t => t ++ [RemoveOverlay])
        (with_trace (fun t => t ++ [SpinnerStop spinner])
           (with_dialogs <[d := FetchingInfo true spinner width]> v)))).
Proof.
  intros Hd. unfold FetchingInfo_close.
  rewrite (run_bind_ok _ _ _ _ _ (run_deref dialogs d _ v Hd)). reflexivity.
Qed.

Lemma FetchingFailed_close_closed (v : View) (d row width : nat) :
  dialogs v !! d = Some (FetchingFailed true row width) ->
  FetchingFailed_close d v = (Ok tt, v).
Proof.
  intros Hd. unfold FetchingFailed_close.
  rewrite (run_bind_ok _ _ _ _ _ (run_deref dialogs d _ v Hd)). reflexivity.
Qed.

Lemma FetchingFailed_close_open (v : View) (d row width : nat) :
  dialogs v !! d = Some (FetchingFailed false row width) ->
  FetchingFailed_close d v =
  (Ok tt,
   with_w (fun cur => match cur with
                      | Some (Overlay _ _ bottom) => Some bottom
                      | _ => cur
                      end)
     (with_trace (fun t => t ++ [RemoveOverlay])
        (with_dialogs <[d := FetchingFailed true row width]> v))).
Proof.
  intros Hd. unfold FetchingFailed_close.
  rewrite (run_bind_ok _ _ _ _ _ (run_deref dialogs d _ v Hd)). reflexivity.
Qed.

Lemma iter_fixed {A} (f : A -> A) (a : A) (n : nat) :
  f a = a -> Nat.iter n f a = a.
Proof.
  intros H. induction n as [| n IH]; [reflexivity |].
  change (f (Nat.iter n f a) = a). now rewrite IH.
Qed.

(** C9. The first [close] of a [FetchingInfo] dialog stops its spinner
    and removes the overlay, once each, and the first [close] of a
    [FetchingFailed] dialog, which has no spinner, removes the overlay
    once; the dialog is then closed, and [close] on a closed dialog
    returns at once: it changes nothing and calls nothing, however many
    times it is called. *)
Theorem close_idempotent (v : View) (d : nat) :
  (forall spinner width,
     dialogs v !! d = Some (FetchingInfo false spinner width) ->
     let v1 := exec (FetchingInfo_close d) v in
     eval (FetchingInfo_close d) v = Ok tt /\
     trace v1 = trace v ++ [SpinnerStop spinner; RemoveOverlay] /\
     (forall top_width bottom,
        w v = Some (Overlay d top_width bottom) -> w v1 = Some bottom) /\
     dialogs v1 !! d = Some (FetchingInfo true spinner width) /\
     FetchingInfo_close d v1 = (Ok tt, v1) /\
     forall n, Nat.iter n (exec (FetchingInfo_close d)) v1 = v1) /\
  (forall row width,
     dialogs v !! d = Some (FetchingFailed false row width) ->
     let v1 := exec (FetchingFailed_close d) v in
     eval (FetchingFailed_close d) v = Ok tt /\
     trace v1 = trace v ++ [RemoveOverlay] /\
     (forall top_width bottom,
        w v = Some (Overlay d top_width bottom) -> w v1 = Some bottom) /\
     dialogs v1 !! d = Some (FetchingFailed true row width) /\
     FetchingFailed_close d v1 = (Ok tt, v1) /\
     forall n, Nat.iter n (exec (FetchingFailed_close d)) v1 = v1).
Proof.
  split.
  - intros spinner width Hd v1. subst v1. unfold eval, exec.
    rewrite (FetchingInfo_close_open v d spinner width Hd). cbn [fst snd].
    set (v1 := with_w _ _).
    assert (Hd1 : dialogs v1 !! d = Some (FetchingInfo true spinner width)).
    { subst v1. cbn. apply list_lookup_insert_eq.
      apply lookup_lt_Some in Hd. exact Hd. }
    pose proof (FetchingInfo_close_closed v1 d spinner width Hd1) as Hno.
    split; [reflexivity |].
    split; [subst v1; cbn; now rewrite <- app_assoc |].
    split; [intros tw bottom Hw; subst v1; cbn; now rewrite Hw |].
    split; [exact Hd1 |]. split; [exact Hno |].
    intros n. apply iter_fixed. unfold exec. now rewrite Hno.
  - intros row width Hd v1. subst v1. unfold eval, exec.
    rewrite (FetchingFailed_close_open v d row width Hd). cbn [fst snd].
    set (v1 := with_w _ _).
    assert (Hd1 : dialogs v1 !! d = Some (FetchingFailed true row width)).
    { subst v1. cbn. apply list_lookup_insert_eq.
      apply lookup_lt_Some in Hd. exact Hd. }
    pose proof (FetchingFailed_close_closed v1 d row width Hd1) as Hno.
    split; [reflexivity |].
    split; [subst v1; cbn; reflexivity |].
    split; [intros tw bottom Hw; subst v1; cbn; now rewrite Hw |].
    split; [exact Hd1 |]. split; [exact Hno |].
    intros n. apply iter_fixed. unfold exec. now rewrite Hno.
Qed.

Lemma close_idempotent_witness :
  let v := Session.fetching in
  trace (exec (FetchingInfo_close 0) v)
    = trace v ++ [SpinnerStop 0; RemoveOverlay] /\
  w (exec (FetchingInfo_close 0) v) = w Session.main /\
  Nat.iter 3 (exec (FetchingInfo_close 0)) (exec (FetchingInfo_close 0) v)
    = exec (FetchingInfo_close 0) v.
Proof.
  intros v.
  destruct (close_idempotent v 0) as [H _].
  destruct (H 0%nat 23%nat) as (_ & Htrace & Hw & _ & _ & Hiter);
    [reflexivity |].
  split; [exact Htrace |]. split; [| apply Hiter].
  apply (Hw 23%nat). reflexivity.
Defined.

(** ** Fetching the information of a snap *)

Ltac run :=
  repeat (progress (unfold mbind, M_bind, mret, M_ret, get, emit, modify,
                      raise, lift);
          cbn beta iota).

Lemma lookup_snoc {A} (l : list A) (x : A) : (l ++ [x]) !! length l = Some x.
Proof. rewrite lookup_app_r by lia. now rewrite Nat.sub_diag. Qed.

Lemma show_info_failed (v : View) (row : nat) (box : SnapCheckBox)
    (cur : widget) :
  boxes v !! row = Some box ->
  channels (cb_snap box) = [] ->
  w v = Some cur ->
  show_info row v =
  (Ok tt,
   with_w (fun _ => Some (Overlay (length (dialogs v))
                            (failed_width (cb_snap box)) cur))
     (with_trace (fun t => t ++ [ShowOverlay (length (dialogs v))
                                   (failed_width (cb_snap box))])
        (with_dialogs (fun l => l ++ [FetchingFailed false row
                                        (failed_width (cb_snap box))]) v))).
Proof.
  intros Hbox Hch Hw. unfold show_info.
  rewrite (run_bind_ok _ _ _ _ _ (run_deref boxes row _ v Hbox)).
  rewrite Hch. cbn [length Nat.eqb].
  unfold FetchingFailed_init, new_dialog, show_overlay. run.
  unfold deref. cbn [dialogs with_dialogs]. rewrite lookup_snoc.
  cbn [w with_trace with_dialogs dialog_width]. rewrite Hw. reflexivity.
Qed.

Lemma show_info_detail (v : View) (row : nat) (box : SnapCheckBox) :
  boxes v !! row = Some box ->
  channels (cb_snap box) <> [] ->
  show_info row v =
  (Ok tt,
   with_w (fun _ => Some (DetailScreen (detail_of v (cb_snap box))))
     (with_trace (fun t => t ++ [SetHeader (SnapTitle (name (cb_snap box))
                                   (publisher (cb_snap box))
                                   (verified (cb_snap box)))]) v)).
Proof.
  intros Hbox Hch. unfold show_info.
  rewrite (run_bind_ok _ _ _ _ _ (run_deref boxes row _ v Hbox)).
  destruct (channels (cb_snap box)) as [| c cs] eqn:E; [congruence |].
  cbn [length Nat.eqb]. reflexivity.
Qed.

Lemma load_info_callback_prefix (v : View) (frame : nat) (fr : info_frame) :
  info_frames v !! frame = Some fr ->
  load_info_callback frame v =
  (close_fetching (if_fi fr);; show_info (if_self fr))
    (with_info_frames (alter set_if_called frame) v).
Proof.
  intros Hfr. unfold load_info_callback.
  rewrite run_bind, run_modify.
  erewrite run_bind_ok; cycle 1.
  { apply run_deref. cbn [info_frames with_info_frames].
    rewrite list_lookup_alter_eq, Hfr. reflexivity. }
  reflexivity.
Qed.

Lemma info_ready_prefix (v : View) (frame : nat) (fr : info_frame)
    (chans : list ChannelSnapInfo) :
  info_frames v !! frame = Some fr ->
  info_ready frame chans v =
  (close_fetching (if_fi fr);; show_info (if_self fr))
    (with_info_frames (alter set_if_called frame)
       (with_boxes (alter (store_channels chans) (if_self fr)) v)).
Proof.
  intros Hfr. unfold info_ready.
  rewrite (run_bind_ok _ _ _ _ _ (run_deref info_frames frame _ v Hfr)).
  rewrite run_bind, run_modify.
  now apply load_info_callback_prefix.
Qed.

(** ** Stable methods *)

Section Stable.

Variable R : View -> View -> Prop.
Hypothesis R_refl : forall v, R v v.
Hypothesis R_trans : forall v1 v2 v3, R v1 v2 -> R v2 v3 -> R v1 v3.

Lemma stable_ret {A} (a : A) : stable R (mret a).
Proof. intros v. apply R_refl. Qed.

Lemma stable_get : stable R get.
Proof. intros v. apply R_refl. Qed.

Lemma stable_raise {A} (e : exn) : stable R (raise (A := A) e).
Proof. intros v. apply R_refl. Qed.

Lemma stable_lift {A} (r : result A) : stable R (lift r).
Proof. intros v. apply R_refl. Qed.

Lemma stable_deref {A} (store : View -> list A) (i : nat) :
  stable R (deref store i).
Proof. intros v. unfold exec, deref. destruct (store v !! i); apply R_refl. Qed.

Lemma stable_modify (f : View -> View) :
  (forall v, R v (f v)) -> stable R (modify f).
Proof. intros H v. apply H. Qed.

Lemma stable_bind {A B} (m : M A) (k : A -> M B) :
  stable R m -> (forall a, stable R (k a)) -> stable R (m ≫= k).
Proof.
  intros Hm Hk v. specialize (Hm v). unfold exec in *.
  rewrite run_bind. destruct (m v) as [[a | e] v1]; cbn [snd] in *.
  - eapply R_trans; [exact Hm | apply Hk].
  - exact Hm.
Qed.

Lemma stable_for_each {A} (l : list A) (body : A -> M unit) :
  (forall x, stable R (body x)) -> stable R (for_each l body).
Proof.
  intros H. induction l as [| x l IH]; cbn [for_each].
  - apply stable_ret.
  - apply stable_bind; [apply H | intros _; exact IH].
Qed.

End Stable.

Lemma keeps_refl (P : View -> Prop) v : keeps P v v.
Proof. unfold keeps. auto. Qed.

Lemma keeps_trans (P : View -> Prop) v1 v2 v3 :
  keeps P v1 v2 -> keeps P v2 v3 -> keeps P v1 v3.
Proof. unfold keeps. auto. Qed.

Lemma same_refl {B} (part : View -> B) v : same part v v.
Proof. reflexivity. Qed.

Lemma same_trans {B} (part : View -> B) v1 v2 v3 :
  same part v1 v2 -> same part v2 v3 -> same part v1 v3.
Proof. unfold same. congruence. Qed.

Lemma starts_no_spinner_refl v : starts_no_spinner v v.
Proof.
  exists []. rewrite app_nil_r. split; [reflexivity |].
  intros s Hs. inversion Hs.
Qed.

Lemma starts_no_spinner_trans v1 v2 v3 :
  starts_no_spinner v1 v2 -> starts_no_spinner v2 v3 ->
  starts_no_spinner v1 v3.
Proof.
  intros (e1 & H1 & N1) (e2 & H2 & N2). exists (e1 ++ e2).
  rewrite H2, H1, app_assoc. split; [reflexivity |].
  intros s Hs. apply elem_of_app in Hs as [Hs | Hs]; [eapply N1 | eapply N2]; eauto.
Qed.

Create HintDb stable.

#[local] Hint Resolve keeps_refl keeps_trans same_refl same_trans
  starts_no_spinner_refl starts_no_spinner_trans : stable.

(** The rules above, applied along the text of a method; what is left
    are its assignments. *)
Ltac stable_step :=
  match goal with
  | |- stable _ (mbind _ _) =>
      apply stable_bind; [solve [eauto with stable] | | intros ?]
  | |- stable _ (mret _) => apply stable_ret; solve [eauto with stable]
  | |- stable _ get => apply stable_get; solve [eauto with stable]
  | |- stable _ (raise _) => apply stable_raise; solve [eauto with stable]
  | |- stable _ (lift _) => apply stable_lift; solve [eauto with stable]
  | |- stable _ (deref _ _) => apply stable_deref; solve [eauto with stable]
  | |- stable _ (for_each _ _) =>
      apply stable_for_each;
      [solve [eauto with stable] | solve [eauto with stable] | intros ?]
  | |- stable _ (match ?x with _ => _ end) => destruct x
  | |- stable _ (modify _) => apply stable_modify; intros ?
  | |- stable _ (emit _) => apply stable_modify; intros ?
  end.


Lemma quiet_same_trace v v' : trace v' = trace v -> starts_no_spinner v v'.
Proof.
  intros H. exists []. rewrite app_nil_r. split; [exact H |].
  intros s Hs. inversion Hs.
Qed.

Lemma quiet_emit v e :
  (forall s, e <> SpinnerStart s) ->
  starts_no_spinner v (with_trace (fun t => t ++ [e]) v).
Proof.
  intros H. exists [e]. split; [reflexivity |].
  intros s Hs. apply list_elem_of_singleton in Hs. eapply H; eauto.
Qed.

Ltac quiet_done :=
  first [ apply quiet_same_trace; reflexivity
        | apply quiet_emit; intros ?; discriminate ].

Ltac quiet := repeat stable_step; quiet_done.

Lemma quiet_remove_overlay : stable starts_no_spinner remove_overlay.
Proof. unfold remove_overlay. quiet. Qed.

Lemma quiet_show_overlay top width :
  stable starts_no_spinner (show_overlay top width).
Proof. unfold show_overlay. quiet. Qed.

Lemma quiet_FetchingInfo_close d : stable starts_no_spinner (FetchingInfo_close d).
Proof. unfold FetchingInfo_close, Spinner_stop, remove_overlay. quiet. Qed.

Lemma quiet_FetchingFailed_close d :
  stable starts_no_spinner (FetchingFailed_close d).
Proof. unfold FetchingFailed_close, remove_overlay. quiet. Qed.

Lemma quiet_close_fetching fi : stable starts_no_spinner (close_fetching fi).
Proof.
  destruct fi; cbn [close_fetching];
    [apply quiet_FetchingInfo_close | quiet].
Qed.

Lemma quiet_show_info row : stable starts_no_spinner (show_info row).
Proof.
  unfold show_info, FetchingFailed_init, new_dialog, show_overlay, show_screen.
  quiet.
Qed.

Lemma quiet_load_info_callback frame :
  stable starts_no_spinner (load_info_callback frame).
Proof.
  unfold load_info_callback.
  repeat stable_step;
    first [ apply quiet_close_fetching | apply quiet_show_info | quiet_done ].
Qed.

Lemma quiet_info_ready frame chans :
  stable starts_no_spinner (info_ready frame chans).
Proof.
  unfold info_ready.
  repeat stable_step;
    first [ apply quiet_load_info_callback | quiet_done ].
Qed.

Lemma quiet_show_main_screen : stable starts_no_spinner show_main_screen.
Proof. unfold show_main_screen. quiet. Qed.

Lemma quiet_make_rows pre snap_list :
  forall body, stable starts_no_spinner (make_rows pre snap_list body).
Proof.
  induction snap_list as [| snap snap_list IH]; intros body; cbn [make_rows].
  - quiet.
  - unfold SnapCheckBox_init.
    repeat stable_step; first [ apply IH | quiet_done ].
Qed.

Lemma quiet_make_main_screen controller open_read yaml_load snap_list :
  stable starts_no_spinner
    (make_main_screen controller open_read yaml_load snap_list).
Proof.
  unfold make_main_screen.
  repeat stable_step; first [ apply quiet_make_rows | quiet_done ].
Qed.

Lemma quiet_load_callback controller open_read yaml_load frame snap_list :
  stable starts_no_spinner
    (load_callback controller open_read yaml_load frame snap_list).
Proof.
  unfold load_callback, show_list, Spinner_stop, offer_retry.
  repeat stable_step;
    first [ apply quiet_make_main_screen | apply quiet_show_main_screen
          | quiet_done ].
Qed.

Ltac same_part := repeat stable_step; reflexivity.

Lemma same_load_frames_make_rows pre snap_list :
  forall body, stable (same load_frames) (make_rows pre snap_list body).
Proof.
  induction snap_list as [| snap snap_list IH]; intros body; cbn [make_rows].
  - same_part.
  - unfold SnapCheckBox_init.
    repeat stable_step; first [ apply IH | reflexivity ].
Qed.

Lemma same_load_frames_show_list controller open_read yaml_load snap_list :
  stable (same load_frames)
    (show_list controller open_read yaml_load snap_list).
Proof.
  unfold show_list, offer_retry, make_main_screen, show_main_screen.
  repeat stable_step; first [ apply same_load_frames_make_rows | reflexivity ].
Qed.

Lemma same_info_frames_close_fetching fi :
  stable (same info_frames) (close_fetching fi).
Proof.
  destruct fi; cbn [close_fetching];
    unfold FetchingInfo_close, Spinner_stop, remove_overlay; same_part.
Qed.

Lemma same_info_frames_show_info row :
  stable (same info_frames) (show_info row).
Proof.
  unfold show_info, FetchingFailed_init, new_dialog, show_overlay, show_screen.
  same_part.
Qed.

Lemma with_trace_nil v : with_trace (fun t => t ++ []) v = v.
Proof. destruct v. unfold with_trace. cbn. now rewrite app_nil_r. Qed.

(** A call of [load] that the controller answers at once runs what the
    callback runs, and nothing after it. *)
Lemma load_sync controller open_read yaml_load snap_list v :
  load controller open_read yaml_load (Sync snap_list) v =
  show_list controller open_read yaml_load snap_list
    (with_load_frames (alter set_lf_called (length (load_frames v)))
       (with_trace (fun t => t ++ [GetSnapList (length (load_frames v))])
          (with_load_frames
             (fun l => l ++ [{| lf_spinner := None; lf_called := false |}])
             v))).
Proof.
  unfold load, new_load_frame. run.
  set (fr0 := {| lf_spinner := None; lf_called := false |}).
  set (v1 := with_trace _ _).
  assert (Hfr : load_frames v1 !! length (load_frames v) = Some fr0)
    by (subst v1; cbn [load_frames with_trace with_load_frames];
        apply lookup_snoc).
  rewrite (load_callback_prefix _ _ _ _ _ _ _ Hfr).
  cbn [lf_spinner fr0 stop_events]. rewrite with_trace_nil.
  set (v2 := with_load_frames _ v1).
  pose proof (same_load_frames_show_list controller open_read yaml_load snap_list v2)
    as Hsame.
  unfold same, exec in Hsame.
  destruct (show_list controller open_read yaml_load snap_list v2)
    as [[[] | e] v3]; [| reflexivity].
  cbn [snd] in Hsame. unfold deref. rewrite Hsame.
  subst v2. cbn [load_frames with_load_frames].
  rewrite list_lookup_alter_eq, Hfr. reflexivity.
Qed.

(** A call of [load_info] that the controller answers at once runs what
    the callback runs, and nothing after it. *)
Lemma load_info_sync (v : View) (row : nat) (box : SnapCheckBox)
    (chans : list ChannelSnapInfo) :
  boxes v !! row = Some box ->
  load_info row (Sync chans) v =
  show_info row
    (with_info_frames (alter set_if_called (length (info_frames v)))
       (with_boxes (alter (store_channels chans) row)
          (with_trace
             (fun t => t ++ [GetSnapInfo (name (cb_snap box))
                               (length (info_frames v))])
             (with_info_frames
                (fun l => l ++ [{| if_self := row; if_called := false;
                                   if_fi := None |}])
                v)))).
Proof.
  intros Hbox. unfold load_info, new_info_frame. run.
  unfold deref at 1. cbn [boxes with_info_frames]. rewrite Hbox. run.
  set (fr0 := {| if_self := row; if_called := false; if_fi := None |}).
  set (v1 := with_trace _ _).
  assert (Hfr : info_frames v1 !! length (info_frames v) = Some fr0)
    by (subst v1; cbn [info_frames with_trace with_info_frames];
        apply lookup_snoc).
  rewrite (info_ready_prefix _ _ _ _ Hfr).
  cbn [if_fi if_self fr0 close_fetching]. run.
  set (v2 := with_info_frames _ _).
  pose proof (same_info_frames_show_info row v2) as Hsame.
  unfold same, exec in Hsame.
  destruct (show_info row v2) as [[[] | e] v3]; [| reflexivity].
  cbn [snd] in Hsame. unfold deref. rewrite Hsame.
  subst v2. cbn [info_frames with_info_frames with_boxes].
  rewrite list_lookup_alter_eq, Hfr. reflexivity.
Qed.

(** A call of [load] that the controller does not answer at once. *)
Lemma load_async controller open_read yaml_load v :
  load controller open_read yaml_load Async v =
  (Ok tt,
   with_w (fun _ => Some (LoadingScreen (spinners v)))
     (with_trace (fun t => t ++ [SpinnerStart (spinners v)])
        (with_load_frames
           (alter (set_lf_spinner (spinners v)) (length (load_frames v)))
           (with_spinners (S (spinners v))
              (with_trace
                 (fun t => t ++ [GetSnapList (length (load_frames v))])
                 (with_load_frames
                    (fun l => l ++ [{| lf_spinner := None;
                                       lf_called := false |}])
                    v)))))).
Proof.
  unfold load, new_load_frame, Spinner_init, Spinner_start. run.
  unfold deref. cbn [load_frames with_trace with_load_frames].
  rewrite lookup_snoc. reflexivity.
Qed.

(** A call of [load_info] that the controller does not answer at once. *)
Lemma load_info_async (v : View) (row : nat) (box : SnapCheckBox)
    (cur : widget) :
  boxes v !! row = Some box ->
  w v = Some cur ->
  load_info row Async v =
  (Ok tt,
   with_w (fun _ => Some (Overlay (length (dialogs v))
                            (fetching_width (cb_snap box)) cur))
     (with_trace
        (fun t => t ++ [ShowOverlay (length (dialogs v))
                          (fetching_width (cb_snap box))])
        (with_info_frames
           (alter (set_if_fi (length (dialogs v))) (length (info_frames v)))
           (with_dialogs
              (fun l => l ++ [FetchingInfo false (spinners v)
                                (fetching_width (cb_snap box))])
              (with_trace (fun t => t ++ [SpinnerStart (spinners v)])
                 (with_spinners (S (spinners v))
                    (with_trace
                       (fun t => t ++ [GetSnapInfo (name (cb_snap box))
                                         (length (info_frames v))])
                       (with_info_frames
                          (fun l => l ++ [{| if_self := row;
                                             if_called := false;
                                             if_fi := None |}])
                          v)))))))).
Proof.
  intros Hbox Hw.
  unfold load_info, new_info_frame, FetchingInfo_init, new_dialog,
    Spinner_init, Spinner_start, show_overlay.
  run. unfold deref.
  cbn [boxes info_frames dialogs w with_trace with_info_frames with_dialogs
       with_spinners].
  rewrite Hbox. run.
  cbn [boxes info_frames dialogs w with_trace with_info_frames with_dialogs
       with_spinners].
  rewrite lookup_snoc. cbn [if_called]. run.
  cbn [boxes info_frames dialogs w with_trace with_info_frames with_dialogs
       with_spinners].
  rewrite Hbox. run.
  cbn [boxes info_frames dialogs w with_trace with_info_frames with_dialogs
       with_spinners].
  rewrite lookup_snoc. run.
  cbn [boxes info_frames dialogs w with_trace with_info_frames with_dialogs
       with_spinners].
  rewrite Hw. reflexivity.
Qed.

(** Closing the fetching dialog touches neither the check boxes nor the
    frames. *)
Lemma close_fetching_commutes fi f g v :
  close_fetching fi (with_info_frames f (with_boxes g v)) =
  (fst (close_fetching fi v),
   with_info_frames f (with_boxes g (snd (close_fetching fi v)))).
Proof.
  destruct fi as [fi |]; cbn [close_fetching]; [| reflexivity].
  unfold FetchingInfo_close, deref, Spinner_stop, remove_overlay. run.
  cbn [dialogs with_info_frames with_boxes].
  destruct (dialogs v !! fi) as [[[] s wd | c r wd] |]; reflexivity.
Qed.

Lemma same_boxes_close_fetching fi : stable (same boxes) (close_fetching fi).
Proof.
  destruct fi; cbn [close_fetching];
    unfold FetchingInfo_close, Spinner_stop, remove_overlay; same_part.
Qed.

Lemma same_to_install_close_fetching fi :
  stable (same to_install) (close_fetching fi).
Proof.
  destruct fi; cbn [close_fetching];
    unfold FetchingInfo_close, Spinner_stop, remove_overlay; same_part.
Qed.

(** What the controller's answer to [get_snap_info] leads to, when the
    fetching dialog, if any, can be closed and leaves a screen [cur]. *)
Lemma info_ready_outcome (v v0 : View) (frame : nat) (fr : info_frame)
    (box : SnapCheckBox) (cur : widget) (chans : list ChannelSnapInfo) :
  info_frames v !! frame = Some fr ->
  boxes v !! if_self fr = Some box ->
  close_fetching (if_fi fr) v = (Ok tt, v0) ->
  w v0 = Some cur ->
  let snap := set_channels chans (cb_snap box) in
  let v1 :=
    with_info_frames (alter set_if_called frame)
      (with_boxes (alter (store_channels chans) (if_self fr)) v0) in
  info_ready frame chans v =
  (Ok tt,
   match chans with
   | [] =>
       with_w (fun _ => Some (Overlay (length (dialogs v0))
                                (failed_width snap) cur))
         (with_trace (fun t => t ++ [ShowOverlay (length (dialogs v0))
                                       (failed_width snap)])
            (with_dialogs
               (fun l => l ++ [FetchingFailed false (if_self fr)
                                 (failed_width snap)])
               v1))
   | _ :: _ =>
       with_w (fun _ => Some (DetailScreen (detail_of v0 snap)))
         (with_trace (fun t => t ++ [SetHeader (SnapTitle (name snap)
                                       (publisher snap) (verified snap))])
            v1)
   end).
Proof.
  intros Hfr Hbox Hclose Hw snap v1.
  rewrite (info_ready_prefix _ _ _ _ Hfr).
  rewrite run_bind, close_fetching_commutes, Hclose. cbn [fst snd].
  fold v1.
  pose proof (same_boxes_close_fetching (if_fi fr) v) as Hb.
  unfold same, exec in Hb. rewrite Hclose in Hb. cbn [snd] in Hb.
  assert (Hbox1 : boxes v1 !! if_self fr = Some (store_channels chans box)).
  { subst v1. cbn [boxes with_info_frames with_boxes].
    rewrite list_lookup_alter_eq, Hb, Hbox. reflexivity. }
  destruct chans as [| c chans].
  - rewrite (show_info_failed v1 (if_self fr) _ cur Hbox1 eq_refl Hw).
    reflexivity.
  - rewrite (show_info_detail v1 (if_self fr) _ Hbox1) by discriminate.
    reflexivity.
Qed.

(** C8. When the controller answers [get_snap_info] for the snap of a
    row, the fetching dialog, if there is one, is closed, leaving the
    screen [cur].  With no channel, a [FetchingFailed] dialog for the row
    is created and shown over [cur], and the screen under it is not
    replaced by a detail view; the dialog holds the row, whose
    [load_info] its "Try again" button calls.  With a channel, the detail
    view of the snap replaces the screen. *)
Theorem info_ready_failed_or_detail (v : View) (frame : nat) (fr : info_frame)
    (box : SnapCheckBox) (cur : widget) (chans : list ChannelSnapInfo) :
  info_frames v !! frame = Some fr ->
  boxes v !! if_self fr = Some box ->
  eval (close_fetching (if_fi fr)) v = Ok tt ->
  w (exec (close_fetching (if_fi fr)) v) = Some cur ->
  let snap := set_channels chans (cb_snap box) in
  let v' := exec (info_ready frame chans) v in
  eval (info_ready frame chans) v = Ok tt /\
  (chans = [] ->
     exists ff width,
       w v' = Some (Overlay ff width cur) /\
       dialogs v' !! ff = Some (FetchingFailed false (if_self fr) width) /\
       last (trace v') = Some (ShowOverlay ff width) /\
       forall answer,
         FetchingFailed_load ff answer v'
           = load_info (if_self fr) answer (exec (FetchingFailed_close ff) v')) /\
  (chans <> [] ->
     w v' = Some (DetailScreen
                    (SnapInfoView_init snap
                       (channel <$> to_install v !! name snap))) /\
     last (trace v') = Some (SetHeader (SnapTitle (name snap)
                               (publisher snap) (verified snap)))).
Proof.
  intros Hfr Hbox Hclose Hw snap v'.
  unfold eval, exec in Hclose, Hw.
  destruct (close_fetching (if_fi fr) v) as [r v0] eqn:E.
  cbn [fst snd] in Hclose, Hw. subst r.
  pose proof (info_ready_outcome v v0 frame fr box cur chans Hfr Hbox E Hw)
    as Hrun.
  cbn zeta in Hrun. subst v'. unfold eval, exec. rewrite Hrun.
  cbn [fst snd]. split; [reflexivity |]. split.
  - intros ->. eexists _, _.
    cbn [w dialogs trace with_w with_trace with_dialogs with_info_frames
         with_boxes].
    split; [reflexivity |]. split; [apply lookup_snoc |].
    split; [apply last_snoc |].
    intros answer. unfold FetchingFailed_load, exec.
    set (v2 := with_w _ _).
    assert (Hff : dialogs v2 !! length (dialogs v0)
                  = Some (FetchingFailed false (if_self fr)
                            (failed_width (set_channels [] (cb_snap box)))))
      by apply lookup_snoc.
    rewrite run_bind, (FetchingFailed_close_open v2 _ _ _ Hff). cbn [snd].
    erewrite run_bind_ok; cycle 1.
    { apply run_deref. cbn [dialogs with_w with_trace with_dialogs].
      apply list_lookup_insert_eq. apply lookup_lt_Some in Hff. exact Hff. }
    reflexivity.
  - intros Hne. destruct chans as [| c chans]; [congruence |].
    cbn [w trace with_w with_trace].
    pose proof (same_to_install_close_fetching (if_fi fr) v) as Ht.
    unfold same, exec in Ht. rewrite E in Ht. cbn [snd] in Ht.
    unfold detail_of. rewrite Ht. split; [reflexivity | apply last_snoc].
Qed.

Lemma info_ready_failed_or_detail_witness :
  (exists ff width, w Session.failed = Some (Overlay ff width (MainScreen 0
     (rows_of 0 [Session.snap "A"; Session.snap "C"])))) /\
  (exists siv, w Session.detail = Some (DetailScreen siv)).
Proof.
  pose proof (fun chans =>
    info_ready_failed_or_detail Session.fetching 0
      {| if_self := 0; if_called := false; if_fi := Some 0%nat |}
      (new_box (Session.snap "A"))
      (MainScreen 0 (rows_of 0 [Session.snap "A"; Session.snap "C"]))
      chans eq_refl eq_refl eq_refl eq_refl) as H.
  split.
  - destruct (H []) as (_ & Hfailed & _).
    destruct (Hfailed eq_refl) as (ff & width & Hw & _).
    exists ff, width. exact Hw.
  - destruct (H [Session.stable; Session.edge]) as (_ & _ & Hdetail).
    destruct Hdetail as [Hw _]; [discriminate |].
    eexists. exact Hw.
Defined.

(** ** The spinner *)

Lemma quiet_show_list controller open_read yaml_load snap_list :
  stable starts_no_spinner (show_list controller open_read yaml_load snap_list).
Proof.
  unfold show_list, offer_retry.
  repeat stable_step;
    first [ apply quiet_make_main_screen | apply quiet_show_main_screen
          | quiet_done ].
Qed.

Lemma quiet_one_event v v' e :
  trace v' = trace v ++ [e] ->
  (forall s, e <> SpinnerStart s) ->
  starts_no_spinner v v'.
Proof.
  intros Ht H. exists [e]. split; [exact Ht |].
  intros s Hs. apply list_elem_of_singleton in Hs. eapply H; eauto.
Qed.

Lemma quiet_load_sync controller open_read yaml_load snap_list v :
  starts_no_spinner v
    (exec (load controller open_read yaml_load (Sync snap_list)) v).
Proof.
  unfold exec. rewrite load_sync.
  eapply starts_no_spinner_trans; [| apply quiet_show_list].
  apply (quiet_one_event _ _ (GetSnapList (length (load_frames v))));
    [reflexivity | discriminate].
Qed.

Lemma quiet_load_info_sync row chans v :
  starts_no_spinner v (exec (load_info row (Sync chans)) v).
Proof.
  destruct (boxes v !! row) as [box |] eqn:Hbox.
  - unfold exec. rewrite (load_info_sync v row box chans Hbox).
    eapply starts_no_spinner_trans; [| apply quiet_show_info].
    apply (quiet_one_event _ _
             (GetSnapInfo (name (cb_snap box)) (length (info_frames v))));
      [reflexivity | discriminate].
  - unfold exec, load_info, new_info_frame. run.
    unfold deref. cbn [boxes with_info_frames]. rewrite Hbox.
    apply quiet_same_trace. reflexivity.
Qed.

Lemma show_list_leaves_loading controller open_read yaml_load snap_list v :
  eval (show_list controller open_read yaml_load snap_list) v = Ok tt ->
  forall spinner,
    w (exec (show_list controller open_read yaml_load snap_list) v)
      <> Some (LoadingScreen spinner).
Proof.
  unfold eval, exec, show_list. intros Hok spinner.
  destruct snap_list as [| snap snap_list]; cbn [length Nat.eqb] in *.
  - discriminate.
  - destruct (get_preinstalled_snaps controller open_read yaml_load)
      as [pre | e] eqn:Hpre.
    + destruct (make_main_screen_spec controller open_read yaml_load pre
                  (snap :: snap_list) v Hpre)
        as (v1 & Hrun & _ & Hmain & _).
      rewrite (run_bind_ok _ _ _ _ _ Hrun).
      unfold show_main_screen. run.
      cbn [main_screen with_trace]. rewrite Hmain. discriminate.
    + rewrite (run_bind_raise _ _ _ _ _
                 (make_main_screen_raises _ _ _ _ _ _ Hpre)) in Hok.
      discriminate.
Qed.

Lemma load_async_then_callback controller open_read yaml_load snap_list v :
  let v1 := exec (load controller open_read yaml_load Async) v in
  load_callback controller open_read yaml_load (length (load_frames v))
    snap_list v1 =
  show_list controller open_read yaml_load snap_list
    (with_trace (fun t => t ++ [SpinnerStop (spinners v)])
       (with_load_frames (alter set_lf_called (length (load_frames v))) v1)).
Proof.
  intros v1.
  apply (load_callback_prefix controller open_read yaml_load
           (length (load_frames v))
           {| lf_spinner := Some (spinners v); lf_called := false |}).
  subst v1. unfold exec. rewrite load_async.
  cbn [snd load_frames with_w with_trace with_load_frames with_spinners].
  rewrite list_lookup_alter_eq, lookup_snoc. reflexivity.
Qed.

Lemma enabled_on_loading (v : View) (spinner : nat) (e : ui_event) :
  w v = Some (LoadingScreen spinner) ->
  enabled e v = true ->
  (exists callback snap_list, e = ListReady callback snap_list) \/
  (exists callback chans, e = InfoReady callback chans) \/
  e = PressDone.
Proof.
  intros Hw He. unfold enabled in He. rewrite Hw in He.
  destruct e; first [ discriminate | eauto 6 ].
Qed.

Lemma enabled_on_fetching (v : View) (fi width' : nat) (cur : widget)
    (closed : bool) (spinner width : nat) (e : ui_event) :
  w v = Some (Overlay fi width' cur) ->
  dialogs v !! fi = Some (FetchingInfo closed spinner width) ->
  enabled e v = true ->
  (exists callback snap_list, e = ListReady callback snap_list) \/
  (exists callback chans, e = InfoReady callback chans) \/
  e = PressCancelFetching fi.
Proof.
  intros Hw Hd He. unfold enabled in He. rewrite Hw in He.
  destruct e; try discriminate; eauto 6.
  - apply andb_true_iff in He as [He _].
    apply bool_decide_eq_true in He. subst. auto.
  - apply andb_true_iff in He as [He1 He2].
    apply bool_decide_eq_true in He1. subst. rewrite Hd in He2. discriminate.
  - apply andb_true_iff in He as [He1 He2].
    apply bool_decide_eq_true in He1. subst. rewrite Hd in He2. discriminate.
Qed.

(** ** Check boxes and radio buttons *)

Lemma CheckBox_set_state_same (v : View) (i : nat) (box : SnapCheckBox) :
  boxes v !! i = Some box ->
  CheckBox_set_state i (cb_state box) v = (Ok tt, v).
Proof.
  intros Hbox. unfold CheckBox_set_state.
  rewrite (run_bind_ok _ _ _ _ _ (run_deref boxes i _ v Hbox)).
  rewrite bool_decide_eq_true_2 by reflexivity. reflexivity.
Qed.

Lemma CheckBox_set_state_on (v : View) (i : nat) (box : SnapCheckBox) :
  boxes v !! i = Some box ->
  cb_state box = false ->
  CheckBox_set_state i true v =
  (Ok tt,
   with_boxes (alter (set_cb_state true) i)
     (with_to_install
        <[name (cb_snap box) := default_selection (cb_snap box)]> v)).
Proof.
  intros Hbox Hoff. unfold CheckBox_set_state, SnapCheckBox_state_change.
  rewrite (run_bind_ok _ _ _ _ _ (run_deref boxes i _ v Hbox)).
  rewrite bool_decide_eq_false_2 by (rewrite Hoff; discriminate).
  rewrite run_bind.
  rewrite (run_bind_ok _ _ _ _ _ (run_deref boxes i _ v Hbox)).
  reflexivity.
Qed.

Lemma CheckBox_set_state_off (v : View) (i : nat) (box : SnapCheckBox) :
  boxes v !! i = Some box ->
  cb_state box = true ->
  CheckBox_set_state i false v =
  (Ok tt,
   with_boxes (alter (set_cb_state false) i)
     (with_to_install (delete (name (cb_snap box))) v)).
Proof.
  intros Hbox Hon. unfold CheckBox_set_state, SnapCheckBox_state_change.
  rewrite (run_bind_ok _ _ _ _ _ (run_deref boxes i _ v Hbox)).
  rewrite bool_decide_eq_false_2 by (rewrite Hon; discriminate).
  rewrite run_bind.
  rewrite (run_bind_ok _ _ _ _ _ (run_deref boxes i _ v Hbox)).
  reflexivity.
Qed.

(** Setting the check box of a snap: the box is checked afterwards, and
    the store holds the default selection if the box was not checked. *)
Lemma CheckBox_set_state_true (v : View) (i : nat) (box : SnapCheckBox) :
  boxes v !! i = Some box ->
  let v1 := exec (CheckBox_set_state i true) v in
  eval (CheckBox_set_state i true) v = Ok tt /\
  boxes v1 !! i = Some (set_cb_state true box) /\
  snap_boxes v1 = snap_boxes v /\
  w v1 = w v /\
  (cb_state box = false ->
   to_install v1 = <[name (cb_snap box) := default_selection (cb_snap box)]>
                     (to_install v)) /\
  (cb_state box = true -> to_install v1 = to_install v).
Proof.
  intros Hbox v1. subst v1. unfold eval, exec.
  destruct (cb_state box) eqn:Hst.
  - rewrite <- Hst, (CheckBox_set_state_same v i box Hbox). cbn [fst snd].
    repeat split; try reflexivity; try congruence.
    rewrite Hbox. f_equal. destruct box; cbn in *. now subst.
  - rewrite (CheckBox_set_state_on v i box Hbox Hst). cbn [fst snd].
    repeat split; try reflexivity; try congruence.
    cbn [boxes with_boxes with_to_install].
    rewrite list_lookup_alter_eq, Hbox. reflexivity.
Qed.

Lemma SnapInfoView_state_change_true (v : View) (siv : SnapInfoView) (i : nat)
    (selection : SnapSelection) :
  snap_boxes v !! name (siv_snap siv) = Some i ->
  SnapInfoView_state_change siv true selection v =
  (CheckBox_set_state i true;;
   modify (with_to_install <[name (siv_snap siv) := selection]>)) v.
Proof.
  intros Hi. unfold SnapInfoView_state_change.
  rewrite run_bind, run_get, Hi. reflexivity.
Qed.

(** C10. When the check box of the snap of a detail view is not checked,
    choosing a channel first checks the box, which makes its
    [state_change] store the default selection, of channel ["stable"],
    and then stores the selection of the chosen channel over it: the
    store ends with the chosen selection, and not with the default one
    unless the two are the same. *)
Theorem choosing_channel_overwrites_default (v : View) (siv : SnapInfoView)
    (i : nat) (box : SnapCheckBox) (selection : SnapSelection) :
  snap_boxes v !! name (siv_snap siv) = Some i ->
  boxes v !! i = Some box ->
  name (cb_snap box) = name (siv_snap siv) ->
  cb_state box = false ->
  let n := name (siv_snap siv) in
  let v1 := exec (CheckBox_set_state i true) v in
  let v2 := exec (SnapInfoView_state_change siv true selection) v in
  channel (default_selection (cb_snap box)) = "stable" /\
  to_install v1 !! n = Some (default_selection (cb_snap box)) /\
  eval (SnapInfoView_state_change siv true selection) v = Ok tt /\
  v2 = with_to_install <[n := selection]> v1 /\
  to_install v2 !! n = Some selection /\
  (selection <> default_selection (cb_snap box) ->
   to_install v2 !! n <> Some (default_selection (cb_snap box))) /\
  boxes v2 !! i = Some (set_cb_state true box).
Proof.
  intros Hi Hbox Hname Hoff n v1 v2.
  pose proof (CheckBox_set_state_on v i box Hbox Hoff) as Hset.
  assert (Hrun : SnapInfoView_state_change siv true selection v
                 = (Ok tt, with_to_install <[n := selection]> v1)).
  { rewrite (SnapInfoView_state_change_true v siv i selection Hi).
    subst v1. rewrite (exec_run _ _ _ _ Hset), run_bind, Hset.
    reflexivity. }
  subst v2. rewrite (eval_run _ _ _ _ Hrun), !(exec_run _ _ _ _ Hrun).
  subst v1. rewrite (exec_run _ _ _ _ Hset).
  cbn [to_install boxes with_to_install with_boxes].
  split; [reflexivity |].
  split; [subst n; rewrite <- Hname; apply lookup_insert_eq |].
  split; [reflexivity |]. split; [reflexivity |].
  split; [apply lookup_insert_eq |].
  split; [rewrite lookup_insert_eq; congruence |].
  rewrite list_lookup_alter_eq, Hbox. reflexivity.
Qed.

Lemma choosing_channel_overwrites_default_witness :
  to_install
    (exec (SnapInfoView_state_change Session.detail_A true
             {| channel := "edge"; is_classic := true |}) Session.detail)
    !! "A" = Some {| channel := "edge"; is_classic := true |}.
Proof.
  pose proof (choosing_channel_overwrites_default Session.detail
                Session.detail_A 0
                {| cb_snap := Session.snap_A; cb_state := false |}
                {| channel := "edge"; is_classic := true |}
                eq_refl eq_refl eq_refl eq_refl) as H.
  cbn zeta in H. destruct H as (_ & _ & _ & _ & H & _). exact H.
Defined.

(** ** The selections are the checked boxes *)

Lemma with_main_ext (v v' : View) :
  main_screen v' = main_screen v -> load_frames v' = load_frames v ->
  w v' = w v -> to_install v' = to_install v -> boxes v' = boxes v ->
  snap_boxes v' = snap_boxes v ->
  with_main v -> with_main v'.
Proof.
  intros Hm Hl Hw Ht Hb Hs.
  unfold with_main, all_called, store_iff_checked, box_names, boxes_named.
  rewrite Hm, Hl, Hw, Ht, Hb, Hs. auto.
Qed.

Lemma with_main_w (v : View) (x : widget) :
  no_retry x -> with_main v -> with_main (with_w (fun _ => Some x) v).
Proof.
  intros Hx (Hm & Hc & Hw & Hrest). split; [exact Hm |].
  split; [exact Hc |]. split; [| exact Hrest].
  exists x. split; [reflexivity | exact Hx].
Qed.

Lemma lookup_alter_named (f : SnapCheckBox -> SnapCheckBox)
    (l : list SnapCheckBox) (i j : nat) (b : SnapCheckBox) :
  alter f i l !! j = Some b ->
  exists b0, l !! j = Some b0 /\ ((j <> i /\ b = b0) \/ (j = i /\ b = f b0)).
Proof.
  destruct (decide (i = j)) as [-> | Hne].
  - rewrite list_lookup_alter_eq. destruct (l !! j) as [b0 |]; [| discriminate].
    intros [= <-]. eauto.
  - rewrite list_lookup_alter_ne by assumption. eauto.
Qed.

Lemma fmap_alter_same {B} (g : SnapCheckBox -> B)
    (f : SnapCheckBox -> SnapCheckBox) (l : list SnapCheckBox) (i : nat) :
  (forall b, g (f b) = g b) -> g <$> alter f i l = g <$> l.
Proof.
  intros H. apply list_eq. intros j. rewrite !list_lookup_fmap.
  destruct (decide (i = j)) as [-> | Hne].
  - rewrite list_lookup_alter_eq. destruct (l !! j); cbn; [now rewrite H | reflexivity].
  - now rewrite list_lookup_alter_ne.
Qed.

(** Storing the channels of a snap changes neither a name nor a state. *)
Lemma with_main_store_channels (v : View) (chans : list ChannelSnapInfo)
    (i : nat) :
  with_main v -> with_main (with_boxes (alter (store_channels chans) i) v).
Proof.
  intros (Hm & Hc & Hw & Hs & Hn & Hb).
  split; [exact Hm |]. split; [exact Hc |]. split; [exact Hw |].
  split; [| split].
  - intros n. rewrite (Hs n). cbn [to_install boxes with_boxes]. split.
    + intros (j & b & Hj & Hname & Hst).
      destruct (decide (i = j)) as [-> | Hne].
      * exists j, (store_channels chans b).
        rewrite list_lookup_alter_eq, Hj. auto.
      * exists j, b. rewrite list_lookup_alter_ne by assumption. auto.
    + intros (j & b & Hj & Hname & Hst).
      apply lookup_alter_named in Hj as (b0 & Hj & [[_ ->] | [-> ->]]); eauto.
  - unfold box_names. cbn [boxes with_boxes].
    rewrite fmap_alter_same by reflexivity. exact Hn.
  - intros n j Hj. destruct (Hb n j Hj) as (b & Hbj & Hname).
    cbn [boxes with_boxes].
    destruct (decide (i = j)) as [-> | Hne].
    + exists (store_channels chans b). rewrite list_lookup_alter_eq, Hbj. auto.
    + exists b. rewrite list_lookup_alter_ne by assumption. auto.
Qed.

Lemma box_names_lookup (v : View) (i : nat) (box : SnapCheckBox) :
  boxes v !! i = Some box -> box_names v !! i = Some (name (cb_snap box)).
Proof. intros H. unfold box_names. now rewrite list_lookup_fmap, H. Qed.

Lemma same_name_same_box (v : View) (i j : nat) (b b' : SnapCheckBox) :
  NoDup (box_names v) ->
  boxes v !! i = Some b -> boxes v !! j = Some b' ->
  name (cb_snap b) = name (cb_snap b') -> i = j.
Proof.
  intros Hn Hi Hj Hname.
  apply (NoDup_lookup (box_names v) i j (name (cb_snap b)) Hn).
  - now apply box_names_lookup.
  - rewrite Hname. now apply box_names_lookup.
Qed.

(** The store after a box is checked, whatever selection is stored for
    its snap. *)
Lemma with_main_check (v : View) (i : nat) (box : SnapCheckBox)
    (sel : SnapSelection) :
  boxes v !! i = Some box ->
  with_main v ->
  with_main (with_boxes (alter (set_cb_state true) i)
               (with_to_install <[name (cb_snap box) := sel]> v)).
Proof.
  intros Hbox (Hm & Hc & Hw & Hs & Hn & Hb).
  split; [exact Hm |]. split; [exact Hc |]. split; [exact Hw |].
  split; [| split].
  - intros n. cbn [to_install boxes with_boxes with_to_install].
    destruct (decide (name (cb_snap box) = n)) as [<- | Hne].
    + rewrite lookup_insert_eq. split; [intros _ | eauto].
      exists i, (set_cb_state true box).
      rewrite list_lookup_alter_eq, Hbox. auto.
    + rewrite lookup_insert_ne by assumption. rewrite (Hs n). split.
      * intros (j & b & Hj & Hname & Hst).
        exists j, b. split; [| auto].
        rewrite list_lookup_alter_ne; [exact Hj |].
        intros ->. rewrite Hbox in Hj. injection Hj as ->. contradiction.
      * intros (j & b & Hj & Hname & Hst).
        apply lookup_alter_named in Hj as (b0 & Hj & [[_ ->] | [-> ->]]);
          [eauto |].
        rewrite Hbox in Hj. injection Hj as <-. contradiction.
  - unfold box_names. cbn [boxes with_boxes with_to_install].
    rewrite fmap_alter_same by reflexivity. exact Hn.
  - intros n j Hj. destruct (Hb n j Hj) as (b & Hbj & Hname).
    cbn [boxes with_boxes with_to_install].
    destruct (decide (i = j)) as [-> | Hne].
    + exists (set_cb_state true b). rewrite list_lookup_alter_eq, Hbj. auto.
    + exists b. rewrite list_lookup_alter_ne by assumption. auto.
Qed.

Lemma with_main_uncheck (v : View) (i : nat) (box : SnapCheckBox) :
  boxes v !! i = Some box ->
  with_main v ->
  with_main (with_boxes (alter (set_cb_state false) i)
               (with_to_install (delete (name (cb_snap box))) v)).
Proof.
  intros Hbox (Hm & Hc & Hw & Hs & Hn & Hb).
  split; [exact Hm |]. split; [exact Hc |]. split; [exact Hw |].
  split; [| split].
  - intros n. cbn [to_install boxes with_boxes with_to_install].
    destruct (decide (name (cb_snap box) = n)) as [<- | Hne].
    + rewrite lookup_delete_eq. split; [intros [? [=]] |].
      intros (j & b & Hj & Hname & Hst). exfalso.
      apply lookup_alter_named in Hj as (b0 & Hj & [[Hne ->] | [-> ->]]).
      * apply Hne. symmetry. eapply same_name_same_box; eauto.
      * discriminate.
    + rewrite lookup_delete_ne by assumption. rewrite (Hs n). split.
      * intros (j & b & Hj & Hname & Hst).
        exists j, b. split; [| auto].
        rewrite list_lookup_alter_ne; [exact Hj |].
        intros ->. rewrite Hbox in Hj. injection Hj as ->. contradiction.
      * intros (j & b & Hj & Hname & Hst).
        apply lookup_alter_named in Hj as (b0 & Hj & [[_ ->] | [-> ->]]);
          [eauto |].
        discriminate.
  - unfold box_names. cbn [boxes with_boxes with_to_install].
    rewrite fmap_alter_same by reflexivity. exact Hn.
  - intros n j Hj. destruct (Hb n j Hj) as (b & Hbj & Hname).
    cbn [boxes with_boxes with_to_install].
    destruct (decide (i = j)) as [-> | Hne].
    + exists (set_cb_state false b). rewrite list_lookup_alter_eq, Hbj. auto.
    + exists b. rewrite list_lookup_alter_ne by assumption. auto.
Qed.

(** Another selection for a snap whose box is checked. *)
Lemma with_main_select (v : View) (i : nat) (box : SnapCheckBox)
    (sel : SnapSelection) :
  boxes v !! i = Some box ->
  cb_state box = true ->
  with_main v ->
  with_main (with_to_install <[name (cb_snap box) := sel]> v).
Proof.
  intros Hbox Hon (Hm & Hc & Hw & Hs & Hn & Hb).
  split; [exact Hm |]. split; [exact Hc |]. split; [exact Hw |].
  split; [| split; [exact Hn | exact Hb]].
  intros n. cbn [to_install boxes with_to_install].
  destruct (decide (name (cb_snap box) = n)) as [<- | Hne].
  - rewrite lookup_insert_eq. split; eauto.
  - rewrite lookup_insert_ne by assumption. apply Hs.
Qed.

(** What the events of the main screen, of the dialogs and of the detail
    view keep. *)

Ltac main_ext :=
  let H := fresh in
  intros H;
  first [ exact H
        | apply (with_main_ext _ _ eq_refl eq_refl eq_refl eq_refl eq_refl
                   eq_refl H) ].

Ltac keeps_main := repeat stable_step; main_ext.

Lemma keeps_CheckBox_set_state i state :
  stable (keeps with_main) (CheckBox_set_state i state).
Proof.
  intros v Hv.
  destruct (boxes v !! i) as [box |] eqn:Hbox.
  - destruct (decide (cb_state box = state)) as [<- | Hne].
    + now rewrite (exec_run _ _ _ _ (CheckBox_set_state_same v i box Hbox)).
    + destruct state, (cb_state box) eqn:Hst; try congruence.
      * rewrite (exec_run _ _ _ _ (CheckBox_set_state_on v i box Hbox Hst)).
        now apply with_main_check.
      * rewrite (exec_run _ _ _ _ (CheckBox_set_state_off v i box Hbox Hst)).
        now apply with_main_uncheck.
  - unfold exec, CheckBox_set_state, deref. run. now rewrite Hbox.
Qed.

Lemma keeps_CheckBox_toggle_state i :
  stable (keeps with_main) (CheckBox_toggle_state i).
Proof.
  unfold CheckBox_toggle_state.
  repeat stable_step. apply keeps_CheckBox_set_state.
Qed.

Lemma keeps_show_overlay top width :
  stable (keeps with_main) (show_overlay top width).
Proof.
  intros v Hv. unfold exec, show_overlay. run.
  destruct Hv as (Hm & Hc & (x & Hw & Hx) & Hrest).
  cbn [w with_trace]. rewrite Hw. cbn [snd].
  split; [exact Hm |]. split; [exact Hc |].
  split; [| exact Hrest]. exists (Overlay top width x). auto.
Qed.

Lemma keeps_remove_overlay : stable (keeps with_main) remove_overlay.
Proof.
  intros v Hv. unfold exec, remove_overlay. run. cbn [snd].
  destruct Hv as (Hm & Hc & (x & Hw & Hx) & Hrest).
  split; [exact Hm |]. split; [exact Hc |].
  split; [| exact Hrest].
  cbn [w with_w with_trace]. rewrite Hw.
  destruct x; eauto.
Qed.

Lemma keeps_show_screen_detail siv :
  stable (keeps with_main) (show_screen (DetailScreen siv)).
Proof.
  intros v Hv. unfold exec, show_screen. run. cbn [snd].
  now apply with_main_w.
Qed.

Lemma keeps_FetchingInfo_close d : stable (keeps with_main) (FetchingInfo_close d).
Proof.
  unfold FetchingInfo_close, Spinner_stop.
  repeat stable_step; first [ apply keeps_remove_overlay | main_ext ].
Qed.

Lemma keeps_FetchingFailed_close d :
  stable (keeps with_main) (FetchingFailed_close d).
Proof.
  unfold FetchingFailed_close.
  repeat stable_step; first [ apply keeps_remove_overlay | main_ext ].
Qed.

Lemma keeps_close_fetching fi : stable (keeps with_main) (close_fetching fi).
Proof.
  destruct fi; cbn [close_fetching];
    [apply keeps_FetchingInfo_close | keeps_main].
Qed.

Lemma keeps_show_info row : stable (keeps with_main) (show_info row).
Proof.
  unfold show_info, FetchingFailed_init, new_dialog.
  repeat stable_step;
    first [ apply keeps_show_overlay | apply keeps_show_screen_detail
          | main_ext ].
Qed.

Lemma keeps_load_info_callback frame :
  stable (keeps with_main) (load_info_callback frame).
Proof.
  unfold load_info_callback.
  repeat stable_step;
    first [ apply keeps_close_fetching | apply keeps_show_info | main_ext ].
Qed.

Lemma keeps_info_ready frame chans :
  stable (keeps with_main) (info_ready frame chans).
Proof.
  unfold info_ready.
  repeat stable_step;
    first [ apply keeps_load_info_callback
          | intros ?; now apply with_main_store_channels
          | main_ext ].
Qed.

Lemma keeps_load_info row answer :
  stable (keeps with_main) (load_info row answer).
Proof.
  unfold load_info, new_info_frame, FetchingInfo_init, new_dialog,
    Spinner_init, Spinner_start.
  repeat stable_step;
    first [ apply keeps_info_ready | apply keeps_show_overlay | main_ext ].
Qed.

Lemma keeps_FetchingFailed_load d answer :
  stable (keeps with_main) (FetchingFailed_load d answer).
Proof.
  unfold FetchingFailed_load.
  repeat stable_step;
    first [ apply keeps_FetchingFailed_close | apply keeps_load_info
          | main_ext ].
Qed.

Lemma keeps_SnapInfoView_state_change siv state selection :
  stable (keeps with_main) (SnapInfoView_state_change siv state selection).
Proof.
  intros v Hv. destruct state; [| exact Hv].
  destruct (snap_boxes v !! name (siv_snap siv)) as [i |] eqn:Hi.
  - pose proof Hv as (Hm & Hc & Hw & Hs & Hn & Hb).
    destruct (Hb _ _ Hi) as (box & Hbox & Hname).
    destruct (CheckBox_set_state_true v i box Hbox)
      as (Hok & Hbox1 & _).
    pose proof (keeps_CheckBox_set_state i true v Hv) as Hv1.
    unfold exec.
    rewrite (SnapInfoView_state_change_true v siv i selection Hi), run_bind.
    unfold eval, exec in *.
    destruct (CheckBox_set_state i true v) as [r v1]. cbn [fst snd] in *.
    subst r. rewrite run_modify. cbn [snd].
    rewrite <- Hname.
    apply (with_main_select v1 i (set_cb_state true box) selection Hbox1
             eq_refl Hv1).
  - unfold exec, SnapInfoView_state_change. run. now rewrite Hi.
Qed.

Lemma keeps_store_button k state :
  stable (keeps with_main) (store_button k state).
Proof.
  intros v Hv. unfold exec, store_button. run. cbn [snd].
  destruct Hv as (Hm & Hc & (x & Hw & Hx) & Hrest).
  split; [exact Hm |]. split; [exact Hc |]. split; [| exact Hrest].
  cbn [w with_w]. rewrite Hw. destruct x; eauto.
Qed.

Lemma keeps_button_set_state k state :
  stable (keeps with_main) (button_set_state k state).
Proof.
  unfold button_set_state.
  repeat stable_step;
    first [ apply keeps_SnapInfoView_state_change | apply keeps_store_button
          | main_ext ].
Qed.

Lemma keeps_RadioButton_set_state k state :
  stable (keeps with_main) (RadioButton_set_state k state).
Proof.
  unfold RadioButton_set_state.
  repeat stable_step;
    first [ apply keeps_button_set_state | main_ext ].
Qed.

Lemma keeps_show_main_screen : stable (keeps with_main) show_main_screen.
Proof.
  intros v Hv. unfold exec, show_main_screen. run.
  destruct Hv as ((x & Hm & Hx) & Hc & Hw & Hrest).
  cbn [main_screen with_trace]. rewrite Hm. cbn [snd].
  split; [eauto |]. split; [exact Hc |]. split; [eauto | exact Hrest].
Qed.

Lemma keeps_done : stable (keeps with_main) done.
Proof. unfold done. keeps_main. Qed.

Lemma keeps_cancel : stable (keeps with_main) cancel.
Proof.
  unfold cancel.
  repeat stable_step; first [ apply keeps_show_main_screen | main_ext ].
Qed.

(** ** The snap of a detail view has a row *)

Lemma make_rows_registers pre snap_list :
  forall body v,
    let v' := exec (make_rows pre snap_list body) v in
    (forall n, is_Some (snap_boxes v !! n) -> is_Some (snap_boxes v' !! n)) /\
    (forall s, s ∈ offered pre snap_list -> is_Some (snap_boxes v' !! name s)).
Proof.
  induction snap_list as [| snap snap_list IH]; intros body v.
  - cbn. split; [auto |]. intros s Hs. inversion Hs.
  - cbn [make_rows]. unfold offered. rewrite filter_cons.
    destruct (decide (KStr (name snap) ∉ pre)) as [Hout | Hin].
    + rewrite bool_decide_eq_false_2 by assumption.
      set (v1 := with_snap_boxes <[name snap := length (boxes v)]>
                   (with_boxes (fun l => l ++ [new_box snap]) v)).
      set (body1 := body ++ [{| row_box := length (boxes v);
                                row_publisher := publisher snap;
                                row_verified := verified snap;
                                row_summary := summary snap |}]).
      destruct (IH body1 v1) as [Hkeep Hreg]. cbn zeta in Hkeep, Hreg.
      change (exec (SnapCheckBox_init snap ≫= _) v)
        with (exec (make_rows pre snap_list body1) v1).
      assert (H1 : forall n, is_Some (snap_boxes v !! n) ->
                             is_Some (snap_boxes v1 !! n)).
      { intros n Hn. subst v1. cbn [snap_boxes with_snap_boxes with_boxes].
        destruct (decide (name snap = n)) as [-> | Hne].
        - rewrite lookup_insert_eq. eauto.
        - now rewrite lookup_insert_ne. }
      split; [auto |].
      intros s Hs. apply elem_of_cons in Hs as [-> | Hs]; [| now apply Hreg].
      apply Hkeep. subst v1. cbn [snap_boxes with_snap_boxes with_boxes].
      rewrite lookup_insert_eq. eauto.
    + assert (Hin' : KStr (name snap) ∈ pre)
        by (destruct (decide (KStr (name snap) ∈ pre)); tauto).
      rewrite bool_decide_eq_true_2 by assumption.
      apply IH.
Qed.

Lemma make_main_screen_registers controller open_read yaml_load pre
    snap_list v :
  get_preinstalled_snaps controller open_read yaml_load = Ok pre ->
  forall s, s ∈ offered pre snap_list ->
    is_Some (snap_boxes
               (exec (make_main_screen controller open_read yaml_load
                        snap_list) v) !! name s).
Proof.
  intros Hpre s Hs. unfold exec, make_main_screen.
  rewrite run_bind, run_modify. unfold lift at 1. rewrite run_bind, Hpre.
  destruct (make_rows_registers pre snap_list []
              (with_snap_boxes (fun _ => ∅) v)) as [_ Hreg].
  cbn zeta in Hreg. specialize (Hreg s Hs). unfold exec in Hreg.
  destruct (make_rows_spec pre snap_list [] (with_snap_boxes (fun _ => ∅) v))
    as (v1 & Hrun & _).
  rewrite Hrun in Hreg. rewrite (run_bind_ok _ _ _ _ _ Hrun).
  exact Hreg.
Qed.

Lemma detail_inv_ext (v v' : View) :
  boxes v' = boxes v -> snap_boxes v' = snap_boxes v -> w v' = w v ->
  main_screen v' = main_screen v ->
  detail_inv v -> detail_inv v'.
Proof.
  intros Hb Hs Hw Hm. unfold detail_inv, boxes_registered.
  rewrite Hb, Hs, Hw, Hm. auto.
Qed.

Ltac detail_ext :=
  let H := fresh in
  intros H;
  first [ exact H
        | apply (detail_inv_ext _ _ eq_refl eq_refl eq_refl eq_refl H) ].

(** A change of a check box that keeps the name of its snap. *)
Lemma detail_inv_alter (f : SnapCheckBox -> SnapCheckBox) (i : nat) (v : View) :
  (forall b, name (cb_snap (f b)) = name (cb_snap b)) ->
  detail_inv v -> detail_inv (with_boxes (alter f i) v).
Proof.
  intros Hf (Hr & Hw & Hm). split; [| split; assumption].
  intros j b Hj. cbn [boxes snap_boxes with_boxes] in *.
  apply list_alter_lookup_Some in Hj
    as [(_ & b0 & Hj & ->) | [_ Hj]]; [rewrite Hf |]; eauto.
Qed.

Lemma detail_inv_w (v : View) (x : widget) :
  detail_ok (snap_boxes v) x ->
  detail_inv v -> detail_inv (with_w (fun _ => Some x) v).
Proof.
  intros Hx (Hr & Hw & Hm). split; [exact Hr |]. split; [| exact Hm].
  intros y [= <-]. exact Hx.
Qed.

Lemma detail_CheckBox_set_state i state :
  stable (keeps detail_inv) (CheckBox_set_state i state).
Proof.
  unfold CheckBox_set_state, SnapCheckBox_state_change.
  repeat stable_step;
    first [ intros ?; now apply detail_inv_alter | detail_ext ].
Qed.

Lemma detail_CheckBox_toggle_state i :
  stable (keeps detail_inv) (CheckBox_toggle_state i).
Proof.
  unfold CheckBox_toggle_state.
  repeat stable_step. apply detail_CheckBox_set_state.
Qed.

Lemma detail_show_overlay top width :
  stable (keeps detail_inv) (show_overlay top width).
Proof.
  intros v Hv. unfold exec, show_overlay. run.
  cbn [w with_trace]. destruct (w v) as [x |] eqn:Hx; [| exact Hv].
  cbn [snd]. destruct Hv as (Hr & Hw & Hm).
  split; [exact Hr |]. split; [| exact Hm].
  intros y [= <-]. cbn. apply Hw. exact Hx.
Qed.

Lemma detail_remove_overlay : stable (keeps detail_inv) remove_overlay.
Proof.
  intros v Hv. unfold exec, remove_overlay. run. cbn [snd].
  destruct Hv as (Hr & Hw & Hm).
  split; [exact Hr |]. split; [| exact Hm].
  cbn [w snap_boxes with_w with_trace].
  destruct (w v) as [[] |] eqn:Hx; intros y [= <-];
    try (apply (Hw _ eq_refl)).
Qed.

Lemma detail_FetchingInfo_close d :
  stable (keeps detail_inv) (FetchingInfo_close d).
Proof.
  unfold FetchingInfo_close, Spinner_stop.
  repeat stable_step; first [ apply detail_remove_overlay | detail_ext ].
Qed.

Lemma detail_FetchingFailed_close d :
  stable (keeps detail_inv) (FetchingFailed_close d).
Proof.
  unfold FetchingFailed_close.
  repeat stable_step; first [ apply detail_remove_overlay | detail_ext ].
Qed.

Lemma detail_close_fetching fi : stable (keeps detail_inv) (close_fetching fi).
Proof.
  destruct fi; cbn [close_fetching];
    [apply detail_FetchingInfo_close | repeat stable_step].
Qed.

Lemma detail_show_info row : stable (keeps detail_inv) (show_info row).
Proof.
  intros v Hv. unfold exec.
  destruct (boxes v !! row) as [box |] eqn:Hbox.
  - destruct (channels (cb_snap box)) as [| c cs] eqn:Hch.
    + destruct (w v) as [cur |] eqn:Hw.
      * rewrite (show_info_failed v row box cur Hbox Hch Hw). cbn [snd].
        destruct Hv as (Hr & Hwv & Hm).
        split; [exact Hr |]. split; [| exact Hm].
        intros y [= <-]. cbn. apply Hwv. exact Hw.
      * unfold show_info, FetchingFailed_init, new_dialog, show_overlay,
          deref. run. rewrite Hbox, Hch. cbn [length Nat.eqb].
        cbn [dialogs with_dialogs]. rewrite lookup_snoc.
        cbn [w with_trace with_dialogs]. rewrite Hw. cbn [snd].
        apply (detail_inv_ext v _ eq_refl eq_refl eq_refl eq_refl Hv).
    + rewrite (show_info_detail v row box Hbox) by (rewrite Hch; discriminate).
      cbn [snd]. apply detail_inv_w.
      * cbn. destruct Hv as (Hr & _). exact (Hr row box Hbox).
      * apply (detail_inv_ext v _ eq_refl eq_refl eq_refl eq_refl Hv).
  - unfold show_info, deref. run. now rewrite Hbox.
Qed.

Lemma detail_load_info_callback frame :
  stable (keeps detail_inv) (load_info_callback frame).
Proof.
  unfold load_info_callback.
  repeat stable_step;
    first [ apply detail_close_fetching | apply detail_show_info
          | detail_ext ].
Qed.

Lemma detail_info_ready frame chans :
  stable (keeps detail_inv) (info_ready frame chans).
Proof.
  unfold info_ready.
  repeat stable_step;
    first [ apply detail_load_info_callback
          | intros ?; now apply detail_inv_alter
          | detail_ext ].
Qed.

Lemma detail_load_info row answer :
  stable (keeps detail_inv) (load_info row answer).
Proof.
  unfold load_info, new_info_frame, FetchingInfo_init, new_dialog,
    Spinner_init, Spinner_start.
  repeat stable_step;
    first [ apply detail_info_ready | apply detail_show_overlay
          | detail_ext ].
Qed.

Lemma detail_FetchingFailed_load d answer :
  stable (keeps detail_inv) (FetchingFailed_load d answer).
Proof.
  unfold FetchingFailed_load.
  repeat stable_step;
    first [ apply detail_FetchingFailed_close | apply detail_load_info
          | detail_ext ].
Qed.

Lemma detail_SnapInfoView_state_change siv state selection :
  stable (keeps detail_inv) (SnapInfoView_state_change siv state selection).
Proof.
  unfold SnapInfoView_state_change.
  repeat stable_step;
    first [ apply detail_CheckBox_set_state | detail_ext ].
Qed.

Lemma detail_store_button k state :
  stable (keeps detail_inv) (store_button k state).
Proof.
  intros v Hv. unfold exec, store_button. run. cbn [snd].
  destruct Hv as (Hr & Hw & Hm).
  split; [exact Hr |]. split; [| exact Hm].
  cbn [w snap_boxes with_w].
  destruct (w v) as [[] |] eqn:Hx; intros y [= <-];
    try (apply (Hw _ eq_refl)).
Qed.

Lemma detail_button_set_state k state :
  stable (keeps detail_inv) (button_set_state k state).
Proof.
  unfold button_set_state.
  repeat stable_step;
    first [ apply detail_SnapInfoView_state_change
          | apply detail_store_button | detail_ext ].
Qed.

Lemma detail_RadioButton_set_state k state :
  stable (keeps detail_inv) (RadioButton_set_state k state).
Proof.
  unfold RadioButton_set_state.
  repeat stable_step;
    first [ apply detail_button_set_state | detail_ext ].
Qed.

Lemma detail_show_main_screen : stable (keeps detail_inv) show_main_screen.
Proof.
  intros v Hv. unfold exec, show_main_screen. run.
  cbn [main_screen with_trace].
  destruct (main_screen v) as [x |] eqn:Hx; cbn [snd].
  - apply detail_inv_w.
    + destruct Hv as (_ & _ & Hm). exact (Hm x Hx).
    + apply (detail_inv_ext v _ eq_refl eq_refl eq_refl eq_refl Hv).
  - apply (detail_inv_ext v _ eq_refl eq_refl eq_refl eq_refl Hv).
Qed.

Lemma detail_done : stable (keeps detail_inv) done.
Proof. unfold done. repeat stable_step. detail_ext. Qed.

Lemma detail_cancel : stable (keeps detail_inv) cancel.
Proof.
  unfold cancel.
  repeat stable_step; first [ apply detail_show_main_screen | detail_ext ].
Qed.

(** Before the main screen is built. *)

Lemma before_main_ext (v v' : View) :
  main_screen v' = main_screen v -> boxes v' = boxes v ->
  to_install v' = to_install v -> info_frames v' = info_frames v ->
  w v' = w v -> load_frames v' = load_frames v ->
  before_main v -> before_main v'.
Proof.
  intros Hm Hb Ht Hi Hw Hl. unfold before_main, pending_load.
  rewrite Hm, Hb, Ht, Hi, Hw, Hl. auto.
Qed.

Lemma all_called_pending (v : View) : all_called v -> pending_load v.
Proof. intros H f fr Hf Hun. rewrite (H f fr Hf) in Hun. discriminate. Qed.

Lemma NoDup_offered pre snap_list :
  distinct_names snap_list -> NoDup (name <$> offered pre snap_list).
Proof.
  unfold distinct_names, offered.
  induction snap_list as [| s l IH]; [constructor |].
  rewrite fmap_cons, NoDup_cons. intros [Hs Hl].
  rewrite filter_cons. destruct (decide (KStr (name s) ∉ pre)); [| auto].
  rewrite fmap_cons, NoDup_cons. split; [| auto].
  intros Hin. apply Hs.
  apply list_elem_of_fmap in Hin as (s' & -> & Hin).
  apply list_elem_of_filter in Hin as [_ Hin].
  apply list_elem_of_fmap. eauto.
Qed.

Lemma show_list_inv controller open_read yaml_load snap_list v :
  before_main v -> all_called v -> distinct_names snap_list ->
  screen_inv (exec (show_list controller open_read yaml_load snap_list) v).
Proof.
  intros Hv Hc Hd. pose proof Hv as (Hm & Hb & Ht & Hi & Hw & Hp).
  unfold exec, show_list.
  destruct snap_list as [| snap snap_list]; cbn [length Nat.eqb].
  - left. unfold offer_retry. run. cbn [snd].
    refine (conj Hm (conj Hb (conj Ht (conj Hi (conj I _))))).
    apply all_called_pending. exact Hc.
  - destruct (get_preinstalled_snaps controller open_read yaml_load)
      as [pre | e] eqn:Hpre.
    + right.
      destruct (make_main_screen_spec controller open_read yaml_load pre
                  (snap :: snap_list) v Hpre)
        as (v1 & Hrun & Hboxes & Hmain & Hsb & _ & Hsame).
      destruct Hsame as (Hti & _ & _ & Hlf & _).
      rewrite (run_bind_ok _ _ _ _ _ Hrun).
      unfold show_main_screen. run. cbn [main_screen with_trace].
      rewrite Hmain. cbn [snd].
      rewrite Hb in Hboxes, Hmain, Hsb. cbn [app length] in Hboxes, Hmain, Hsb.
      split; [| split; [| split]].
      2:{ intros i box Hbox. cbn [boxes snap_boxes with_w with_trace] in *.
          rewrite Hboxes, list_lookup_fmap in Hbox.
          destruct (offered pre (snap :: snap_list) !! i) as [s |] eqn:Hs;
            [| discriminate].
          injection Hbox as <-.
          pose proof (make_main_screen_registers controller open_read
                        yaml_load pre (snap :: snap_list) v Hpre s
                        (list_elem_of_lookup_2 _ _ _ Hs)) as Hreg.
          now rewrite (exec_run _ _ _ _ Hrun) in Hreg. }
      2:{ intros x [= <-]. exact I. }
      2:{ intros x. cbn [main_screen with_w with_trace]. rewrite Hmain.
          intros [= <-]. exact I. }
      split; [cbn [main_screen with_w with_trace]; rewrite Hmain;
              eexists; split; [reflexivity | exact I] |].
      split; [intros f fr; cbn [load_frames with_w with_trace];
              rewrite Hlf; apply Hc |].
      split; [eexists; split; [reflexivity | exact I] |].
      split; [| split].
      * intros n. cbn [to_install boxes with_w with_trace].
        rewrite Hti, Ht, lookup_empty, Hboxes. split; [intros [? [=]] |].
        intros (i & box & Hbox & _ & Hst).
        rewrite list_lookup_fmap in Hbox.
        destruct (offered pre (snap :: snap_list) !! i); cbn in Hbox;
          [| discriminate].
        injection Hbox as <-. discriminate.
      * unfold box_names. cbn [boxes with_w with_trace].
        rewrite Hboxes, <- list_fmap_compose.
        now apply NoDup_offered.
      * intros n i Hlook. cbn [snap_boxes with_w with_trace] in Hlook.
        destruct (Hsb n i Hlook) as (k & s & Hk & Hname & ->).
        exists (new_box s). cbn [boxes with_w with_trace].
        rewrite Hboxes, list_lookup_fmap, Nat.add_0_l, Hk. auto.
    + left.
      rewrite (run_bind_raise _ _ _ _ _
                 (make_main_screen_raises _ _ _ _ _ _ Hpre)).
      cbn [snd].
      apply (before_main_ext v _ eq_refl eq_refl eq_refl eq_refl eq_refl
               eq_refl Hv).
Qed.

Lemma called_after_load_sync (v : View) :
  all_called v ->
  forall f fr,
    alter set_lf_called (length (load_frames v))
      (load_frames v ++ [{| lf_spinner := None; lf_called := false |}]) !! f
      = Some fr ->
    lf_called fr = true.
Proof.
  intros Hc f fr Hf. apply list_alter_lookup_Some in Hf.
  destruct Hf as [(_ & fr0 & _ & ->) | [Hne Hf]]; [reflexivity |].
  apply lookup_app_Some in Hf as [Hf | [Hge Hf]]; [now apply (Hc f) |].
  apply list_lookup_singleton_Some in Hf as [Hz _]. lia.
Qed.

Lemma load_inv controller open_read yaml_load answer v :
  before_main v -> all_called v -> answer_ok answer ->
  screen_inv (exec (load controller open_read yaml_load answer) v).
Proof.
  intros Hv Hc Ha. pose proof Hv as (Hm & Hb & Ht & Hi & Hw & Hp).
  destruct answer as [snap_list |].
  - unfold exec. rewrite load_sync. apply show_list_inv; [| | exact Ha].
    + refine (conj Hm (conj Hb (conj Ht (conj Hi (conj Hw _))))).
      apply all_called_pending. exact (called_after_load_sync v Hc).
    + exact (called_after_load_sync v Hc).
  - left. unfold exec. rewrite load_async. cbn [snd].
    refine (conj Hm (conj Hb (conj Ht (conj Hi (conj I _))))).
    intros f fr. cbn [load_frames w with_load_frames with_trace with_w
                      with_spinners].
    intros Hf Hun. apply list_alter_lookup_Some in Hf.
    destruct Hf as [(Heq & fr0 & Hf & ->) | [Hne Hf]].
    + rewrite length_alter, length_app. cbn [length]. split; [lia | eauto].
    + apply lookup_app_Some in Hf as [Hf | [Hge Hf]].
      * rewrite (Hc f fr Hf) in Hun. discriminate.
      * apply list_lookup_singleton_Some in Hf as [Hz _]. lia.
Qed.

Lemma list_ready_inv controller open_read yaml_load frame snap_list v :
  before_main v -> is_uncalled_load v frame = true ->
  distinct_names snap_list ->
  screen_inv
    (exec (load_callback controller open_read yaml_load frame snap_list) v).
Proof.
  intros Hv Hun Hd. pose proof Hv as (Hm & Hb & Ht & Hi & Hw & Hp).
  unfold is_uncalled_load in Hun.
  destruct (load_frames v !! frame) as [fr |] eqn:Hfr; [| discriminate].
  apply negb_true_iff in Hun.
  destruct (Hp frame fr Hfr Hun) as [Hlast _].
  unfold exec. rewrite (load_callback_prefix _ _ _ _ _ _ _ Hfr).
  assert (Hc : forall f fr',
             alter set_lf_called frame (load_frames v) !! f = Some fr' ->
             lf_called fr' = true).
  { intros f fr' Hf. apply list_alter_lookup_Some in Hf.
    destruct Hf as [(_ & fr0 & _ & ->) | [Hne Hf]]; [reflexivity |].
    destruct (lf_called fr') eqn:Hcalled; [reflexivity |].
    destruct (Hp f fr' Hf Hcalled) as [Hlast' _]. lia. }
  apply show_list_inv; [| exact Hc | exact Hd].
  refine (conj Hm (conj Hb (conj Ht (conj Hi (conj Hw _))))).
  apply all_called_pending. exact Hc.
Qed.

Lemma before_main_enabled (v : View) (e : ui_event) :
  before_main v -> enabled e v = true ->
  (exists frame snap_list, e = ListReady frame snap_list) \/
  (exists answer, e = PressTryAgain answer /\ w v = Some RetryScreen) \/
  e = PressDone.
Proof.
  intros (_ & _ & _ & Hi & Hw & _) He.
  assert (Hinfo : forall frame, is_uncalled_info v frame = false)
    by (intros frame; unfold is_uncalled_info; now rewrite Hi).
  destruct e; unfold enabled in He; try rewrite Hinfo in He; eauto;
    destruct (w v) as [[] |]; cbn in Hw;
    first [ discriminate | contradiction | eauto ].
Qed.

Lemma retry_all_called (v : View) :
  pending_load v -> w v = Some RetryScreen -> all_called v.
Proof.
  intros Hp Hw f fr Hf. destruct (lf_called fr) eqn:Hc; [reflexivity |].
  destruct (Hp f fr Hf Hc) as [_ [s Hs]]. congruence.
Qed.

(** Every state of the view is one before the main screen is built or one
    after. *)
Lemma reachable_screen_inv controller open_read yaml_load v :
  reachable controller open_read yaml_load v -> screen_inv v.
Proof.
  induction 1 as [answer Ha | v e Hr IH He Hok].
  - apply load_inv; [| | exact Ha].
    + refine (conj eq_refl (conj eq_refl (conj eq_refl (conj eq_refl
                (conj I _))))).
      intros f fr Hf. discriminate.
    + intros f fr Hf. discriminate.
  - destruct IH as [Hv | Hv].
    + destruct (before_main_enabled v e Hv He)
        as [(frame & l & ->) | [(answer & -> & Hw) | ->]]; cbn [handle].
      * apply list_ready_inv; [exact Hv | | exact Hok].
        unfold enabled in He. destruct (w v) as [[] |]; exact He.
      * apply load_inv; [exact Hv | | exact Hok].
        destruct Hv as (_ & _ & _ & _ & _ & Hp).
        now apply retry_all_called.
      * left. unfold exec, done. run. cbn [snd].
        apply (before_main_ext v _ eq_refl eq_refl eq_refl eq_refl eq_refl
                 eq_refl Hv).
    + right. destruct Hv as [Hv Hd]. destruct e; cbn [handle].
      * split; [now apply keeps_CheckBox_toggle_state
               | now apply detail_CheckBox_toggle_state].
      * split; [now apply keeps_load_info | now apply detail_load_info].
      * split; [now apply keeps_info_ready | now apply detail_info_ready].
      * exfalso. destruct Hv as (_ & Hc & _).
        assert (Hun : is_uncalled_load v callback = true)
          by (unfold enabled in He; destruct (w v) as [[] |]; exact He).
        unfold is_uncalled_load in Hun.
        destruct (load_frames v !! callback) as [fr |] eqn:Hfr;
          [| discriminate].
        rewrite (Hc _ _ Hfr) in Hun. discriminate.
      * split; [now apply keeps_FetchingInfo_close
               | now apply detail_FetchingInfo_close].
      * split; [now apply keeps_FetchingFailed_load
               | now apply detail_FetchingFailed_load].
      * split; [now apply keeps_FetchingFailed_close
               | now apply detail_FetchingFailed_close].
      * split; [now apply keeps_RadioButton_set_state
               | now apply detail_RadioButton_set_state].
      * split; [now apply keeps_show_main_screen
               | now apply detail_show_main_screen].
      * exfalso. destruct Hv as (_ & _ & (x & Hw & Hx) & _).
        unfold enabled in He. rewrite Hw in He.
        destruct x; try discriminate. exact Hx.
      * split; [now apply keeps_done | now apply detail_done].
      * split; [now apply keeps_cancel | now apply detail_cancel].
Qed.


(** ** Choosing a channel *)

Lemma returns_ret {A} (a : A) : returns (mret a).
Proof. intros v. eexists. reflexivity. Qed.

Lemma returns_get : returns get.
Proof. intros v. eexists. reflexivity. Qed.

Lemma returns_modify f : returns (modify f).
Proof. intros v. eexists. reflexivity. Qed.

Lemma returns_bind {A B} (m : M A) (k : A -> M B) :
  returns m -> (forall a, returns (k a)) -> returns (m ≫= k).
Proof.
  intros Hm Hk v. destruct (Hm v) as [a Ha]. unfold eval in *.
  rewrite run_bind. destruct (m v) as [r v1]. cbn [fst] in Ha. subst r.
  apply Hk.
Qed.

Lemma returns_for_each {A} (l : list A) (body : A -> M unit) :
  (forall x, returns (body x)) -> returns (for_each l body).
Proof.
  intros H. induction l as [| x l IH]; cbn [for_each].
  - apply returns_ret.
  - apply returns_bind; [apply H | intros _; exact IH].
Qed.

Ltac returns_step :=
  match goal with
  | |- returns (mbind _ _) => apply returns_bind; [| intros ?]
  | |- returns (mret _) => apply returns_ret
  | |- returns get => apply returns_get
  | |- returns (modify _) => apply returns_modify
  | |- returns (for_each _ _) => apply returns_for_each; intros ?
  | |- returns (match ?x with _ => _ end) => destruct x
  end.

(** Clearing a radio button: [SnapInfoView.state_change] does nothing
    when the state is not set. *)
Lemma returns_button_clear j : returns (button_set_state j false).
Proof.
  unfold button_set_state, store_button.
  repeat returns_step. all: apply returns_ret.
Qed.

Lemma same_button_clear {B} (part : View -> B) j :
  (forall f v, part (with_w f v) = part v) ->
  stable (same part) (button_set_state j false).
Proof.
  intros Hpart. unfold button_set_state, store_button.
  repeat stable_step;
    first [ apply stable_ret; eauto with stable | apply Hpart ].
Qed.

Lemma button_set_state_true (v : View) (siv : SnapInfoView) (k : nat)
    (btn : StarRadioButton) (i : nat) (box : SnapCheckBox) :
  w v = Some (DetailScreen siv) ->
  siv_group siv !! k = Some btn ->
  rb_state btn = false ->
  snap_boxes v !! name (siv_snap siv) = Some i ->
  boxes v !! i = Some box ->
  exists v2,
    button_set_state k true v = (Ok tt, v2) /\
    to_install v2 = <[name (siv_snap siv) := rb_user_data btn]>
                      (to_install (exec (CheckBox_set_state i true) v)) /\
    boxes v2 !! i = Some (set_cb_state true box).
Proof.
  intros Hw Hk Hoff Hi Hbox.
  destruct (CheckBox_set_state_true v i box Hbox) as (Hok & Hbox1 & _).
  unfold button_set_state. rewrite run_bind, run_get.
  unfold shown_detail. rewrite Hw, Hk.
  rewrite bool_decide_eq_false_2 by (rewrite Hoff; discriminate).
  rewrite run_bind, (SnapInfoView_state_change_true v siv i _ Hi), run_bind.
  unfold eval, exec in *.
  destruct (CheckBox_set_state i true v) as [r v1]. cbn [fst snd] in *.
  subst r. rewrite run_modify. unfold store_button. rewrite run_modify.
  eexists. split; [reflexivity |]. split; [reflexivity | exact Hbox1].
Qed.

Lemma press_channel (v : View) (siv : SnapInfoView) (k : nat)
    (btn : StarRadioButton) (i : nat) (box : SnapCheckBox) :
  w v = Some (DetailScreen siv) ->
  siv_group siv !! k = Some btn ->
  rb_state btn = false ->
  snap_boxes v !! name (siv_snap siv) = Some i ->
  boxes v !! i = Some box ->
  let v' := exec (RadioButton_toggle_state k) v in
  eval (RadioButton_toggle_state k) v = Ok tt /\
  to_install v' = <[name (siv_snap siv) := rb_user_data btn]>
                    (to_install (exec (CheckBox_set_state i true) v)) /\
  boxes v' !! i = Some (set_cb_state true box).
Proof.
  intros Hw Hk Hoff Hi Hbox v'. subst v'.
  destruct (button_set_state_true v siv k btn i box Hw Hk Hoff Hi Hbox)
    as (v2 & Hrun & Ht & Hb).
  assert (Hfull : exists v3,
             RadioButton_toggle_state k v = (Ok tt, v3) /\
             to_install v3 = to_install v2 /\ boxes v3 = boxes v2).
  { unfold RadioButton_toggle_state, RadioButton_set_state.
    rewrite run_bind, run_get. unfold shown_detail at 1. rewrite Hw, Hk.
    rewrite bool_decide_eq_false_2 by (rewrite Hoff; discriminate).
    rewrite (run_bind_ok _ _ _ _ _ Hrun). cbv iota.
    set (others := for_each _ _).
    assert (Hret : returns others).
    { subst others. apply returns_for_each. intros j.
      repeat returns_step;
        first [ apply returns_button_clear | apply returns_ret ]. }
    assert (Hst : stable (same to_install) others).
    { subst others. repeat stable_step;
        first [ now apply same_button_clear
              | apply stable_ret; eauto with stable ]. }
    assert (Hsb : stable (same boxes) others).
    { subst others. repeat stable_step;
        first [ now apply same_button_clear
              | apply stable_ret; eauto with stable ]. }
    destruct (Hret v2) as [[] Hr]. specialize (Hst v2). specialize (Hsb v2).
    unfold eval, exec, same in Hr, Hst, Hsb.
    destruct (others v2) as [r v3]. cbn [fst snd] in *. subst r.
    exists v3. auto. }
  destruct Hfull as (v3 & Hfull & Ht3 & Hb3).
  rewrite (eval_run _ _ _ _ Hfull), !(exec_run _ _ _ _ Hfull).
  rewrite Ht3, Hb3. auto.
Qed.

Lemma same_snap_boxes_RadioButton_set_state k state :
  stable (same snap_boxes) (RadioButton_set_state k state).
Proof.
  unfold RadioButton_set_state, button_set_state, store_button,
    SnapInfoView_state_change, CheckBox_set_state, SnapCheckBox_state_change.
  repeat stable_step; reflexivity.
Qed.

(** C6. In every state that the view can be in, after its constructor
    and after every event, a snap has an entry in [to_install] iff its
    check box is checked.  When the detail view of a snap is on screen,
    choosing a channel that is not the chosen one returns, and then
    [to_install] maps the snap to the selection of the chosen channel and
    the check box of the snap, the one [snap_boxes] has for its name, is
    checked. *)
Theorem selections_are_checked_boxes (controller : Controller)
    (open_read : string -> result string) (yaml_load : string -> result yaml)
    (v : View) :
  reachable controller open_read yaml_load v ->
  store_iff_checked v /\
  forall siv k btn,
    w v = Some (DetailScreen siv) ->
    siv_group siv !! k = Some btn ->
    rb_state btn = false ->
    let n := name (siv_snap siv) in
    let press := handle controller open_read yaml_load (PressChannel k) in
    enabled (PressChannel k) v = true /\
    eval press v = Ok tt /\
    to_install (exec press v) !! n = Some (rb_user_data btn) /\
    store_iff_checked (exec press v) /\
    exists i box,
      snap_boxes (exec press v) !! n = Some i /\
      boxes (exec press v) !! i = Some box /\
      name (cb_snap box) = n /\ cb_state box = true.
Proof.
  intros Hr.
  destruct (reachable_screen_inv _ _ _ _ Hr) as [Hv | [Hv Hd]].
  - destruct Hv as (_ & Hb & Ht & _ & Hw & _). split.
    + intros n. rewrite Ht, Hb, lookup_empty. split; [intros [? [=]] |].
      intros (i & box & [=] & _).
    + intros siv k btn Hsiv. rewrite Hsiv in Hw. contradiction.
  - split; [apply Hv |].
    intros siv k btn Hsiv Hk Hoff n press.
    destruct Hd as (_ & Hdw & _). specialize (Hdw _ Hsiv).
    cbn [detail_ok] in Hdw. destruct Hdw as [i Hi].
    pose proof Hv as (_ & _ & _ & _ & _ & Hnamed).
    destruct (Hnamed _ _ Hi) as (box & Hbox & Hname).
    destruct (press_channel v siv k btn i box Hsiv Hk Hoff Hi Hbox)
      as (Hok & Ht & Hb).
    pose proof (same_snap_boxes_RadioButton_set_state k true v) as Hsb.
    assert (Hen : enabled (PressChannel k) v = true).
    { unfold enabled. rewrite Hsiv. apply bool_decide_eq_true_2.
      apply lookup_lt_Some in Hk. exact Hk. }
    split; [exact Hen |]. split; [exact Hok |].
    split; [subst press; cbn [handle]; rewrite Ht; apply lookup_insert_eq |].
    split.
    { subst press. cbn [handle]. now apply keeps_RadioButton_set_state. }
    exists i, (set_cb_state true box). subst press. cbn [handle].
    split; [unfold RadioButton_toggle_state; rewrite Hsb; exact Hi |].
    split; [exact Hb |]. split; [exact Hname | reflexivity].
Qed.

Lemma selections_are_checked_boxes_witness :
  to_install Session.chosen !! "A"
    = Some {| channel := "edge"; is_classic := true |} /\
  store_iff_checked Session.chosen.
Proof.
  assert (Hmain : reachable Session.controller Session.open_read
                    Session.yaml_load Session.main).
  { apply reachable_init. cbn [answer_ok]. unfold distinct_names.
    apply (bool_decide_unpack _). vm_compute. exact I. }
  assert (Hfetching : reachable Session.controller Session.open_read
                        Session.yaml_load Session.fetching).
  { apply (reachable_event _ _ _ _ (KeyEnter 0 Async) Hmain);
      [reflexivity | exact I]. }
  assert (Hdetail : reachable Session.controller Session.open_read
                      Session.yaml_load Session.detail).
  { apply (reachable_event _ _ _ _
             (InfoReady 0 [Session.stable; Session.edge]) Hfetching);
      [reflexivity | exact I]. }
  destruct (selections_are_checked_boxes _ _ _ _ Hdetail) as [_ H].
  destruct (H Session.detail_A 1%nat
              {| rb_label := "edge"; rb_state := false;
                 rb_user_data := {| channel := "edge"; is_classic := true |} |}
              eq_refl eq_refl eq_refl)
    as (_ & _ & Hstore & Hinv & _).
  split; [exact Hstore | exact Hinv].
Defined.

(** ** The loading screen *)

Lemma same_load_frames_info_ready frame chans :
  stable (same load_frames) (info_ready frame chans).
Proof.
  unfold info_ready, load_info_callback, close_fetching, FetchingInfo_close,
    Spinner_stop, show_info, FetchingFailed_init, new_dialog, show_overlay,
    remove_overlay, show_screen.
  same_part.
Qed.

Lemma same_load_frames_load_info row answer :
  stable (same load_frames) (load_info row answer).
Proof.
  unfold load_info, new_info_frame, FetchingInfo_init, Spinner_init,
    Spinner_start, new_dialog, show_overlay.
  repeat stable_step;
    first [ apply same_load_frames_info_ready | reflexivity ].
Qed.

Lemma same_load_frames_handle controller open_read yaml_load (e : ui_event) :
  builds e = false ->
  stable (same load_frames) (handle controller open_read yaml_load e).
Proof.
  intros He. destruct e; try discriminate; cbn [handle].
  - unfold CheckBox_toggle_state, CheckBox_set_state,
      SnapCheckBox_state_change. same_part.
  - apply same_load_frames_load_info.
  - apply same_load_frames_info_ready.
  - unfold FetchingInfo_close, Spinner_stop, remove_overlay. same_part.
  - unfold FetchingFailed_load, FetchingFailed_close, remove_overlay.
    repeat stable_step;
      first [ apply same_load_frames_load_info | reflexivity ].
  - unfold FetchingFailed_close, remove_overlay. same_part.
  - unfold RadioButton_toggle_state, RadioButton_set_state, button_set_state,
      store_button, SnapInfoView_state_change, CheckBox_set_state,
      SnapCheckBox_state_change. same_part.
  - unfold show_main_screen. same_part.
  - unfold done. same_part.
  - unfold cancel, show_main_screen. same_part.
Qed.

Lemma load_frames_load_callback controller open_read yaml_load frame fr
    snap_list v :
  load_frames v !! frame = Some fr ->
  load_frames (exec (load_callback controller open_read yaml_load frame
                       snap_list) v)
  = alter set_lf_called frame (load_frames v).
Proof.
  intros Hfr.
  rewrite (exec_eq _ _ _ _ (load_callback_prefix _ _ _ _ _ snap_list _ Hfr)).
  apply (same_load_frames_show_list controller open_read yaml_load snap_list).
Qed.

Lemma loading_shown_all_called (v : View) : all_called v -> loading_shown v.
Proof. intros Hc f fr Hf Hun. rewrite (Hc f fr Hf) in Hun. discriminate. Qed.

Lemma loading_shown_load controller open_read yaml_load answer v :
  all_called v ->
  loading_shown (exec (load controller open_read yaml_load answer) v).
Proof.
  intros Hc. destruct answer as [snap_list |].
  - apply loading_shown_all_called. intros f fr Hf.
    rewrite (exec_eq _ _ _ _ (load_sync _ _ _ snap_list v)) in Hf.
    rewrite (same_load_frames_show_list controller open_read yaml_load
               snap_list _) in Hf.
    cbn [load_frames with_load_frames with_trace] in Hf.
    now apply (called_after_load_sync v Hc f fr).
  - unfold exec. rewrite load_async. cbn [snd]. intros f fr Hf Hun.
    cbn [load_frames w with_w with_trace with_load_frames with_spinners] in *.
    apply list_alter_lookup_Some in Hf
      as [(<- & fr0 & Hf & ->) | [Hne Hf]].
    + exists (spinners v). split; reflexivity.
    + apply lookup_app_Some in Hf as [Hf | [Hge Hf]].
      * rewrite (Hc f fr Hf) in Hun. discriminate.
      * apply list_lookup_singleton_Some in Hf as [Hf _]. lia.
Qed.

(** In every state of the view, the loading screen of a list that is
    still to come is shown. *)
Lemma reachable_loading_shown controller open_read yaml_load (v : View) :
  reachable controller open_read yaml_load v -> loading_shown v.
Proof.
  induction 1 as [answer Ha | v e Hr IH He Hok].
  - apply loading_shown_load. intros f fr Hf. discriminate.
  - destruct (reachable_screen_inv _ _ _ _ Hr) as [Hv | [Hv _]].
    + destruct (before_main_enabled v e Hv He)
        as [(frame & l & ->) | [(answer & -> & Hw) | ->]]; cbn [handle].
      * apply loading_shown_all_called. intros f fr Hf.
        assert (Hun : is_uncalled_load v frame = true)
          by (unfold enabled in He; destruct (w v) as [[] |]; exact He).
        unfold is_uncalled_load in Hun.
        destruct (load_frames v !! frame) as [fr0 |] eqn:Hfr0;
          [| discriminate].
        apply negb_true_iff in Hun.
        rewrite (load_frames_load_callback _ _ _ _ _ _ _ Hfr0) in Hf.
        destruct Hv as (_ & _ & _ & _ & _ & Hp).
        destruct (Hp frame fr0 Hfr0 Hun) as [Hlast _].
        apply list_alter_lookup_Some in Hf
          as [(_ & fr1 & _ & ->) | [Hne Hf]]; [reflexivity |].
        destruct (lf_called fr) eqn:Hcalled; [reflexivity |].
        destruct (Hp f fr Hf Hcalled) as [Hlast' _]. lia.
      * apply loading_shown_load.
        destruct Hv as (_ & _ & _ & _ & _ & Hp). now apply retry_all_called.
      * intros f fr Hf Hun. exact (IH f fr Hf Hun).
    + apply loading_shown_all_called. pose proof Hv as (_ & Hc & _).
      assert (Hb : builds e = false).
      { destruct e; try reflexivity; exfalso.
        - assert (Hun : is_uncalled_load v callback = true)
            by (unfold enabled in He; destruct (w v) as [[] |]; exact He).
          unfold is_uncalled_load in Hun.
          destruct (load_frames v !! callback) as [fr |] eqn:Hfr;
            [| discriminate].
          rewrite (Hc _ _ Hfr) in Hun. discriminate.
        - destruct Hv as (_ & _ & (x & Hw & Hx) & _).
          unfold enabled in He. rewrite Hw in He.
          destruct x; try discriminate. exact Hx. }
      intros f fr Hf.
      rewrite (same_load_frames_handle controller open_read yaml_load e Hb v)
        in Hf.
      exact (Hc f fr Hf).
Qed.

(** ** A fetching dialog stays open *)

Lemma run_deref_none {A} (store : View -> list A) (i : nat) (v : View) :
  store v !! i = None ->
  deref store i v = (Raise (AttributeError "dangling reference"), v).
Proof. intros H. unfold deref. now rewrite H. Qed.

Section Open.

Variables fi spinner width : nat.

#[local] Abbreviation still_open := (keeps (fetching_open fi spinner width)).

Lemma open_ext (v v' : View) :
  dialogs v' = dialogs v ->
  fetching_open fi spinner width v -> fetching_open fi spinner width v'.
Proof. unfold fetching_open. now intros ->. Qed.

Lemma open_new_dialog d : stable still_open (new_dialog d).
Proof.
  unfold new_dialog. repeat stable_step; intros H; try exact H.
  unfold fetching_open in *. cbn [dialogs with_dialogs].
  now apply lookup_app_l_Some.
Qed.

Lemma open_remove_overlay : stable still_open remove_overlay.
Proof.
  unfold remove_overlay. repeat stable_step; intros H; exact H.
Qed.

Lemma open_show_overlay top w : stable still_open (show_overlay top w).
Proof.
  unfold show_overlay. repeat stable_step; intros H; exact H.
Qed.

Lemma open_FetchingInfo_close d :
  d <> fi -> stable still_open (FetchingInfo_close d).
Proof.
  intros Hne. unfold FetchingInfo_close, Spinner_stop.
  repeat stable_step;
    first [ apply open_remove_overlay | intros H; try exact H ].
  unfold fetching_open in *. cbn [dialogs with_dialogs].
  now rewrite list_lookup_insert_ne.
Qed.

Lemma open_close_fetching d :
  d <> Some fi -> stable still_open (close_fetching d).
Proof.
  intros Hne. destruct d as [d |]; cbn [close_fetching].
  - apply open_FetchingInfo_close. congruence.
  - repeat stable_step.
Qed.

Lemma open_FetchingFailed_close d : stable still_open (FetchingFailed_close d).
Proof.
  intros v H. unfold exec.
  destruct (dialogs v !! d) as [[closed s w | closed row w] |] eqn:Hd.
  - unfold FetchingFailed_close.
    rewrite (run_bind_ok _ _ _ _ _ (run_deref dialogs d _ v Hd)). exact H.
  - destruct closed.
    + rewrite (FetchingFailed_close_closed v d _ _ Hd). exact H.
    + rewrite (FetchingFailed_close_open v d _ _ Hd). cbn [snd].
      unfold fetching_open in *. cbn [dialogs with_w with_trace with_dialogs].
      rewrite list_lookup_insert_ne; [exact H |].
      intros ->. rewrite H in Hd. discriminate.
  - unfold FetchingFailed_close.
    rewrite (run_bind_raise _ _ _ _ _ (run_deref_none dialogs d v Hd)).
    exact H.
Qed.

Lemma open_show_info row : stable still_open (show_info row).
Proof.
  unfold show_info, FetchingFailed_init, show_screen.
  repeat stable_step;
    first [ apply open_new_dialog | apply open_show_overlay
          | intros H; exact H ].
Qed.

(** A callback of [load_info] that is not the one of the dialog. *)
Lemma open_info_ready frame chans v :
  (forall fr, info_frames v !! frame = Some fr -> if_fi fr <> Some fi) ->
  fetching_open fi spinner width v ->
  fetching_open fi spinner width (exec (info_ready frame chans) v).
Proof.
  intros Hother H.
  destruct (info_frames v !! frame) as [fr |] eqn:Hfr.
  - rewrite (exec_eq _ _ _ _ (info_ready_prefix v frame fr chans Hfr)).
    assert (Hst : stable still_open
                    (close_fetching (if_fi fr);; show_info (if_self fr))).
    { repeat stable_step;
        first [ apply open_close_fetching; now apply Hother
              | apply open_show_info ]. }
    apply Hst. exact H.
  - unfold exec, info_ready.
    rewrite (run_bind_raise _ _ _ _ _ (run_deref_none info_frames frame v Hfr)).
    exact H.
Qed.

Lemma open_FetchingInfo_init snap : stable still_open (FetchingInfo_init snap).
Proof.
  unfold FetchingInfo_init, Spinner_init, Spinner_start.
  repeat stable_step;
    first [ apply open_new_dialog | intros H; exact H ].
Qed.

Lemma open_load_info row answer : stable still_open (load_info row answer).
Proof.
  destruct answer as [chans |].
  - intros v H. destruct (boxes v !! row) as [box |] eqn:Hbox.
    + rewrite (exec_eq _ _ _ _ (load_info_sync v row box chans Hbox)).
      apply open_show_info. exact H.
    + unfold exec, load_info, new_info_frame. run.
      unfold deref. cbn [boxes with_info_frames]. rewrite Hbox. exact H.
  - unfold load_info, new_info_frame.
    repeat stable_step;
      first [ apply open_FetchingInfo_init | apply open_show_overlay
            | intros H; exact H ].
Qed.

Lemma open_FetchingFailed_load d answer :
  stable still_open (FetchingFailed_load d answer).
Proof.
  unfold FetchingFailed_load.
  repeat stable_step;
    first [ apply open_FetchingFailed_close | apply open_load_info
          | intros H; exact H ].
Qed.

Lemma open_CheckBox_set_state i state :
  stable still_open (CheckBox_set_state i state).
Proof.
  unfold CheckBox_set_state, SnapCheckBox_state_change.
  repeat stable_step; intros H; exact H.
Qed.

Lemma open_make_rows pre snap_list :
  forall body, stable still_open (make_rows pre snap_list body).
Proof.
  induction snap_list as [| snap snap_list IH]; intros body; cbn [make_rows].
  - repeat stable_step.
  - unfold SnapCheckBox_init.
    repeat stable_step; first [ apply IH | intros H; exact H ].
Qed.

Lemma open_show_list controller open_read yaml_load snap_list :
  stable still_open (show_list controller open_read yaml_load snap_list).
Proof.
  unfold show_list, offer_retry, make_main_screen, show_main_screen.
  repeat stable_step;
    first [ apply open_make_rows | intros H; exact H ].
Qed.

Lemma open_load_callback controller open_read yaml_load frame snap_list :
  stable still_open
    (load_callback controller open_read yaml_load frame snap_list).
Proof.
  unfold load_callback, Spinner_stop.
  repeat stable_step;
    first [ apply open_show_list | intros H; exact H ].
Qed.

Lemma open_load controller open_read yaml_load answer :
  stable still_open (load controller open_read yaml_load answer).
Proof.
  unfold load, new_load_frame, Spinner_init, Spinner_start.
  repeat stable_step;
    first [ apply open_load_callback | intros H; exact H ].
Qed.

(** An event that does not run [close] on the dialog leaves it open. *)
Lemma open_handle controller open_read yaml_load (e : ui_event) (v : View) :
  ~ closes fi e v ->
  fetching_open fi spinner width v ->
  fetching_open fi spinner width
    (exec (handle controller open_read yaml_load e) v).
Proof.
  intros Hnot. destruct e; cbn [handle closes] in *.
  - unfold CheckBox_toggle_state. revert v Hnot.
    change (forall v, ~ False -> still_open v
              (exec (box ← deref boxes row;
                     CheckBox_set_state row (negb (cb_state box))) v)).
    intros v _. revert v.
    change (stable still_open
              (box ← deref boxes row;
               CheckBox_set_state row (negb (cb_state box)))).
    repeat stable_step. apply open_CheckBox_set_state.
  - apply open_load_info.
  - apply open_info_ready. intros fr Hfr Hfi. apply Hnot. eauto.
  - apply open_load_callback.
  - apply open_FetchingInfo_close. exact Hnot.
  - apply open_FetchingFailed_load.
  - apply open_FetchingFailed_close.
  - unfold RadioButton_toggle_state. revert v Hnot.
    assert (Hst : stable still_open (RadioButton_set_state k true)).
    { unfold RadioButton_set_state, button_set_state, store_button,
        SnapInfoView_state_change.
      repeat stable_step;
        first [ apply open_CheckBox_set_state | intros H; exact H ]. }
    intros v _. apply Hst.
  - assert (Hst : stable still_open show_main_screen)
      by (unfold show_main_screen; repeat stable_step; intros H; exact H).
    apply Hst.
  - apply open_load.
  - assert (Hst : stable still_open done)
      by (unfold done; repeat stable_step; intros H; exact H).
    apply Hst.
  - assert (Hst : stable still_open cancel)
      by (unfold cancel, show_main_screen; repeat stable_step;
          intros H; exact H).
    apply Hst.
Qed.

End Open.

(** ** The spinners are distinct *)

Lemma distinct_ext (v v' : View) :
  dialogs v' = dialogs v -> load_frames v' = load_frames v ->
  spinners v' = spinners v ->
  spinners_distinct v -> spinners_distinct v'.
Proof. unfold spinners_distinct. now intros -> -> ->. Qed.

Lemma FetchingInfo_init_run snap v :
  FetchingInfo_init snap v =
  (Ok (length (dialogs v)),
   with_dialogs (fun l => l ++ [FetchingInfo false (spinners v)
                                  (fetching_width snap)])
     (with_trace (fun t => t ++ [SpinnerStart (spinners v)])
        (with_spinners (S (spinners v)) v))).
Proof. reflexivity. Qed.

Lemma distinct_FetchingInfo_init snap :
  stable (keeps spinners_distinct) (FetchingInfo_init snap).
Proof.
  intros v (Hd & Hf & Hu & Hx & Hl). unfold exec.
  rewrite FetchingInfo_init_run. cbn [snd].
  unfold spinners_distinct.
  cbn [dialogs load_frames spinners with_dialogs with_trace with_spinners].
  assert (Hnew : forall d closed s width,
            (dialogs v ++ [FetchingInfo false (spinners v)
                             (fetching_width snap)]) !! d
              = Some (FetchingInfo closed s width) ->
            dialogs v !! d = Some (FetchingInfo closed s width) \/
            d = length (dialogs v) /\ s = spinners v).
  { intros d closed s width H.
    apply lookup_app_Some in H as [H | [Hge H]]; [now left |].
    apply list_lookup_singleton_Some in H as [H1 H2].
    injection H2 as _ <- _. right. split; [lia | reflexivity]. }
  split; [| split; [| split; [| split; [| exact Hl]]]].
  - intros d closed s width H.
    destruct (Hnew _ _ _ _ H) as [H' | [_ ->]]; [| lia].
    specialize (Hd _ _ _ _ H'). lia.
  - intros f fr s H1 H2. specialize (Hf _ _ _ H1 H2). lia.
  - intros d d' closed closed' s width width' H H'.
    destruct (Hnew _ _ _ _ H) as [H1 | [-> ->]],
             (Hnew _ _ _ _ H') as [H2 | [? ?]]; subst.
    + exact (Hu _ _ _ _ _ _ _ H1 H2).
    + specialize (Hd _ _ _ _ H1). lia.
    + specialize (Hd _ _ _ _ H2). lia.
    + reflexivity.
  - intros d closed s width f fr H H1 H2.
    destruct (Hnew _ _ _ _ H) as [H' | [_ ->]].
    + exact (Hx _ _ _ _ _ _ H' H1 H2).
    + specialize (Hf _ _ _ H1 H2). lia.
Qed.

Lemma distinct_close (v : View) (d : nat) (closed : bool) (s width : nat) :
  dialogs v !! d = Some (FetchingInfo closed s width) ->
  spinners_distinct v ->
  spinners_distinct (with_dialogs <[d := FetchingInfo true s width]> v).
Proof.
  intros Hd (Hb & Hf & Hu & Hx & Hl). unfold spinners_distinct.
  cbn [dialogs load_frames spinners with_dialogs].
  assert (Hsame : forall d' closed' s' width',
            <[d := FetchingInfo true s width]> (dialogs v) !! d'
              = Some (FetchingInfo closed' s' width') ->
            exists c, dialogs v !! d' = Some (FetchingInfo c s' width')).
  { intros d' closed' s' width' H.
    destruct (decide (d' = d)) as [-> | Hne].
    - rewrite list_lookup_insert_eq in H by (now apply lookup_lt_Some in Hd).
      injection H as _ <- <-. eauto.
    - rewrite list_lookup_insert_ne in H by congruence. eauto. }
  split; [| split; [| split; [| split; [| exact Hl]]]].
  - intros d' c s' w' H. destruct (Hsame _ _ _ _ H) as [c' H']. eauto.
  - exact Hf.
  - intros d1 d2 c1 c2 s' w1 w2 H1 H2.
    destruct (Hsame _ _ _ _ H1) as [c1' H1'].
    destruct (Hsame _ _ _ _ H2) as [c2' H2']. eauto.
  - intros d' c s' w' f fr H. destruct (Hsame _ _ _ _ H) as [c' H']. eauto.
Qed.

Lemma distinct_FetchingInfo_close d :
  stable (keeps spinners_distinct) (FetchingInfo_close d).
Proof.
  intros v H. unfold exec.
  destruct (dialogs v !! d) as [[closed s w | closed row w] |] eqn:Hd.
  - destruct closed.
    + rewrite (FetchingInfo_close_closed v d _ _ Hd). exact H.
    + rewrite (FetchingInfo_close_open v d _ _ Hd). cbn [snd].
      apply (distinct_ext (with_dialogs <[d := FetchingInfo true s w]> v));
        try reflexivity.
      now apply (distinct_close v d false).
  - unfold FetchingInfo_close.
    rewrite (run_bind_ok _ _ _ _ _ (run_deref dialogs d _ v Hd)). exact H.
  - unfold FetchingInfo_close.
    rewrite (run_bind_raise _ _ _ _ _ (run_deref_none dialogs d v Hd)).
    exact H.
Qed.

Lemma distinct_other_dialog (v : View) (f : list dialog -> list dialog) :
  (forall d closed s width,
     f (dialogs v) !! d = Some (FetchingInfo closed s width) ->
     dialogs v !! d = Some (FetchingInfo closed s width)) ->
  spinners_distinct v -> spinners_distinct (with_dialogs f v).
Proof.
  intros Hsame (Hb & Hf & Hu & Hx & Hl). unfold spinners_distinct.
  cbn [dialogs load_frames spinners with_dialogs].
  split; [| split; [| split; [| split; [| exact Hl]]]]; eauto.
Qed.

Lemma distinct_FetchingFailed_close d :
  stable (keeps spinners_distinct) (FetchingFailed_close d).
Proof.
  intros v H. unfold exec.
  destruct (dialogs v !! d) as [[closed s w | closed row w] |] eqn:Hd.
  - unfold FetchingFailed_close.
    rewrite (run_bind_ok _ _ _ _ _ (run_deref dialogs d _ v Hd)). exact H.
  - destruct closed.
    + rewrite (FetchingFailed_close_closed v d _ _ Hd). exact H.
    + rewrite (FetchingFailed_close_open v d _ _ Hd). cbn [snd].
      apply (distinct_ext
               (with_dialogs <[d := FetchingFailed true row w]> v));
        try reflexivity.
      apply distinct_other_dialog; [| exact H].
      intros d' c s' w' Hd'. destruct (decide (d' = d)) as [-> | Hne].
      * rewrite list_lookup_insert_eq in Hd'
          by (now apply lookup_lt_Some in Hd).
        discriminate.
      * now rewrite list_lookup_insert_ne in Hd' by congruence.
  - unfold FetchingFailed_close.
    rewrite (run_bind_raise _ _ _ _ _ (run_deref_none dialogs d v Hd)).
    exact H.
Qed.

Lemma distinct_new_failed row width :
  stable (keeps spinners_distinct) (new_dialog (FetchingFailed false row width)).
Proof.
  unfold new_dialog. repeat stable_step; intros H; try exact H.
  apply distinct_other_dialog; [| exact H].
  intros d c s w Hd. apply lookup_app_Some in Hd as [Hd | [_ Hd]];
    [exact Hd |].
  apply list_lookup_singleton_Some in Hd as [_ Hd]. discriminate.
Qed.

Lemma distinct_frames (v : View) (f : list load_frame -> list load_frame) :
  (forall i fr s,
     f (load_frames v) !! i = Some fr -> lf_spinner fr = Some s ->
     exists fr0, load_frames v !! i = Some fr0 /\ lf_spinner fr0 = Some s) ->
  spinners_distinct v -> spinners_distinct (with_load_frames f v).
Proof.
  intros Hsame (Hb & Hf & Hu & Hx & Hl). unfold spinners_distinct.
  cbn [dialogs load_frames spinners with_load_frames].
  split; [exact Hb |]. split; [| split; [exact Hu | split]].
  - intros i fr s H1 H2. destruct (Hsame _ _ _ H1 H2) as (fr0 & H3 & H4).
    eauto.
  - intros d c s w i fr Hd H1 H2.
    destruct (Hsame _ _ _ H1 H2) as (fr0 & H3 & H4).
    exact (Hx _ _ _ _ _ _ Hd H3 H4).
  - intros i i' fr fr' s H1 H2 H1' H2'.
    destruct (Hsame _ _ _ H1 H2) as (fr0 & H3 & H4).
    destruct (Hsame _ _ _ H1' H2') as (fr0' & H3' & H4').
    exact (Hl _ _ _ _ _ H3 H4 H3' H4').
Qed.

Lemma distinct_called frame v :
  spinners_distinct v ->
  spinners_distinct (with_load_frames (alter set_lf_called frame) v).
Proof.
  apply distinct_frames. intros i fr s H1 H2.
  apply list_alter_lookup_Some in H1 as [(_ & fr0 & H1 & ->) | [_ H1]]; eauto.
Qed.

Lemma distinct_new_frame v :
  spinners_distinct v ->
  spinners_distinct
    (with_load_frames
       (fun l => l ++ [{| lf_spinner := None; lf_called := false |}]) v).
Proof.
  apply distinct_frames. intros i fr s H1 H2.
  apply lookup_app_Some in H1 as [H1 | [_ H1]]; [eauto |].
  apply list_lookup_singleton_Some in H1 as [_ <-]. discriminate.
Qed.

Ltac distinct_done :=
  let H := fresh in
  intros H;
  first [ exact H
        | apply distinct_called; exact H
        | apply distinct_new_frame; exact H ].

Lemma distinct_show_info row : stable (keeps spinners_distinct) (show_info row).
Proof.
  unfold show_info, FetchingFailed_init, show_overlay, show_screen.
  repeat stable_step; first [ apply distinct_new_failed | distinct_done ].
Qed.

Lemma distinct_info_ready frame chans :
  stable (keeps spinners_distinct) (info_ready frame chans).
Proof.
  unfold info_ready, load_info_callback, close_fetching.
  repeat stable_step;
    first [ apply distinct_FetchingInfo_close | apply distinct_show_info
          | distinct_done ].
Qed.

Lemma distinct_load_info row answer :
  stable (keeps spinners_distinct) (load_info row answer).
Proof.
  unfold load_info, new_info_frame, show_overlay.
  repeat stable_step;
    first [ apply distinct_info_ready | apply distinct_FetchingInfo_init
          | distinct_done ].
Qed.

Lemma distinct_make_rows pre snap_list :
  forall body, stable (keeps spinners_distinct) (make_rows pre snap_list body).
Proof.
  induction snap_list as [| snap snap_list IH]; intros body; cbn [make_rows].
  - repeat stable_step.
  - unfold SnapCheckBox_init.
    repeat stable_step; first [ apply IH | distinct_done ].
Qed.

Lemma distinct_show_list controller open_read yaml_load snap_list :
  stable (keeps spinners_distinct)
    (show_list controller open_read yaml_load snap_list).
Proof.
  unfold show_list, offer_retry, make_main_screen, show_main_screen.
  repeat stable_step; first [ apply distinct_make_rows | distinct_done ].
Qed.

Lemma distinct_load_callback controller open_read yaml_load frame snap_list :
  stable (keeps spinners_distinct)
    (load_callback controller open_read yaml_load frame snap_list).
Proof.
  unfold load_callback, Spinner_stop.
  repeat stable_step; first [ apply distinct_show_list | distinct_done ].
Qed.

Lemma distinct_load controller open_read yaml_load answer :
  stable (keeps spinners_distinct)
    (load controller open_read yaml_load answer).
Proof.
  intros v H. destruct answer as [snap_list |].
  - rewrite (exec_eq _ _ _ _ (load_sync _ _ _ snap_list v)).
    apply distinct_show_list.
    apply distinct_called.
    apply (distinct_ext
             (with_load_frames
                (fun l => l ++ [{| lf_spinner := None; lf_called := false |}])
                v)); try reflexivity.
    now apply distinct_new_frame.
  - unfold exec. rewrite load_async. cbn [snd].
    destruct H as (Hb & Hf & Hu & Hx & Hl). unfold spinners_distinct.
    cbn [dialogs load_frames spinners with_w with_trace with_load_frames
         with_spinners].
    assert (Hnew : forall i fr s,
              alter (set_lf_spinner (spinners v)) (length (load_frames v))
                (load_frames v ++ [{| lf_spinner := None;
                                      lf_called := false |}]) !! i = Some fr ->
              lf_spinner fr = Some s ->
              (exists fr0, load_frames v !! i = Some fr0 /\
                           lf_spinner fr0 = Some s) \/
              i = length (load_frames v) /\ s = spinners v).
    { intros i fr s H1 H2.
      apply list_alter_lookup_Some in H1 as [(Hi & fr0 & _ & ->) | [Hne H1]].
      - injection H2 as <-. now right.
      - apply lookup_app_Some in H1 as [H1 | [Hge H1]]; [eauto |].
        apply list_lookup_singleton_Some in H1 as [H1 _]. lia. }
    split; [| split; [| split; [| split]]].
    + intros d c s w Hd. specialize (Hb _ _ _ _ Hd). lia.
    + intros i fr s H1 H2.
      destruct (Hnew _ _ _ H1 H2) as [(fr0 & H3 & H4) | [_ ->]]; [| lia].
      specialize (Hf _ _ _ H3 H4). lia.
    + exact Hu.
    + intros d c s w i fr Hd H1 H2.
      destruct (Hnew _ _ _ H1 H2) as [(fr0 & H3 & H4) | [_ ->]].
      * exact (Hx _ _ _ _ _ _ Hd H3 H4).
      * specialize (Hb _ _ _ _ Hd). lia.
    + intros i i' fr fr' s H1 H2 H1' H2'.
      destruct (Hnew _ _ _ H1 H2) as [(fr0 & H3 & H4) | [-> ->]],
               (Hnew _ _ _ H1' H2') as [(fr0' & H3' & H4') | [? ?]]; subst.
      * exact (Hl _ _ _ _ _ H3 H4 H3' H4').
      * specialize (Hf _ _ _ H3 H4). lia.
      * specialize (Hf _ _ _ H3' H4'). lia.
      * reflexivity.
Qed.

Lemma distinct_handle controller open_read yaml_load (e : ui_event) :
  stable (keeps spinners_distinct) (handle controller open_read yaml_load e).
Proof.
  destruct e; cbn [handle].
  - unfold CheckBox_toggle_state, CheckBox_set_state,
      SnapCheckBox_state_change.
    repeat stable_step; distinct_done.
  - apply distinct_load_info.
  - apply distinct_info_ready.
  - apply distinct_load_callback.
  - apply distinct_FetchingInfo_close.
  - unfold FetchingFailed_load.
    repeat stable_step;
      first [ apply distinct_FetchingFailed_close | apply distinct_load_info
            | distinct_done ].
  - apply distinct_FetchingFailed_close.
  - unfold RadioButton_toggle_state, RadioButton_set_state, button_set_state,
      store_button, SnapInfoView_state_change, CheckBox_set_state,
      SnapCheckBox_state_change.
    repeat stable_step; distinct_done.
  - unfold show_main_screen. repeat stable_step; distinct_done.
  - apply distinct_load.
  - unfold done. repeat stable_step; distinct_done.
  - unfold cancel, show_main_screen. repeat stable_step; distinct_done.
Qed.

(** In every state of the view the spinners are distinct. *)
Lemma reachable_spinners_distinct controller open_read yaml_load (v : View) :
  reachable controller open_read yaml_load v -> spinners_distinct v.
Proof.
  induction 1 as [answer Ha | v e Hr IH He Hok].
  - apply distinct_load. unfold spinners_distinct. cbn.
    repeat split; intros; discriminate.
  - now apply distinct_handle.
Qed.

(** ** A spinner keeps running *)

Lemma stops_not_refl spinner v : stops_not spinner v v.
Proof.
  exists []. rewrite app_nil_r. split; [reflexivity |].
  intros Hs. inversion Hs.
Qed.

Lemma stops_not_trans spinner v1 v2 v3 :
  stops_not spinner v1 v2 -> stops_not spinner v2 v3 ->
  stops_not spinner v1 v3.
Proof.
  intros (e1 & H1 & N1) (e2 & H2 & N2). exists (e1 ++ e2).
  rewrite H2, H1, app_assoc. split; [reflexivity |].
  intros Hs. apply elem_of_app in Hs as [Hs | Hs]; auto.
Qed.

#[local] Hint Resolve stops_not_refl stops_not_trans : stable.

Lemma stops_not_same_trace spinner v v' :
  trace v' = trace v -> stops_not spinner v v'.
Proof.
  intros H. exists []. rewrite app_nil_r. split; [exact H |].
  intros Hs. inversion Hs.
Qed.

Lemma stops_not_events spinner v v' evs :
  trace v' = trace v ++ evs -> SpinnerStop spinner ∉ evs ->
  stops_not spinner v v'.
Proof. intros H1 H2. now exists evs. Qed.

Lemma stops_not_emit spinner v e :
  e <> SpinnerStop spinner ->
  stops_not spinner v (with_trace (fun t => t ++ [e]) v).
Proof.
  intros H. exists [e]. split; [reflexivity |].
  intros Hs. apply list_elem_of_singleton in Hs. congruence.
Qed.

Ltac running_done :=
  first [ apply stops_not_same_trace; reflexivity
        | apply stops_not_emit; discriminate ].

Ltac running := repeat stable_step; running_done.

Section Running.

Variable spinner : nat.

#[local] Abbreviation runs_on := (stops_not spinner).

Lemma running_show_info row : stable runs_on (show_info row).
Proof.
  unfold show_info, FetchingFailed_init, new_dialog, show_overlay, show_screen.
  running.
Qed.

Lemma running_FetchingFailed_close d : stable runs_on (FetchingFailed_close d).
Proof. unfold FetchingFailed_close, remove_overlay. running. Qed.

(** Closing a dialog that has another spinner. *)
Lemma running_FetchingInfo_close d v :
  (forall s width, dialogs v !! d = Some (FetchingInfo false s width) ->
     s <> spinner) ->
  runs_on v (exec (FetchingInfo_close d) v).
Proof.
  intros Hother. unfold exec.
  destruct (dialogs v !! d) as [[closed s w | closed row w] |] eqn:Hd.
  - destruct closed.
    + rewrite (FetchingInfo_close_closed v d _ _ Hd). apply stops_not_refl.
    + rewrite (FetchingInfo_close_open v d _ _ Hd). cbn [snd].
      apply (stops_not_events _ _ _ [SpinnerStop s; RemoveOverlay]).
      * cbn [trace with_w with_trace with_dialogs]. now rewrite <- app_assoc.
      * intros Hin. apply elem_of_cons in Hin as [Hin | Hin].
        -- injection Hin as Heq. apply (Hother s w); [reflexivity | congruence].
        -- apply list_elem_of_singleton in Hin. discriminate.
  - unfold FetchingInfo_close.
    rewrite (run_bind_ok _ _ _ _ _ (run_deref dialogs d _ v Hd)).
    apply stops_not_refl.
  - unfold FetchingInfo_close.
    rewrite (run_bind_raise _ _ _ _ _ (run_deref_none dialogs d v Hd)).
    apply stops_not_refl.
Qed.

(** A callback of [load_info] whose dialog, if it has one, has another
    spinner. *)
Lemma running_info_ready frame chans v :
  (forall fr d s width,
     info_frames v !! frame = Some fr -> if_fi fr = Some d ->
     dialogs v !! d = Some (FetchingInfo false s width) -> s <> spinner) ->
  runs_on v (exec (info_ready frame chans) v).
Proof.
  intros Hother.
  destruct (info_frames v !! frame) as [fr |] eqn:Hfr.
  - rewrite (exec_eq _ _ _ _ (info_ready_prefix v frame fr chans Hfr)).
    set (v1 := with_info_frames _ _).
    apply (stops_not_trans _ _ v1);
      [apply stops_not_same_trace; reflexivity |].
    unfold exec. rewrite run_bind.
    assert (Hclose : runs_on v1 (exec (close_fetching (if_fi fr)) v1)).
    { destruct (if_fi fr) as [d |] eqn:Hfi; cbn [close_fetching].
      - apply running_FetchingInfo_close. intros s width Hd.
        now apply (Hother fr d s width).
      - apply stops_not_refl. }
    unfold exec in Hclose.
    destruct (close_fetching (if_fi fr) v1) as [[[] | e] v2];
      cbn [snd] in *; [| exact Hclose].
    eapply stops_not_trans; [exact Hclose | apply running_show_info].
  - unfold exec, info_ready.
    rewrite (run_bind_raise _ _ _ _ _ (run_deref_none info_frames frame v Hfr)).
    apply stops_not_refl.
Qed.

Lemma running_load_info row answer : stable runs_on (load_info row answer).
Proof.
  destruct answer as [chans |].
  - intros v. destruct (boxes v !! row) as [box |] eqn:Hbox.
    + rewrite (exec_eq _ _ _ _ (load_info_sync v row box chans Hbox)).
      eapply stops_not_trans; [| apply running_show_info].
      apply (stops_not_events _ _ _
               [GetSnapInfo (name (cb_snap box)) (length (info_frames v))]);
        [reflexivity |].
      intros Hin. apply list_elem_of_singleton in Hin. discriminate.
    + unfold exec, load_info, new_info_frame. run.
      unfold deref. cbn [boxes with_info_frames]. rewrite Hbox.
      apply stops_not_same_trace. reflexivity.
  - unfold load_info, new_info_frame, FetchingInfo_init, new_dialog,
      Spinner_init, Spinner_start, show_overlay.
    running.
Qed.

Lemma running_FetchingFailed_load d answer :
  stable runs_on (FetchingFailed_load d answer).
Proof.
  unfold FetchingFailed_load.
  repeat stable_step;
    first [ apply running_FetchingFailed_close | apply running_load_info
          | running_done ].
Qed.

Lemma running_CheckBox_set_state i state :
  stable runs_on (CheckBox_set_state i state).
Proof. unfold CheckBox_set_state, SnapCheckBox_state_change. running. Qed.

Lemma running_make_rows pre snap_list :
  forall body, stable runs_on (make_rows pre snap_list body).
Proof.
  induction snap_list as [| snap snap_list IH]; intros body; cbn [make_rows].
  - running.
  - unfold SnapCheckBox_init.
    repeat stable_step; first [ apply IH | running_done ].
Qed.

Lemma running_show_list controller open_read yaml_load snap_list :
  stable runs_on (show_list controller open_read yaml_load snap_list).
Proof.
  unfold show_list, offer_retry, make_main_screen, show_main_screen.
  repeat stable_step; first [ apply running_make_rows | running_done ].
Qed.

(** A callback of [load], whose spinner is another one. *)
Lemma running_load_callback controller open_read yaml_load frame snap_list v :
  (forall fr, load_frames v !! frame = Some fr ->
     lf_spinner fr <> Some spinner) ->
  runs_on v
    (exec (load_callback controller open_read yaml_load frame snap_list) v).
Proof.
  intros Hother.
  destruct (load_frames v !! frame) as [fr |] eqn:Hfr.
  - rewrite (exec_eq _ _ _ _
               (load_callback_prefix _ _ _ _ _ snap_list _ Hfr)).
    eapply stops_not_trans; [| apply running_show_list].
    apply (stops_not_events _ _ _ (stop_events (lf_spinner fr)));
      [reflexivity |].
    specialize (Hother fr eq_refl).
    destruct (lf_spinner fr) as [s |]; cbn [stop_events].
    + intros Hin. apply list_elem_of_singleton in Hin. congruence.
    + intros Hin. inversion Hin.
  - unfold exec, load_callback. rewrite run_bind, run_modify.
    erewrite run_bind_raise; cycle 1.
    { apply run_deref_none. cbn [load_frames with_load_frames].
      rewrite list_lookup_alter_eq, Hfr. reflexivity. }
    apply stops_not_same_trace. reflexivity.
Qed.

Lemma running_load controller open_read yaml_load answer :
  stable runs_on (load controller open_read yaml_load answer).
Proof.
  intros v. destruct answer as [snap_list |].
  - rewrite (exec_eq _ _ _ _ (load_sync _ _ _ snap_list v)).
    eapply stops_not_trans; [| apply running_show_list].
    apply (stops_not_events _ _ _ [GetSnapList (length (load_frames v))]);
      [reflexivity |].
    intros Hin. apply list_elem_of_singleton in Hin. discriminate.
  - unfold exec. rewrite load_async. cbn [snd].
    apply (stops_not_events _ _ _
             [GetSnapList (length (load_frames v));
              SpinnerStart (spinners v)]).
    + cbn [trace with_w with_trace with_load_frames with_spinners].
      now rewrite <- app_assoc.
    + intros Hin. apply elem_of_cons in Hin as [Hin | Hin];
        [discriminate |].
      apply list_elem_of_singleton in Hin. discriminate.
Qed.

(** While a fetching dialog is open, the only events that stop its
    spinner are those that close it. *)
Lemma running_handle controller open_read yaml_load (fi width : nat)
    (e : ui_event) (v : View) :
  spinners_distinct v ->
  fetching_open fi spinner width v ->
  ~ closes fi e v ->
  runs_on v (exec (handle controller open_read yaml_load e) v).
Proof.
  intros (_ & _ & Hu & Hx & _) Hopen Hnot. destruct e; cbn [handle closes] in *.
  - assert (Hst : stable runs_on (CheckBox_toggle_state row)).
    { unfold CheckBox_toggle_state.
      repeat stable_step. apply running_CheckBox_set_state. }
    apply Hst.
  - apply running_load_info.
  - apply running_info_ready. intros fr d s w' Hfr Hfi Hd ->.
    apply Hnot. exists fr. split; [exact Hfr |].
    rewrite Hfi. f_equal. exact (Hu _ _ _ _ _ _ _ Hd Hopen).
  - apply running_load_callback. intros fr Hfr.
    exact (Hx _ _ _ _ _ _ Hopen Hfr).
  - apply running_FetchingInfo_close. intros s w' Hd ->.
    apply Hnot. exact (Hu _ _ _ _ _ _ _ Hd Hopen).
  - apply running_FetchingFailed_load.
  - apply running_FetchingFailed_close.
  - assert (Hst : stable runs_on (RadioButton_toggle_state k)).
    { unfold RadioButton_toggle_state, RadioButton_set_state,
        button_set_state, store_button, SnapInfoView_state_change.
      repeat stable_step;
        first [ apply running_CheckBox_set_state | running_done ]. }
    apply Hst.
  - assert (Hst : stable runs_on show_main_screen)
      by (unfold show_main_screen; running).
    apply Hst.
  - apply running_load.
  - assert (Hst : stable runs_on done) by (unfold done; running).
    apply Hst.
  - assert (Hst : stable runs_on cancel)
      by (unfold cancel, show_main_screen; running).
    apply Hst.
Qed.

(** While a call of [load] is not answered, the only event that stops
    its spinner is its callback. *)
Lemma running_handle_load controller open_read yaml_load (frame : nat)
    (fr : load_frame) (e : ui_event) (v : View) :
  spinners_distinct v ->
  load_frames v !! frame = Some fr ->
  lf_spinner fr = Some spinner ->
  (forall snap_list, e <> ListReady frame snap_list) ->
  runs_on v (exec (handle controller open_read yaml_load e) v).
Proof.
  intros (_ & _ & _ & Hx & Hl) Hfr Hs Hnot. destruct e; cbn [handle] in *.
  - assert (Hst : stable runs_on (CheckBox_toggle_state row)).
    { unfold CheckBox_toggle_state.
      repeat stable_step. apply running_CheckBox_set_state. }
    apply Hst.
  - apply running_load_info.
  - apply running_info_ready. intros fr' d s w' _ _ Hd ->.
    exact (Hx _ _ _ _ _ _ Hd Hfr Hs).
  - apply running_load_callback. intros fr' Hfr' Hs'.
    apply (Hnot snap_list). f_equal.
    exact (Hl _ _ _ _ _ Hfr' Hs' Hfr Hs).
  - apply running_FetchingInfo_close. intros s w' Hd ->.
    exact (Hx _ _ _ _ _ _ Hd Hfr Hs).
  - apply running_FetchingFailed_load.
  - apply running_FetchingFailed_close.
  - assert (Hst : stable runs_on (RadioButton_toggle_state k)).
    { unfold RadioButton_toggle_state, RadioButton_set_state,
        button_set_state, store_button, SnapInfoView_state_change.
      repeat stable_step;
        first [ apply running_CheckBox_set_state | running_done ]. }
    apply Hst.
  - assert (Hst : stable runs_on show_main_screen)
      by (unfold show_main_screen; running).
    apply Hst.
  - apply running_load.
  - assert (Hst : stable runs_on done) by (unfold done; running).
    apply Hst.
  - assert (Hst : stable runs_on cancel)
      by (unfold cancel, show_main_screen; running).
    apply Hst.
Qed.

End Running.

(** ** The spinner, from the fetch to its answer *)

Lemma own_callback_trace (v : View) (fi spinner width frame : nat)
    (fr : info_frame) (chans : list ChannelSnapInfo) :
  fetching_open fi spinner width v ->
  info_frames v !! frame = Some fr ->
  if_fi fr = Some fi ->
  exists evs,
    trace (exec (info_ready frame chans) v)
      = trace v ++ SpinnerStop spinner :: RemoveOverlay :: evs /\
    no_spinner_start evs.
Proof.
  intros Hopen Hfr Hfi.
  rewrite (exec_eq _ _ _ _ (info_ready_prefix v frame fr chans Hfr)).
  set (v1 := with_info_frames _ _).
  assert (Hd1 : dialogs v1 !! fi = Some (FetchingInfo false spinner width))
    by exact Hopen.
  unfold exec. rewrite run_bind, Hfi. cbn [close_fetching].
  rewrite (FetchingInfo_close_open v1 fi _ _ Hd1).
  set (v0 := with_w _ _).
  destruct (quiet_show_info (if_self fr) v0) as (evs & Ht & Hno).
  exists evs. split; [| exact Hno].
  unfold exec in Ht. rewrite Ht. subst v0 v1.
  cbn [trace with_w with_trace with_dialogs with_info_frames with_boxes].
  now rewrite <- !app_assoc.
Qed.

Lemma same_to_install_FetchingInfo_close d :
  stable (same to_install) (FetchingInfo_close d).
Proof. apply (same_to_install_close_fetching (Some d)). Qed.

Lemma own_callback_on_top (v : View) (fi spinner width frame width' : nat)
    (cur : widget) (fr : info_frame) (box : SnapCheckBox)
    (chans : list ChannelSnapInfo) :
  fetching_open fi spinner width v ->
  w v = Some (Overlay fi width' cur) ->
  info_frames v !! frame = Some fr ->
  boxes v !! if_self fr = Some box ->
  if_fi fr = Some fi ->
  let snap := set_channels chans (cb_snap box) in
  let v' := exec (info_ready frame chans) v in
  eval (info_ready frame chans) v = Ok tt /\
  dialogs v' !! fi = Some (FetchingInfo true spinner width) /\
  (chans = [] ->
   exists ff fw, ff <> fi /\ w v' = Some (Overlay ff fw cur)) /\
  (chans <> [] -> w v' = Some (DetailScreen (detail_of v snap))).
Proof.
  intros Hopen Hw Hfr Hbox Hfi snap v'.
  pose proof (FetchingInfo_close_open v fi _ _ Hopen) as Hclose.
  set (v0 := with_w _ _) in Hclose.
  assert (Hw0 : w v0 = Some cur)
    by (subst v0; cbn [w with_w with_trace with_dialogs]; now rewrite Hw).
  assert (Hclose' : close_fetching (if_fi fr) v = (Ok tt, v0))
    by (rewrite Hfi; exact Hclose).
  pose proof (info_ready_outcome v v0 frame fr box cur chans Hfr Hbox
                Hclose' Hw0) as Hrun.
  cbn zeta in Hrun. fold snap in Hrun.
  assert (Hlt : (fi < length (dialogs v))%nat)
    by (now apply lookup_lt_Some in Hopen).
  assert (Hd0 : dialogs v0 !! fi = Some (FetchingInfo true spinner width)).
  { subst v0. cbn [dialogs with_w with_trace with_dialogs].
    now apply list_lookup_insert_eq. }
  assert (Hlen : length (dialogs v0) = length (dialogs v)).
  { subst v0. cbn [dialogs with_w with_trace with_dialogs].
    apply length_insert. }
  subst v'. rewrite (eval_run _ _ _ _ Hrun), (exec_run _ _ _ _ Hrun).
  split; [reflexivity |].
  destruct chans as [| c chans];
    cbn [dialogs w with_w with_trace with_dialogs with_info_frames
         with_boxes].
  - split; [rewrite lookup_app_l by lia; exact Hd0 |].
    split; [| congruence].
    intros _. exists (length (dialogs v0)), (failed_width snap).
    split; [lia | reflexivity].
  - split; [exact Hd0 |]. split; [discriminate |].
    intros _. unfold detail_of.
    pose proof (same_to_install_FetchingInfo_close fi v) as Ht.
    unfold same in Ht. rewrite (exec_run _ _ _ _ Hclose) in Ht.
    now rewrite Ht.
Qed.

Lemma other_callback_on_top (v : View) (fi spinner width frame width' : nat)
    (cur : widget) (fr : info_frame) (box : SnapCheckBox)
    (chans : list ChannelSnapInfo) (d : nat) (closed : bool)
    (spinner' width'' : nat) :
  w v = Some (Overlay fi width' cur) ->
  info_frames v !! frame = Some fr ->
  boxes v !! if_self fr = Some box ->
  if_fi fr = Some d ->
  dialogs v !! d = Some (FetchingInfo closed spinner' width'') ->
  let snap := set_channels chans (cb_snap box) in
  let v' := exec (info_ready frame chans) v in
  let under := if closed then Overlay fi width' cur else cur in
  eval (info_ready frame chans) v = Ok tt /\
  (chans = [] ->
   exists ff fw,
     w v' = Some (Overlay ff fw under) /\
     dialogs v' !! ff = Some (FetchingFailed false (if_self fr) fw)) /\
  (chans <> [] -> w v' = Some (DetailScreen (detail_of v snap))).
Proof.
  intros Hw Hfr Hbox Hfi Hd snap v' under.
  assert (Hclose : exists v0,
            close_fetching (if_fi fr) v = (Ok tt, v0) /\
            w v0 = Some under /\ to_install v0 = to_install v).
  { rewrite Hfi. cbn [close_fetching]. destruct closed.
    - exists v. rewrite (FetchingInfo_close_closed v d _ _ Hd). auto.
    - eexists. rewrite (FetchingInfo_close_open v d _ _ Hd).
      split; [reflexivity |].
      cbn [w to_install with_w with_trace with_dialogs]. now rewrite Hw. }
  destruct Hclose as (v0 & Hclose & Hw0 & Ht).
  pose proof (info_ready_outcome v v0 frame fr box under chans Hfr Hbox
                Hclose Hw0) as Hrun.
  cbn zeta in Hrun. fold snap in Hrun.
  subst v'. rewrite (eval_run _ _ _ _ Hrun), (exec_run _ _ _ _ Hrun).
  split; [reflexivity |].
  destruct chans as [| c chans];
    cbn [dialogs w with_w with_trace with_dialogs with_info_frames
         with_boxes].
  - split; [| congruence].
    intros _. exists (length (dialogs v0)), (failed_width snap).
    split; [reflexivity | apply lookup_snoc].
  - split; [discriminate |].
    intros _. unfold detail_of. now rewrite Ht.
Qed.

Lemma uncalled_load_frame (v : View) (frame : nat) :
  is_uncalled_load v frame = true ->
  exists fr, load_frames v !! frame = Some fr /\ lf_called fr = false.
Proof.
  unfold is_uncalled_load. destruct (load_frames v !! frame) as [fr |];
    [| discriminate].
  intros H. exists fr. split; [reflexivity |].
  now apply negb_true_iff in H.
Qed.

(** While a call of [load] is not answered, an event that is not its
    callback leaves the loading screen and its spinner as they are. *)
Lemma loading_step controller open_read yaml_load (v : View) (frame : nat)
    (fr : load_frame) (spinner : nat) (e : ui_event) :
  reachable controller open_read yaml_load v ->
  load_frames v !! frame = Some fr ->
  lf_called fr = false ->
  lf_spinner fr = Some spinner ->
  w v = Some (LoadingScreen spinner) ->
  enabled e v = true ->
  (forall snap_list, e <> ListReady frame snap_list) ->
  let v' := exec (handle controller open_read yaml_load e) v in
  load_frames v' !! frame = Some fr /\
  w v' = Some (LoadingScreen spinner) /\
  stops_not spinner v v'.
Proof.
  intros Hr Hfr Hun Hs Hw He Hnot v'.
  pose proof (reachable_spinners_distinct _ _ _ _ Hr) as Hdist.
  assert (Hrun : stops_not spinner v v')
    by (now apply (running_handle_load spinner _ _ _ frame fr)).
  assert (Hstep : builds e = false -> event_ok e ->
                  load_frames v' !! frame = Some fr /\
                  w v' = Some (LoadingScreen spinner)).
  { intros Hb Hok.
    pose proof (same_load_frames_handle controller open_read yaml_load e Hb v)
      as Hsame.
    unfold same in Hsame. fold v' in Hsame.
    assert (Hfr' : load_frames v' !! frame = Some fr) by now rewrite Hsame.
    split; [exact Hfr' |].
    assert (Hr' : reachable controller open_read yaml_load v')
      by (now apply reachable_event).
    destruct (reachable_loading_shown _ _ _ _ Hr' frame fr Hfr' Hun)
      as (s' & Hs' & Hw').
    rewrite Hw'. congruence. }
  destruct (enabled_on_loading v spinner e Hw He)
    as [(f' & l & ->) | [(f' & chans & ->) | ->]].
  - exfalso. unfold enabled in He.
    assert (Hun' : is_uncalled_load v f' = true)
      by (destruct (w v) as [[] |]; exact He).
    destruct (uncalled_load_frame v f' Hun') as (fr' & Hfr' & Hc').
    destruct (reachable_loading_shown _ _ _ _ Hr f' fr' Hfr' Hc')
      as (s' & Hs' & Hw').
    assert (s' = spinner) by congruence. subst s'.
    destruct Hdist as (_ & _ & _ & _ & Hl).
    apply (Hnot l). f_equal. exact (Hl _ _ _ _ _ Hfr' Hs' Hfr Hs).
  - destruct Hstep as [H1 H2]; [reflexivity | exact I |]. auto.
  - destruct Hstep as [H1 H2]; [reflexivity | exact I |]. auto.
Qed.

(** With a fetching dialog on top, the events are its Cancel button and
    the callbacks of [load_info]. *)
Lemma enabled_on_open_dialog controller open_read yaml_load (v : View)
    (fi spinner width width' : nat) (cur : widget) (e : ui_event) :
  reachable controller open_read yaml_load v ->
  fetching_open fi spinner width v ->
  w v = Some (Overlay fi width' cur) ->
  enabled e v = true ->
  (exists frame chans, e = InfoReady frame chans) \/
  e = PressCancelFetching fi.
Proof.
  intros Hr Hopen Hw He.
  destruct (enabled_on_fetching v fi width' cur _ _ _ e Hw Hopen He)
    as [(f' & l & ->) | [H | H]]; [| now left | now right].
  exfalso. unfold enabled in He.
  assert (Hun' : is_uncalled_load v f' = true)
    by (destruct (w v) as [[] |]; exact He).
  destruct (uncalled_load_frame v f' Hun') as (fr' & Hfr' & Hc').
  destruct (reachable_loading_shown _ _ _ _ Hr f' fr' Hfr' Hc')
    as (s' & _ & Hw').
  congruence.
Qed.

(** C5, as the specification states it, fails for [load_info], in two
    ways.  The fetching dialog has a Cancel button: pressing it before
    the controller has invoked the callback stops the spinner and
    removes the dialog.  And the callback of a fetch that was cancelled
    is still invoked when its answer comes: with Enter on A, Cancel,
    Enter on C, the channels of A arrive while those of C are being
    fetched, and the detail view of A replaces the screen; the dialog of
    C is no longer shown, though its callback was not invoked, and its
    spinner was not stopped. *)
Lemma spinner_not_shown_counterexample :
  (enabled (PressCancelFetching 0) Session.fetching = true /\
   is_uncalled_info Session.cancelled 0 = true /\
   trace Session.cancelled
     = trace Session.fetching ++ [SpinnerStop 0; RemoveOverlay] /\
   w Session.cancelled = w Session.main) /\
  (enabled (KeyEnter 1 Async) Session.cancelled = true /\
   w Session.refetching
     = Some (Overlay 1 23 (MainScreen 0
               (rows_of 0 [Session.snap "A"; Session.snap "C"]))) /\
   enabled (InfoReady 0 [Session.stable; Session.edge]) Session.refetching
     = true /\
   is_uncalled_info Session.late 1 = true /\
   dialogs Session.late !! 1%nat = Some (FetchingInfo false 1 23) /\
   w Session.late = Some (DetailScreen Session.detail_A) /\
   trace Session.late
     = trace Session.cancelled ++
       [GetSnapInfo "C" 1; SpinnerStart 1; ShowOverlay 1 23;
        SetHeader (SnapTitle "A" "Canonical" true)]).
Proof. vm_compute. repeat split; reflexivity. Qed.

(** C5, amended. A call of [load] or [load_info] during which the
    controller invokes the callback starts no spinner: none of the calls
    it makes is [SpinnerStart].  A call during which the callback is not
    invoked creates a spinner, starts it and shows it: the loading
    screen, or the fetching dialog over the current screen.

    The loading screen is shown, and its spinner is not stopped, until
    the callback of [load] is invoked: no other event changes the
    screen or stops the spinner.  The callback stops the spinner first,
    starts no other, and leaves the loading screen when it returns.

    The fetching dialog stays open, and its spinner is not stopped,
    until an event runs its [close]: its Cancel button, or the callback
    of its [load_info].  Both stop the spinner and remove the overlay,
    and the callback starts no other spinner.  While the dialog is on
    top of the screen, the events are its Cancel button and the
    callbacks of [load_info]: Cancel gives the screen under the dialog
    back; its own callback closes it, and shows the failure dialog over
    that screen or the detail view; the callback of another [load_info]
    leaves the dialog open and its spinner running, but covers it with
    a failure dialog or replaces the screen by a detail view, after
    removing the overlay on top when the fetching dialog of that
    callback is not closed. *)
Theorem spinner_runs_until_closed (controller : Controller)
    (open_read : string -> result string)
    (yaml_load : string -> result yaml) :
  (forall v snap_list,
     starts_no_spinner v
       (exec (load controller open_read yaml_load (Sync snap_list)) v)) /\
  (forall v row chans,
     starts_no_spinner v (exec (load_info row (Sync chans)) v)) /\
  (forall v,
     let v1 := exec (load controller open_read yaml_load Async) v in
     eval (load controller open_read yaml_load Async) v = Ok tt /\
     trace v1 = trace v ++ [GetSnapList (length (load_frames v));
                            SpinnerStart (spinners v)] /\
     load_frames v1 !! length (load_frames v)
       = Some {| lf_spinner := Some (spinners v); lf_called := false |} /\
     w v1 = Some (LoadingScreen (spinners v))) /\
  (forall v frame fr,
     reachable controller open_read yaml_load v ->
     load_frames v !! frame = Some fr ->
     lf_called fr = false ->
     exists spinner,
       lf_spinner fr = Some spinner /\
       w v = Some (LoadingScreen spinner) /\
       (forall e,
          enabled e v = true ->
          (forall snap_list, e <> ListReady frame snap_list) ->
          let v' := exec (handle controller open_read yaml_load e) v in
          load_frames v' !! frame = Some fr /\
          w v' = Some (LoadingScreen spinner) /\
          stops_not spinner v v') /\
       forall snap_list,
         let callback :=
           load_callback controller open_read yaml_load frame snap_list in
         (exists evs,
            trace (exec callback v) = trace v ++ SpinnerStop spinner :: evs /\
            no_spinner_start evs) /\
         (eval callback v = Ok tt ->
          w (exec callback v) <> Some (LoadingScreen spinner))) /\
  (forall v row box cur,
     boxes v !! row = Some box ->
     w v = Some cur ->
     let v1 := exec (load_info row Async) v in
     let fi := length (dialogs v) in
     let width := fetching_width (cb_snap box) in
     eval (load_info row Async) v = Ok tt /\
     trace v1 = trace v ++ [GetSnapInfo (name (cb_snap box))
                              (length (info_frames v));
                            SpinnerStart (spinners v);
                            ShowOverlay fi width] /\
     info_frames v1 !! length (info_frames v)
       = Some {| if_self := row; if_called := false; if_fi := Some fi |} /\
     fetching_open fi (spinners v) width v1 /\
     w v1 = Some (Overlay fi width cur)) /\
  (forall v fi spinner width,
     reachable controller open_read yaml_load v ->
     fetching_open fi spinner width v ->
     (forall e,
        ~ closes fi e v ->
        let v' := exec (handle controller open_read yaml_load e) v in
        fetching_open fi spinner width v' /\ stops_not spinner v v') /\
     (let v' := exec (FetchingInfo_close fi) v in
      trace v' = trace v ++ [SpinnerStop spinner; RemoveOverlay] /\
      dialogs v' !! fi = Some (FetchingInfo true spinner width)) /\
     (forall frame fr chans,
        info_frames v !! frame = Some fr ->
        if_fi fr = Some fi ->
        exists evs,
          trace (exec (info_ready frame chans) v)
            = trace v ++ SpinnerStop spinner :: RemoveOverlay :: evs /\
          no_spinner_start evs) /\
     forall width' cur,
       w v = Some (Overlay fi width' cur) ->
       (forall e,
          enabled e v = true ->
          (exists frame chans, e = InfoReady frame chans) \/
          e = PressCancelFetching fi) /\
       w (exec (FetchingInfo_close fi) v) = Some cur /\
       forall frame fr box chans,
         info_frames v !! frame = Some fr ->
         boxes v !! if_self fr = Some box ->
         let snap := set_channels chans (cb_snap box) in
         let v' := exec (info_ready frame chans) v in
         (if_fi fr = Some fi ->
          eval (info_ready frame chans) v = Ok tt /\
          dialogs v' !! fi = Some (FetchingInfo true spinner width) /\
          (chans = [] ->
           exists ff fw, ff <> fi /\ w v' = Some (Overlay ff fw cur)) /\
          (chans <> [] -> w v' = Some (DetailScreen (detail_of v snap)))) /\
         (forall d closed spinner' width'',
            if_fi fr = Some d ->
            d <> fi ->
            dialogs v !! d = Some (FetchingInfo closed spinner' width'') ->
            let under := if closed then Overlay fi width' cur else cur in
            eval (info_ready frame chans) v = Ok tt /\
            fetching_open fi spinner width v' /\
            stops_not spinner v v' /\
            (chans = [] ->
             exists ff fw,
               w v' = Some (Overlay ff fw under) /\
               dialogs v' !! ff
                 = Some (FetchingFailed false (if_self fr) fw)) /\
            (chans <> [] ->
             w v' = Some (DetailScreen (detail_of v snap))))).
Proof.
  split; [intros v l; apply quiet_load_sync |].
  split; [intros v row chans; apply quiet_load_info_sync |].
  split.
  { intros v. cbn zeta.
    pose proof (load_async controller open_read yaml_load v) as Hrun.
    rewrite (eval_run _ _ _ _ Hrun), (exec_run _ _ _ _ Hrun).
    cbn [trace load_frames w with_w with_trace with_load_frames
         with_spinners].
    split; [reflexivity |].
    split; [now rewrite <- !app_assoc |].
    split; [| reflexivity].
    rewrite list_lookup_alter_eq, lookup_snoc. reflexivity. }
  split.
  { intros v frame fr Hr Hfr Hun.
    destruct (reachable_loading_shown _ _ _ _ Hr frame fr Hfr Hun)
      as (spinner & Hs & Hw).
    exists spinner. split; [exact Hs |]. split; [exact Hw |].
    split.
    { intros e He Hnot.
      now apply (loading_step controller open_read yaml_load v frame fr). }
    intros snap_list. cbn zeta.
    pose proof (load_callback_prefix controller open_read yaml_load frame fr
                  snap_list v Hfr) as Hcb.
    rewrite Hs in Hcb. cbn [stop_events] in Hcb.
    set (v2 := with_trace _ _) in Hcb.
    rewrite (exec_eq _ _ _ _ Hcb), (eval_eq _ _ _ _ Hcb).
    split.
    - destruct (quiet_show_list controller open_read yaml_load snap_list v2)
        as (evs & Ht & Hno).
      exists evs. rewrite Ht. subst v2.
      cbn [trace with_trace with_load_frames]. rewrite <- app_assoc.
      split; [reflexivity | exact Hno].
    - intros Hok. now apply show_list_leaves_loading. }
  split.
  { intros v row box cur Hbox Hw. cbn zeta.
    pose proof (load_info_async v row box cur Hbox Hw) as Hrun.
    rewrite (eval_run _ _ _ _ Hrun), (exec_run _ _ _ _ Hrun).
    unfold fetching_open.
    cbn [trace info_frames dialogs w with_w with_trace with_info_frames
         with_dialogs with_spinners].
    split; [reflexivity |].
    split; [now rewrite <- !app_assoc |].
    split; [rewrite list_lookup_alter_eq, lookup_snoc; reflexivity |].
    split; [apply lookup_snoc | reflexivity]. }
  intros v fi spinner width Hr Hopen.
  pose proof (reachable_spinners_distinct _ _ _ _ Hr) as Hdist.
  pose proof (FetchingInfo_close_open v fi _ _ Hopen) as Hclose.
  split.
  { intros e Hnot. cbn zeta. split.
    - now apply open_handle.
    - now apply (running_handle spinner _ _ _ fi width). }
  split.
  { cbn zeta. rewrite (exec_run _ _ _ _ Hclose).
    cbn [trace dialogs with_w with_trace with_dialogs].
    split; [now rewrite <- app_assoc |].
    apply list_lookup_insert_eq. now apply lookup_lt_Some in Hopen. }
  split.
  { intros frame fr chans Hfr Hfi.
    now apply (own_callback_trace v fi spinner width frame fr). }
  intros width' cur Hw.
  split.
  { intros e He.
    now apply (enabled_on_open_dialog controller open_read yaml_load v fi
                 spinner width width' cur). }
  split.
  { rewrite (exec_run _ _ _ _ Hclose).
    cbn [w with_w with_trace with_dialogs]. now rewrite Hw. }
  intros frame fr box chans Hfr Hbox. cbn zeta. split.
  - intros Hfi.
    now apply (own_callback_on_top v fi spinner width frame width' cur fr box).
  - intros d closed spinner' width'' Hfi Hne Hd.
    assert (Hnot : ~ closes fi (InfoReady frame chans) v).
    { cbn [closes]. intros (fr' & Hfr' & Hfi'). congruence. }
    destruct (other_callback_on_top v fi spinner width frame width' cur fr
                box chans d closed spinner' width'' Hw Hfr Hbox Hfi Hd)
      as (Hok & Hfailed & Hdetail).
    split; [exact Hok |].
    split; [exact (open_handle fi spinner width controller open_read
                     yaml_load (InfoReady frame chans) v Hnot Hopen) |].
    split; [exact (running_handle spinner controller open_read yaml_load
                     fi width (InfoReady frame chans) v Hdist Hopen Hnot) |].
    split; [exact Hfailed | exact Hdetail].
Qed.

Lemma spinner_runs_until_closed_witness :
  (exists spinner,
     w (SnapListView_init Session.controller Session.open_read
          Session.yaml_load Async) = Some (LoadingScreen spinner)) /\
  fetching_open 0 0 23 Session.fetching /\
  (fetching_open 1 1 23 Session.late /\
   stops_not 1 Session.refetching Session.late) /\
  w Session.late = Some (DetailScreen Session.detail_A) /\
  w (exec (FetchingInfo_close 1) Session.refetching) = w Session.main.
Proof.
  assert (Hloading : reachable Session.controller Session.open_read
                       Session.yaml_load
                       (SnapListView_init Session.controller
                          Session.open_read Session.yaml_load Async)).
  { apply reachable_init. exact I. }
  assert (Hmain : reachable Session.controller Session.open_read
                    Session.yaml_load Session.main).
  { apply reachable_init. cbn [answer_ok]. unfold distinct_names.
    apply (bool_decide_unpack _). vm_compute. exact I. }
  assert (Hfetching : reachable Session.controller Session.open_read
                        Session.yaml_load Session.fetching).
  { apply (reachable_event _ _ _ _ (KeyEnter 0 Async) Hmain);
      [reflexivity | exact I]. }
  assert (Hcancelled : reachable Session.controller Session.open_read
                         Session.yaml_load Session.cancelled).
  { apply (reachable_event _ _ _ _ (PressCancelFetching 0) Hfetching);
      [reflexivity | exact I]. }
  assert (Hrefetching : reachable Session.controller Session.open_read
                          Session.yaml_load Session.refetching).
  { apply (reachable_event _ _ _ _ (KeyEnter 1 Async) Hcancelled);
      [reflexivity | exact I]. }
  destruct (spinner_runs_until_closed Session.controller Session.open_read
              Session.yaml_load) as (_ & _ & _ & Hload & Hinfo & H).
  split.
  { destruct (Hload _ 0%nat {| lf_spinner := Some 0%nat; lf_called := false |}
                Hloading eq_refl eq_refl)
      as (spinner & _ & Hw & _).
    exists spinner. exact Hw. }
  split.
  { destruct (Hinfo Session.main 0%nat (new_box (Session.snap "A"))
                (MainScreen 0
                   (rows_of 0 [Session.snap "A"; Session.snap "C"]))
                eq_refl eq_refl)
      as (_ & _ & _ & Hopen & _).
    exact Hopen. }
  destruct (H Session.refetching 1%nat 1%nat 23%nat Hrefetching eq_refl)
    as (_ & _ & _ & Htop).
  destruct (Htop 23%nat
              (MainScreen 0 (rows_of 0 [Session.snap "A"; Session.snap "C"]))
              eq_refl)
    as (_ & Hcancel & Hcb).
  destruct (Hcb 0%nat
              {| if_self := 0; if_called := false; if_fi := Some 0%nat |}
              (new_box (Session.snap "A")) [Session.stable; Session.edge]
              eq_refl eq_refl)
    as (_ & Hother).
  destruct (Hother 0%nat true 0%nat 23%nat eq_refl ltac:(discriminate) eq_refl)
    as (_ & Hopen & Hruns & _ & Hdetail).
  split; [split; [exact Hopen | exact Hruns] |].
  split; [apply Hdetail; discriminate | exact Hcancel].
Defined.

(** * Further properties *)

(** ** The layout of the detail view *)

(** X1. Whatever the size of the screen, the description can take the
    focus or the information table leaves a column for the scroll bar,
    or both, exactly when the rows wanted by the two panels do not fit
    in the rows available. *)
Theorem layout_clipped_iff_no_fit (rows_available wanted_description
    wanted_channels : Z) :
  let l := layout rows_available wanted_description wanted_channels in
  wanted_channels + wanted_description <= rows_available <->
  selectable l = false /\ padding_right l = 0.
Proof.
  cbn zeta. unfold layout, render_selectable, render_padding_right.
  cbn [selectable padding_right].
  destruct (render_rows_branches rows_available wanted_description
              wanted_channels)
    as [[Hfit ->] | [(Hno & _ & ->) | (Hno & _ & ->)]];
    cbn [fst snd].
  - rewrite !Z.leb_refl. split; [auto | lia].
  - rewrite Z.leb_refl.
    destruct (Z.leb_spec wanted_channels (rows_available - wanted_description));
      [lia |].
    split; [lia | intros [_ [=]]].
  - set (c := Z.max _ 3).
    destruct (Z.leb_spec wanted_description (rows_available - c)),
             (Z.leb_spec wanted_channels c);
      split; try lia; intros [? ?]; congruence.
Qed.

(** X2. Up to [3 * 2^51] rows, no panel is allotted more rows than it
    wants, but for the three rows that the channel list gets at least
    when the description wants two thirds of the screen. *)
Theorem rows_within_wants (rows_available wanted_description
    wanted_channels : Z) :
  Z.abs rows_available <= 3 * 2 ^ 51 ->
  let l := layout rows_available wanted_description wanted_channels in
  description_rows l <= wanted_description /\
  channel_rows l <= Z.max wanted_channels 3.
Proof.
  intros Hsize. cbn zeta. unfold layout. cbn [description_rows channel_rows].
  destruct (render_rows_branches rows_available wanted_description
              wanted_channels)
    as [[Hfit ->] | [(Hno & Hlt & ->) | (Hno & Hlt & ->)]];
    cbn [fst snd]; try lia.
  rewrite int_lt_nearest_exact in Hlt by lia. apply Z.ltb_ge in Hlt.
  destruct (Z_lt_le_dec rows_available 0) as [Hneg | Hpos].
  - pose proof (third_below rows_available). lia.
  - rewrite int_nearest_exact by lia.
    assert (rows_available - wanted_description <= rows_available / 3)
      by (apply Z.div_le_lower_bound; lia).
    lia.
Qed.

Lemma rows_within_wants_witness :
  description_rows (layout 12 9 7) <= 9 /\ channel_rows (layout 12 9 7) <= 7.
Proof.
  destruct (rows_within_wants 12 9 7) as [Hd Hc]; [vm_compute; discriminate |].
  split; [exact Hd | exact Hc].
Defined.

(** X3. For panels that want no negative number of rows, the channel
    list is never given a negative number of rows, and at least one row
    when the wants do not fit; the description is given a negative
    number of rows exactly when the wants do not fit, it wants two thirds
    of the rows available, and fewer than three rows are available. *)
Theorem rows_negative_iff (rows_available wanted_description
    wanted_channels : Z) :
  0 <= wanted_description -> 0 <= wanted_channels ->
  let l := layout rows_available wanted_description wanted_channels in
  0 <= channel_rows l /\
  (rows_available < wanted_description + wanted_channels ->
   1 <= channel_rows l) /\
  (description_rows l < 0 <->
   rows_available < wanted_description + wanted_channels /\
   2 * rows_available <= 3 * wanted_description /\
   rows_available < 3).
Proof.
  intros Ha Hb. cbn zeta. unfold layout. cbn [description_rows channel_rows].
  destruct (render_rows_branches rows_available wanted_description
              wanted_channels)
    as [[Hfit ->] | [(Hno & Hlt & ->) | (Hno & Hlt & ->)]];
    cbn [fst snd]; [lia | |].
  - assert (Hpos : 0 < rows_available).
    { destruct (Z_lt_le_dec 0 rows_available) as [| Hle]; [assumption |].
      pose proof (two_thirds_of_none rows_available wanted_description Hle Hlt). lia. }
    pose proof (two_thirds_below rows_available wanted_description 0 ltac:(lia) ltac:(lia) Hlt) as Hbelow.
    split; [lia |]. split; [lia |]. split; [lia |].
    intros (_ & Hwant & Hfew).
    rewrite int_lt_nearest_exact in Hlt by lia. apply Z.ltb_lt in Hlt. lia.
  - pose proof (third_below rows_available) as Hthird.
    split; [lia |]. split; [lia |]. split.
    + intros Hnegative.
      assert (Hfew : rows_available < 3) by lia.
      split; [lia |]. split; [| lia].
      destruct (Z_le_gt_dec 0 rows_available) as [Hle | Hneg]; [| lia].
      rewrite int_lt_nearest_exact in Hlt by lia. apply Z.ltb_ge in Hlt. lia.
    + lia.
Qed.

Lemma rows_negative_iff_witness :
  description_rows (layout 2 2 1) < 0 /\ 1 <= channel_rows (layout 2 2 1).
Proof.
  destruct (rows_negative_iff 2 2 1) as (_ & Hc & Hd); [lia | lia |].
  split; [apply Hd; lia | apply Hc; lia].
Defined.

(** ** Relative times *)

(** X4. The clock is not consulted for the sign: a datetime that is in
    the future for the clock is formatted as ["just now"]. *)
Theorem format_datetime_future (now : datetime)
    (str_date : datetime -> string) (d : datetime) :
  now < d -> format_datetime now str_date d = "just now".
Proof. intros H. apply format_datetime_just_now. lia. Qed.

Lemma format_datetime_future_witness :
  format_datetime 1525132800000000 (fun _ => "2018-05-02") 1525219200000000
    = "just now".
Proof. apply format_datetime_future. reflexivity. Defined.

Lemma string_length_app (s1 s2 : string) :
  String.length (s1 +:+ s2) = (String.length s1 + String.length s2)%nat.
Proof.
  induction s1 as [| c s1 IH]; [reflexivity |].
  change (S (String.length (s1 +:+ s2))
          = S (String.length s1 + String.length s2)).
  now rewrite IH.
Qed.

Lemma rjust_two_digits (n : Z) :
  1 <= n <= 99 -> String.length (rjust 2 (str_of_int n)) = 2%nat.
Proof.
  intros Hn.
  assert (Hk : exists k : nat, (k < 99)%nat /\ n = Z.of_nat (S k)).
  { exists (Z.to_nat (n - 1)). split; lia. }
  destruct Hk as (k & Hk & ->). clear Hn.
  do 99 (destruct k as [| k]; [reflexivity |]). lia.
Qed.

(** X5. Between a minute and thirty days, the amount shown is never
    zero and has at most two digits: at most 59 minutes, 23 hours or 29
    days.  So the amount always fills the two characters of its field,
    and the text is those two characters, a space, the unit and
    [" ago"]. *)
Theorem format_datetime_two_characters (now : datetime)
    (str_date : datetime -> string) (d : datetime) :
  60 * 10 ^ 6 <= now - d < 30 * (86400 * 10 ^ 6) ->
  exists (amount : Z) (unit : string),
    format_datetime now str_date d = format_ago amount unit /\
    ((1 <= amount <= 59 /\ (unit = "minute" \/ unit = "minutes")) \/
     (1 <= amount <= 23 /\ (unit = "hour" \/ unit = "hours")) \/
     (1 <= amount <= 29 /\ (unit = "day" \/ unit = "days"))) /\
    String.length (rjust 2 (str_of_int amount)) = 2%nat /\
    String.length (format_datetime now str_date d)
      = (2 + 1 + String.length unit + 4)%nat.
Proof.
  change (60 * 10 ^ 6) with 60000000.
  change (30 * (86400 * 10 ^ 6)) with 2592000000000.
  intros Hus.
  assert (Hlen : forall amount unit,
             String.length (rjust 2 (str_of_int amount)) = 2%nat ->
             String.length (format_ago amount unit)
               = (2 + 1 + String.length unit + 4)%nat).
  { intros amount unit H2. unfold format_ago.
    rewrite !string_length_app, H2. cbn. lia. }
  destruct (Z_lt_le_dec (now - d) 3600000000) as [Hm | Hm];
    [| destruct (Z_lt_le_dec (now - d) 86400000000) as [Hh | Hh]].
  - assert (1 <= (now - d) / 60000000 <= 59).
    { split; [apply Z.div_le_lower_bound; lia |].
      apply Z.lt_succ_r. apply Z.div_lt_upper_bound; lia. }
    eexists _, _. rewrite format_datetime_minutes by lia.
    split; [reflexivity |].
    assert (H2 := rjust_two_digits ((now - d) / 60000000) ltac:(lia)).
    split; [left; split; [assumption | destruct (_ =? 1); auto] |].
    split; [exact H2 | now apply Hlen].
  - assert (1 <= (now - d) / 3600000000 <= 23).
    { split; [apply Z.div_le_lower_bound; lia |].
      apply Z.lt_succ_r. apply Z.div_lt_upper_bound; lia. }
    eexists _, _. rewrite format_datetime_hours by lia.
    split; [reflexivity |].
    assert (H2 := rjust_two_digits ((now - d) / 3600000000) ltac:(lia)).
    split; [right; left; split; [assumption | destruct (_ =? 1); auto] |].
    split; [exact H2 | now apply Hlen].
  - assert (1 <= (now - d) / 86400000000 <= 29).
    { split; [apply Z.div_le_lower_bound; lia |].
      apply Z.lt_succ_r. apply Z.div_lt_upper_bound; lia. }
    eexists _, _. rewrite format_datetime_days by lia.
    split; [reflexivity |].
    assert (H2 := rjust_two_digits ((now - d) / 86400000000) ltac:(lia)).
    split; [right; right; split; [assumption | destruct (_ =? 1); auto] |].
    split; [exact H2 | now apply Hlen].
Qed.

Lemma format_datetime_two_characters_witness :
  exists (amount : Z) (unit : string),
    format_datetime 1525132800000000 (fun _ => "2018-04-30") 1525125600000000
      = format_ago amount unit /\
    String.length (rjust 2 (str_of_int amount)) = 2%nat.
Proof.
  destruct (format_datetime_two_characters 1525132800000000
              (fun _ => "2018-04-30") 1525125600000000)
    as (amount & unit & Hf & _ & H2 & _); [vm_compute; split; congruence |].
  exists amount, unit. split; [exact Hf | exact H2].
Defined.

(** ** The seed manifest *)

Lemma substring_all (s : string) : String.substring 0 (String.length s) s = s.
Proof. induction s as [| c s IH]; cbn; [reflexivity | now rewrite IH]. Qed.

Lemma prefix_empty (s : string) : String.prefix "" s = true.
Proof. destruct s; reflexivity. Qed.

(** X6. Out of a dry run, with the single install source [cp://path],
    the seed is read from [path/var/lib/snapd/seed/seed.yaml]: its text
    is returned, an exception of [open] other than [FileNotFoundError]
    is raised as it is, and [FileNotFoundError] ends in
    [UnboundLocalError]. *)
Theorem get_seed_yaml_of_source (controller : Controller)
    (open_read : string -> result string) (path : string) :
  dry_run controller = false ->
  sources controller = ["cp://" +:+ path] ->
  get_seed_yaml controller open_read =
  match open_read (os_path_join path "var/lib/snapd/seed/seed.yaml") with
  | Ok text => Ok text
  | Raise FileNotFoundError => Raise (UnboundLocalError "fp")
  | Raise e => Raise e
  end.
Proof.
  intros Hdry Hsrc. unfold get_seed_yaml. rewrite Hdry, Hsrc.
  change (String.prefix "cp://" ("cp://" +:+ path))
    with (String.prefix "" path).
  rewrite prefix_empty.
  change (String.substring 5 (String.length ("cp://" +:+ path) - 5)
            ("cp://" +:+ path))
    with (String.substring 0 (String.length path - 0) path).
  rewrite Nat.sub_0_r, substring_all. cbn [local mbind result_bind].
  destruct (open_read _) as [text | []]; reflexivity.
Qed.

Lemma get_seed_yaml_of_source_witness :
  get_seed_yaml
    {| sources := ["cp:///media/filesystem"]; dry_run := false |}
    (fun p => if String.eqb p "/media/filesystem/var/lib/snapd/seed/seed.yaml"
              then Ok "snaps: []" else Raise FileNotFoundError)
  = Ok "snaps: []".
Proof.
  rewrite (get_seed_yaml_of_source _ _ "/media/filesystem");
    reflexivity.
Defined.

(** X7. In a dry run the built-in seed is returned whatever the install
    sources are, and no file is opened.  Out of a dry run, install
    sources that are not one source that starts with [cp://] make
    [get_seed_yaml] raise [UnboundLocalError], for the variable [source],
    before any file is opened. *)
Theorem get_seed_yaml_without_source (controller : Controller)
    (open_read : string -> result string) :
  (dry_run controller = true ->
   get_seed_yaml controller open_read = Ok dry_run_seed) /\
  (dry_run controller = false ->
   (forall s0, sources controller = [s0] -> String.prefix "cp://" s0 = false) ->
   get_seed_yaml controller open_read = Raise (UnboundLocalError "source")).
Proof.
  unfold get_seed_yaml. split.
  - intros ->. reflexivity.
  - intros -> Hsrc.
    destruct (sources controller) as [| s0 [| s1 l]] eqn:E; try reflexivity.
    rewrite (Hsrc s0 eq_refl). reflexivity.
Qed.

Lemma get_seed_yaml_without_source_witness :
  get_seed_yaml {| sources := ["http://example.org/a.squashfs"];
                   dry_run := false |}
    (fun _ => Ok "snaps: []")
  = Raise (UnboundLocalError "source").
Proof.
  apply get_seed_yaml_without_source.
  - reflexivity.
  - intros s0 [= <-]. reflexivity.
Defined.

Lemma collect_names_entries (items : list yaml) :
  forallb is_entry items = true ->
  forall acc, collect_names items acc = Ok (manifest_names items ∪ acc).
Proof.
  unfold manifest_names.
  induction items as [| item items IH]; intros Hall acc.
  - cbn. f_equal. set_solver.
  - cbn [forallb] in Hall. apply andb_true_iff in Hall as [Hitem Hall].
    cbn [collect_names]. destruct item as [| | | | | e]; try discriminate.
    cbn [yaml_get mbind result_bind omap list_omap entry_key is_entry] in *.
    destruct (assoc "name" e) as [[| b | n | s | l | d] |];
      cbn [default from_option id truthy]; try discriminate.
    + cbn [mbind result_bind]. now rewrite IH.
    + destruct b; cbn [names_add mbind result_bind].
      * rewrite IH by assumption. f_equal. cbn [list_to_set]. set_solver.
      * now rewrite IH.
    + destruct (n =? 0); cbn [negb names_add mbind result_bind].
      * now rewrite IH.
      * rewrite IH by assumption. f_equal. cbn [list_to_set]. set_solver.
    + destruct (String.eqb s ""); cbn [negb names_add mbind result_bind].
      * now rewrite IH.
      * rewrite IH by assumption. f_equal. cbn [list_to_set]. set_solver.
    + cbn [mbind result_bind]. now rewrite IH.
Qed.

Lemma elem_of_manifest_names (items : list yaml) (k : key) :
  k ∈ manifest_names items <->
  exists e, YDict e ∈ items /\
    match k with
    | KStr n => n <> "" /\ assoc "name" e = Some (YStr n)
    | KInt n =>
        n <> 0 /\
        (assoc "name" e = Some (YInt n) \/
         n = 1 /\ assoc "name" e = Some (YBool true))
    | KNone => False
    end.
Proof.
  unfold manifest_names. rewrite elem_of_list_to_set, list_elem_of_omap.
  split.
  - intros (item & Hin & Hname). destruct item as [| | | | | e]; try discriminate.
    exists e. split; [exact Hin |]. cbn in Hname.
    destruct (assoc "name" e) as [[| b | n | s | |] |] eqn:E;
      try discriminate.
    + destruct b; [| discriminate]. injection Hname as <-.
      split; [discriminate | right; auto].
    + destruct (Z.eqb_spec n 0); [discriminate |].
      injection Hname as <-. auto.
    + destruct (String.eqb_spec s ""); [discriminate |].
      injection Hname as <-. auto.
  - intros (e & Hin & Hk). exists (YDict e). split; [exact Hin |]. cbn.
    destruct k as [| n | n]; [contradiction | |].
    + destruct Hk as [Hnz [Hname | [-> Hname]]]; rewrite Hname;
        [| reflexivity].
      destruct (Z.eqb_spec n 0); congruence.
    + destruct Hk as [Hne Hname]. rewrite Hname.
      destruct (String.eqb_spec n ""); congruence.
Qed.

(** X8. For a seed manifest that is a mapping whose [snaps] is a list of
    mappings with scalar names, the preinstalled set is the set of the
    names that are true: the strings that are not empty, the ints that
    are not zero, and [True], which the set holds as 1.  An item without
    a name, or with a name that is empty, null, zero or [False], adds
    nothing. *)
Theorem get_preinstalled_snaps_names (controller : Controller)
    (open_read : string -> result string) (yaml_load : string -> result yaml)
    (text : string) (d : list (string * yaml)) (items : list yaml) :
  get_seed_yaml controller open_read = Ok text ->
  yaml_load text = Ok (YDict d) ->
  assoc "snaps" d = Some (YList items) ->
  forallb is_entry items = true ->
  get_preinstalled_snaps controller open_read yaml_load
    = Ok (manifest_names items) /\
  (forall n : string, KStr n ∈ manifest_names items <->
     n <> "" /\ exists e, YDict e ∈ items /\ assoc "name" e = Some (YStr n)) /\
  (forall n : Z, KInt n ∈ manifest_names items <->
     n <> 0 /\ exists e, YDict e ∈ items /\
       (assoc "name" e = Some (YInt n) \/
        n = 1 /\ assoc "name" e = Some (YBool true))) /\
  KNone ∉ manifest_names items.
Proof.
  intros Hseed Hload Hsnaps Hall. split.
  - unfold get_preinstalled_snaps. rewrite Hseed.
    cbn [mbind result_bind]. rewrite Hload.
    cbn [yaml_get mbind result_bind]. rewrite Hsnaps.
    cbn [default from_option id yaml_iter mbind result_bind].
    rewrite (collect_names_entries items Hall).
    f_equal. set_solver.
  - split; [| split].
    + intros n. rewrite elem_of_manifest_names. naive_solver.
    + intros n. rewrite elem_of_manifest_names. naive_solver.
    + rewrite elem_of_manifest_names. naive_solver.
Qed.

Lemma get_preinstalled_snaps_names_witness :
  get_preinstalled_snaps
    {| sources := []; dry_run := true |}
    (fun _ => Raise FileNotFoundError)
    (fun _ => Ok (YDict [("snaps",
                          YList [YDict [("name", YStr "core");
                                        ("channel", YStr "stable")];
                                 YDict [("file", YStr "x_1.snap")];
                                 YDict [("name", YStr "")];
                                 YDict [("name", YInt 123)];
                                 YDict [("name", YBool true)];
                                 YDict [("name", YStr "lxd")]])]))
  = Ok (manifest_names
          [YDict [("name", YStr "core"); ("channel", YStr "stable")];
           YDict [("file", YStr "x_1.snap")];
           YDict [("name", YStr "")];
           YDict [("name", YInt 123)];
           YDict [("name", YBool true)];
           YDict [("name", YStr "lxd")]]) /\
  manifest_names
    [YDict [("name", YStr "core"); ("channel", YStr "stable")];
     YDict [("file", YStr "x_1.snap")];
     YDict [("name", YStr "")];
     YDict [("name", YInt 123)];
     YDict [("name", YBool true)];
     YDict [("name", YStr "lxd")]]
  = {[ KStr "core"; KInt 123; KInt 1; KStr "lxd" ]}.
Proof.
  split.
  - eapply get_preinstalled_snaps_names; reflexivity.
  - apply (bool_decide_unpack _). vm_compute. exact I.
Defined.

(** X9. What a manifest of another form gives.  A mapping without the
    key [snaps] gives the empty set.  A document that is not a mapping,
    as the null of an empty file, raises [AttributeError]; so does an
    item of [snaps] that is not a mapping.  A [snaps] that is null, a
    number or a boolean raises [TypeError].  None of these is a
    [YAMLError], so none is caught. *)
Theorem get_preinstalled_snaps_other_forms (controller : Controller)
    (open_read : string -> result string) (yaml_load : string -> result yaml)
    (text : string) (seed : yaml) :
  get_seed_yaml controller open_read = Ok text ->
  yaml_load text = Ok seed ->
  let pre := get_preinstalled_snaps controller open_read yaml_load in
  (forall d, seed = YDict d -> assoc "snaps" d = None -> pre = Ok ∅) /\
  ((forall d, seed <> YDict d) -> pre = Raise (AttributeError "get")) /\
  (forall d snaps, seed = YDict d -> assoc "snaps" d = Some snaps ->
     yaml_iter snaps = Raise TypeError -> pre = Raise TypeError) /\
  (forall d item items, seed = YDict d ->
     assoc "snaps" d = Some (YList (item :: items)) ->
     (forall e, item <> YDict e) -> pre = Raise (AttributeError "get")).
Proof.
  intros Hseed Hload pre. subst pre. unfold get_preinstalled_snaps.
  rewrite Hseed. cbn [mbind result_bind]. rewrite Hload.
  repeat split.
  - intros d -> Hnone. cbn [yaml_get mbind result_bind]. rewrite Hnone.
    reflexivity.
  - intros Hnot. destruct seed; try reflexivity. exfalso. now eapply Hnot.
  - intros d snaps -> Hsnaps Hiter. cbn [yaml_get mbind result_bind].
    rewrite Hsnaps. cbn [default from_option id]. rewrite Hiter. reflexivity.
  - intros d item items -> Hsnaps Hnot. cbn [yaml_get mbind result_bind].
    rewrite Hsnaps.
    cbn [default from_option id yaml_iter collect_names mbind result_bind].
    destruct item; try reflexivity. exfalso. now eapply Hnot.
Qed.

Lemma get_preinstalled_snaps_other_forms_witness :
  get_preinstalled_snaps {| sources := []; dry_run := true |}
    (fun _ => Raise FileNotFoundError) (fun _ => Ok YNull)
  = Raise (AttributeError "get").
Proof.
  destruct (get_preinstalled_snaps_other_forms
              {| sources := []; dry_run := true |}
              (fun _ => Raise FileNotFoundError) (fun _ => Ok YNull)
              dry_run_seed YNull eq_refl eq_refl) as (_ & H & _).
  apply H. discriminate.
Defined.

(** ** The radio buttons of a detail view *)

Lemma SnapInfoView_init_group_snoc (snap : Snap) (chans : list ChannelSnapInfo)
    (csi : ChannelSnapInfo) (cur : option string) :
  siv_group (SnapInfoView_init (set_channels (chans ++ [csi]) snap) cur) =
  group_append (siv_group (SnapInfoView_init (set_channels chans snap) cur))
    (channel_button cur csi).
Proof.
  unfold SnapInfoView_init. cbn [siv_group set_channels channels].
  now rewrite fold_left_app.
Qed.

Lemma group_append_lookup (group : list StarRadioButton)
    (btn b : StarRadioButton) (k : nat) :
  group_append group btn !! k = Some b ->
  (k = length group /\ b = btn) \/
  (k < length group)%nat /\
  exists b0, group !! k = Some b0 /\ rb_label b = rb_label b0 /\
             rb_user_data b = rb_user_data b0 /\
             rb_state b = rb_state b0 && negb (rb_state btn).
Proof.
  unfold group_append. intros H.
  apply lookup_app_Some in H as [H | [Hlen H]].
  - right. destruct (rb_state btn).
    + rewrite list_lookup_fmap in H.
      destruct (group !! k) as [b0 |] eqn:Hk; [| discriminate].
      injection H as <-. split; [now apply lookup_lt_Some in Hk |].
      exists b0. cbn. now rewrite andb_false_r.
    + split; [now apply lookup_lt_Some in H |].
      exists b. now rewrite andb_true_r.
  - left. assert (Hl : length (if rb_state btn
                               then map (rb_set_state false) group
                               else group) = length group)
      by (destruct (rb_state btn); [apply length_map | reflexivity]).
    rewrite Hl in *. apply list_lookup_singleton_Some in H as [H <-].
    split; [lia | reflexivity].
Qed.

Lemma group_append_length (group : list StarRadioButton) (btn : StarRadioButton) :
  length (group_append group btn) = S (length group).
Proof.
  unfold group_append. rewrite length_app. cbn.
  destruct (rb_state btn); [rewrite length_map |]; lia.
Qed.

Lemma set_channels_channels (snap : Snap) :
  set_channels (channels snap) snap = snap.
Proof. now destruct snap. Qed.

Lemma SnapInfoView_init_group_length (snap : Snap) (cur : option string) :
  length (siv_group (SnapInfoView_init snap cur)) = length (channels snap).
Proof.
  rewrite <- (set_channels_channels snap) at 1.
  induction (channels snap) as [| csi chans IH] using rev_ind; [reflexivity |].
  rewrite SnapInfoView_init_group_snoc, group_append_length, IH, length_app.
  cbn. lia.
Qed.

Lemma SnapInfoView_init_group_lookup (snap : Snap)
    (cur_channel : option string) (chans : list ChannelSnapInfo) :
  forall k csi, chans !! k = Some csi ->
    exists btn,
      siv_group (SnapInfoView_init (set_channels chans snap) cur_channel) !! k
        = Some btn /\
      rb_label btn = channel_name csi /\
      rb_user_data btn =
        {| channel := channel_name csi;
           is_classic := String.eqb (csi_confinement csi) "classic" |} /\
      (rb_state btn = true <->
       cur_channel = Some (channel_name csi) /\ last_of_name chans k).
Proof.
  induction chans as [| x chans IH] using rev_ind;
    intros k csi Hk; [discriminate |].
  rewrite SnapInfoView_init_group_snoc.
  pose proof (SnapInfoView_init_group_length (set_channels chans snap)
                cur_channel) as Hlen.
  cbn [set_channels channels] in Hlen.
  set (group := siv_group (SnapInfoView_init (set_channels chans snap)
                             cur_channel)) in *.
  apply lookup_app_Some in Hk as [Hk | [Hge Hk]].
  - destruct (IH k csi Hk) as (b0 & Hb0 & Hl & Hu & Hs).
    pose proof (lookup_lt_Some _ _ _ Hk) as Hlt.
    assert (Hin : exists b, group_append group (channel_button cur_channel x)
                              !! k = Some b).
    { apply lookup_lt_is_Some. rewrite group_append_length. lia. }
    destruct Hin as [b Hb]. exists b. split; [exact Hb |].
    destruct (group_append_lookup _ _ _ _ Hb)
      as [[-> _] | (_ & b0' & Hb0' & Hl' & Hu' & Hs')]; [lia |].
    rewrite Hb0 in Hb0'. injection Hb0' as <-.
    split; [congruence |]. split; [congruence |].
    rewrite Hs', andb_true_iff, Hs, negb_true_iff.
    cbn [channel_button rb_state]. rewrite bool_decide_eq_false.
    unfold last_of_name. split.
    + intros [[Hcur Hlast] Hx]. split; [exact Hcur |].
      intros j a b1 Ha Hb1 Hj.
      rewrite lookup_app_l in Ha by exact Hlt.
      rewrite Hk in Ha. injection Ha as <-.
      apply lookup_app_Some in Hb1 as [Hb1 | [Hge Hb1]].
      * exact (Hlast j csi b1 Hk Hb1 Hj).
      * apply list_lookup_singleton_Some in Hb1 as [_ <-]. congruence.
    + intros [Hcur Hlast]. split; [split; [exact Hcur |] |].
      * intros j a b1 Ha Hb1 Hj. rewrite Hk in Ha. injection Ha as <-.
        apply (Hlast j csi b1); [now apply lookup_app_l_Some
                                | now apply lookup_app_l_Some | exact Hj].
      * intros Hx.
        apply (Hlast (length chans) csi x);
          [now apply lookup_app_l_Some | apply lookup_snoc | exact Hlt |].
        congruence.
  - apply list_lookup_singleton_Some in Hk as [Hk ->].
    assert (k = length chans) as -> by lia.
    exists (channel_button cur_channel csi).
    split.
    { unfold group_append. rewrite lookup_app_r;
        destruct (rb_state (channel_button cur_channel csi));
        rewrite ?length_map, Hlen; try lia;
        now rewrite Nat.sub_diag. }
    split; [reflexivity |]. split; [reflexivity |].
    cbn [channel_button rb_state]. rewrite bool_decide_eq_true.
    split.
    + intros Hcur. split; [congruence |].
      intros j a b Ha Hb Hj. apply lookup_lt_Some in Hb.
      rewrite length_app in Hb. cbn in Hb. lia.
    + intros [Hcur _]. congruence.
Qed.

(** X10. The detail view has one radio button for each channel of the
    snap, in the order of the channels, labelled with the name of the
    channel and carrying the selection of that channel, which is classic
    iff the confinement of the channel is.  A button is set iff its
    channel has the name of the current channel and no later channel has
    that name: at most one button is set, and none when the snap is not
    selected. *)
Theorem radio_group_of_channels (snap : Snap) (cur_channel : option string) :
  let group := siv_group (SnapInfoView_init snap cur_channel) in
  length group = length (channels snap) /\
  (forall k csi, channels snap !! k = Some csi ->
     exists btn, group !! k = Some btn /\
       rb_label btn = channel_name csi /\
       rb_user_data btn =
         {| channel := channel_name csi;
            is_classic := String.eqb (csi_confinement csi) "classic" |} /\
       (rb_state btn = true <->
        cur_channel = Some (channel_name csi) /\
        last_of_name (channels snap) k)) /\
  (forall j k a b, group !! j = Some a -> group !! k = Some b ->
     rb_state a = true -> rb_state b = true -> j = k) /\
  (cur_channel = None ->
     forall k btn, group !! k = Some btn -> rb_state btn = false).
Proof.
  cbn zeta.
  pose proof (SnapInfoView_init_group_length snap cur_channel) as Hlen.
  pose proof (SnapInfoView_init_group_lookup snap cur_channel (channels snap))
    as Hmain.
  rewrite set_channels_channels in Hmain.
  split; [exact Hlen |].
  split; [exact Hmain |]. split.
  - intros j k a b Hj Hk Ha Hb.
    destruct (lookup_lt_is_Some_2 (channels snap) j) as [cj Hcj];
      [rewrite <- Hlen; now apply lookup_lt_Some in Hj |].
    destruct (lookup_lt_is_Some_2 (channels snap) k) as [ck Hck];
      [rewrite <- Hlen; now apply lookup_lt_Some in Hk |].
    destruct (Hmain j cj Hcj) as (a' & Hj' & _ & _ & Hsa).
    destruct (Hmain k ck Hck) as (b' & Hk' & _ & _ & Hsb).
    rewrite Hj in Hj'. injection Hj' as <-.
    rewrite Hk in Hk'. injection Hk' as <-.
    apply Hsa in Ha as [Hca Hla]. apply Hsb in Hb as [Hcb Hlb].
    destruct (Nat.lt_total j k) as [Hlt | [Heq | Hgt]]; [| exact Heq |].
    + exfalso. apply (Hla k cj ck Hcj Hck Hlt). congruence.
    + exfalso. apply (Hlb j ck cj Hck Hcj Hgt). congruence.
  - intros -> k btn Hk.
    destruct (lookup_lt_is_Some_2 (channels snap) k) as [ck Hck];
      [rewrite <- Hlen; now apply lookup_lt_Some in Hk |].
    destruct (Hmain k ck Hck) as (b' & Hk' & _ & _ & Hs).
    rewrite Hk in Hk'. injection Hk' as <-.
    destruct (rb_state btn); [| reflexivity].
    destruct Hs as [Hs _]. destruct (Hs eq_refl) as [[=] _].
Qed.

Lemma fold_max_spec (chans : list ChannelSnapInfo) (d0 : datetime) :
  let latest :=
    fold_left (fun latest_update csi => Z.max latest_update (released_at csi))
      chans d0 in
  d0 <= latest /\
  (forall csi, csi ∈ chans -> released_at csi <= latest) /\
  (latest = d0 \/ exists csi, csi ∈ chans /\ released_at csi = latest).
Proof.
  cbn zeta. revert d0. induction chans as [| x chans IH]; intros d0.
  - cbn. split; [lia |]. split; [| now left].
    intros csi Hin. now apply elem_of_nil in Hin.
  - cbn [fold_left]. destruct (IH (Z.max d0 (released_at x))) as (H0 & Hall & Hex).
    split; [lia |]. split.
    + intros csi Hin. apply elem_of_cons in Hin as [-> | Hin]; [lia | auto].
    + destruct Hex as [Hex | (csi & Hin & Hex)].
      * destruct (Z.max_spec d0 (released_at x)) as [[_ Hm] | [_ Hm]].
        -- right. exists x. split; [apply elem_of_cons; now left | congruence].
        -- left. congruence.
      * right. exists csi. split; [apply elem_of_cons; now right | exact Hex].
Qed.

(** X11. The date shown as the last update of a snap is the latest
    release of its channels, whatever the current channel is; it is the
    least date there is only when no channel was released later. *)
Theorem latest_update_is_latest_release (snap : Snap)
    (cur_channel : option string) :
  let latest := siv_latest_update (SnapInfoView_init snap cur_channel) in
  datetime_min <= latest /\
  (forall csi, csi ∈ channels snap -> released_at csi <= latest) /\
  (latest = datetime_min \/
   exists csi, csi ∈ channels snap /\ released_at csi = latest).
Proof.
  apply (fold_max_spec (channels snap) datetime_min).
Qed.

(** ** Selecting with space *)

Lemma CheckBox_toggle_state_run (v : View) (i : nat) (box : SnapCheckBox) :
  boxes v !! i = Some box ->
  CheckBox_toggle_state i v =
  (Ok tt,
   with_boxes (alter (set_cb_state (negb (cb_state box))) i)
     (with_to_install
        (if cb_state box then delete (name (cb_snap box))
         else <[name (cb_snap box) := default_selection (cb_snap box)]>) v)).
Proof.
  intros Hbox. unfold CheckBox_toggle_state.
  rewrite (run_bind_ok _ _ _ _ _ (run_deref boxes i _ v Hbox)).
  destruct (cb_state box) eqn:Hst; cbn [negb].
  - now apply CheckBox_set_state_off.
  - now apply CheckBox_set_state_on.
Qed.

(** X12. Space on a row returns, flips the check box of the row, and
    gives the snap of the row the default selection or removes its
    selection; the other check boxes, the selections of the snaps of
    other names, the screen and the registry of the boxes stay as they
    are, and no call is made on the controller. *)
Theorem space_changes_one_row (v : View) (row : nat) (box : SnapCheckBox) :
  boxes v !! row = Some box ->
  let v' := exec (CheckBox_toggle_state row) v in
  let n := name (cb_snap box) in
  eval (CheckBox_toggle_state row) v = Ok tt /\
  boxes v' !! row = Some (set_cb_state (negb (cb_state box)) box) /\
  (forall j, j <> row -> boxes v' !! j = boxes v !! j) /\
  to_install v' !! n =
    (if cb_state box then None else Some (default_selection (cb_snap box))) /\
  (forall m, m <> n -> to_install v' !! m = to_install v !! m) /\
  w v' = w v /\ snap_boxes v' = snap_boxes v /\ trace v' = trace v.
Proof.
  intros Hbox v' n. subst v' n. unfold eval, exec.
  rewrite (CheckBox_toggle_state_run v row box Hbox). cbn [fst snd].
  split; [reflexivity |].
  cbn [boxes to_install w snap_boxes trace with_boxes with_to_install].
  split; [now rewrite list_lookup_alter_eq, Hbox |].
  split; [intros j Hj; now apply list_lookup_alter_ne |].
  split.
  { destruct (cb_state box);
      [apply lookup_delete_eq | apply lookup_insert_eq]. }
  split; [| auto].
  intros m Hm. destruct (cb_state box);
    [now apply lookup_delete_ne | now apply lookup_insert_ne].
Qed.

Lemma space_changes_one_row_witness :
  to_install (exec (CheckBox_toggle_state 1) Session.main) !! "C"
    = Some {| channel := "stable"; is_classic := false |} /\
  to_install (exec (CheckBox_toggle_state 1) Session.main) !! "A" = None.
Proof.
  destruct (space_changes_one_row Session.main 1
              (new_box (Session.snap "C")) eq_refl)
    as (_ & _ & _ & Hn & Hm & _).
  split; [exact Hn |]. rewrite (Hm "A"); [reflexivity | discriminate].
Defined.

Lemma alter_set_cb_state_twice (l : list SnapCheckBox) (i : nat)
    (box : SnapCheckBox) :
  l !! i = Some box ->
  alter (set_cb_state (cb_state box)) i
    (alter (set_cb_state (negb (cb_state box))) i l) = l.
Proof.
  intros Hbox. apply list_eq. intros j.
  destruct (decide (j = i)) as [-> | Hne].
  - rewrite !list_lookup_alter_eq, Hbox. cbn. f_equal. now destruct box.
  - now rewrite !list_lookup_alter_ne.
Qed.

(** X13. Space twice on a row leaves the check boxes as they were.  The
    selections are as they were but for the snap of the row: if its box
    was checked, it has the default selection, on the channel stable,
    whatever channel was chosen for it before; if its box was not
    checked, it has none.  From a view where the snap of an unchecked
    box has no selection, space twice gives the view back. *)
Theorem space_twice (v : View) (row : nat) (box : SnapCheckBox) :
  boxes v !! row = Some box ->
  let v2 :=
    exec (CheckBox_toggle_state row) (exec (CheckBox_toggle_state row) v) in
  let n := name (cb_snap box) in
  boxes v2 = boxes v /\
  to_install v2 =
    (if cb_state box
     then <[n := default_selection (cb_snap box)]> (to_install v)
     else delete n (to_install v)) /\
  (cb_state box = true ->
   channel <$> to_install v2 !! n = Some "stable") /\
  (cb_state box = false -> to_install v !! n = None -> v2 = v).
Proof.
  intros Hbox v2 n. subst v2 n. unfold exec.
  rewrite (CheckBox_toggle_state_run v row box Hbox). cbn [snd].
  set (v1 := with_boxes _ _).
  assert (Hbox1 : boxes v1 !! row
                  = Some (set_cb_state (negb (cb_state box)) box)).
  { subst v1. cbn [boxes with_boxes with_to_install].
    now rewrite list_lookup_alter_eq, Hbox. }
  rewrite (CheckBox_toggle_state_run v1 row _ Hbox1). cbn [snd].
  cbn [set_cb_state cb_state cb_snap]. rewrite negb_involutive.
  subst v1. cbn [boxes to_install with_boxes with_to_install].
  assert (Hboxes : alter (set_cb_state (cb_state box)) row
                     (alter (set_cb_state (negb (cb_state box))) row (boxes v))
                   = boxes v) by now apply alter_set_cb_state_twice.
  assert (Hsel :
    (if negb (cb_state box)
     then delete (name (cb_snap box))
     else <[name (cb_snap box) := default_selection (cb_snap box)]>)
      ((if cb_state box
        then delete (name (cb_snap box))
        else <[name (cb_snap box) := default_selection (cb_snap box)]>)
         (to_install v))
    = (if cb_state box
       then <[name (cb_snap box) := default_selection (cb_snap box)]>
              (to_install v)
       else delete (name (cb_snap box)) (to_install v))).
  { destruct (cb_state box); cbn [negb];
      [apply insert_delete_eq | apply delete_insert_eq]. }
  split; [exact Hboxes |]. split; [exact Hsel |]. split.
  - intros Hon. rewrite Hsel, Hon, lookup_insert_eq. reflexivity.
  - intros Hoff Hnone. unfold with_boxes, with_to_install.
    cbn [to_install snap_boxes boxes w main_screen dialogs load_frames
         info_frames spinners screens trace].
    rewrite Hboxes, Hsel, Hoff, (delete_id _ _ Hnone). now destruct v.
Qed.

Lemma space_twice_witness :
  exec (CheckBox_toggle_state 0) (exec (CheckBox_toggle_state 0) Session.main)
    = Session.main.
Proof.
  destruct (space_twice Session.main 0 (new_box (Session.snap "A")) eq_refl)
    as (_ & _ & _ & H).
  apply H; reflexivity.
Defined.

(** ** What the events leave alone *)

Lemma same_to_install_make_rows pre snap_list :
  forall body, stable (same to_install) (make_rows pre snap_list body).
Proof.
  induction snap_list as [| snap snap_list IH]; intros body; cbn [make_rows].
  - same_part.
  - unfold SnapCheckBox_init.
    repeat stable_step; first [ apply IH | reflexivity ].
Qed.

Lemma same_to_install_show_list controller open_read yaml_load snap_list :
  stable (same to_install)
    (show_list controller open_read yaml_load snap_list).
Proof.
  unfold show_list, offer_retry, make_main_screen, show_main_screen.
  repeat stable_step; first [ apply same_to_install_make_rows | reflexivity ].
Qed.

Lemma same_to_install_load_callback controller open_read yaml_load frame
    snap_list :
  stable (same to_install)
    (load_callback controller open_read yaml_load frame snap_list).
Proof.
  unfold load_callback, Spinner_stop.
  repeat stable_step;
    first [ apply same_to_install_show_list | reflexivity ].
Qed.

Lemma same_to_install_show_info row : stable (same to_install) (show_info row).
Proof.
  unfold show_info, FetchingFailed_init, new_dialog, show_overlay, show_screen.
  same_part.
Qed.

Lemma same_to_install_info_ready frame chans :
  stable (same to_install) (info_ready frame chans).
Proof.
  unfold info_ready, load_info_callback.
  repeat stable_step;
    first [ apply same_to_install_close_fetching
          | apply same_to_install_show_info | reflexivity ].
Qed.

Lemma same_to_install_load_info row answer :
  stable (same to_install) (load_info row answer).
Proof.
  unfold load_info, new_info_frame, FetchingInfo_init, Spinner_init,
    Spinner_start, new_dialog, show_overlay.
  repeat stable_step;
    first [ apply same_to_install_info_ready | reflexivity ].
Qed.

(** X14. The selections change on space on a row and on a channel of the
    detail view, and on nothing else: no other key or button, no answer
    of the controller and no rebuilding of the list adds, removes or
    changes a selection. *)
Theorem selections_change_by_selecting_only (controller : Controller)
    (open_read : string -> result string) (yaml_load : string -> result yaml)
    (e : ui_event) (v : View) :
  selects e = false ->
  to_install (exec (handle controller open_read yaml_load e) v)
    = to_install v.
Proof.
  intros He. revert v.
  change (stable (same to_install) (handle controller open_read yaml_load e)).
  destruct e; try discriminate; cbn [handle].
  - apply same_to_install_load_info.
  - apply same_to_install_info_ready.
  - apply same_to_install_load_callback.
  - apply (same_to_install_close_fetching (Some d)).
  - unfold FetchingFailed_load, FetchingFailed_close, remove_overlay.
    repeat stable_step;
      first [ apply same_to_install_load_info | reflexivity ].
  - unfold FetchingFailed_close, remove_overlay. same_part.
  - unfold show_main_screen. same_part.
  - unfold load, new_load_frame, Spinner_init, Spinner_start.
    repeat stable_step;
      first [ apply same_to_install_load_callback | reflexivity ].
  - unfold done. same_part.
  - unfold cancel, show_main_screen. same_part.
Qed.

Lemma selections_change_by_selecting_only_witness :
  to_install
    (exec (handle Session.controller Session.open_read Session.yaml_load
             PressClose) Session.chosen)
  = to_install Session.chosen.
Proof.
  apply selections_change_by_selecting_only. reflexivity.
Defined.

Ltac rows_done :=
  first [ reflexivity
        | unfold same, rows_built, box_names;
          cbn [boxes snap_boxes main_screen with_boxes];
          rewrite fmap_alter_same by (intros ?; reflexivity);
          reflexivity ].

Ltac same_rows := repeat stable_step; rows_done.

Lemma same_rows_CheckBox_set_state i state :
  stable (same rows_built) (CheckBox_set_state i state).
Proof.
  unfold CheckBox_set_state, SnapCheckBox_state_change. same_rows.
Qed.

Lemma same_rows_RadioButton_set_state k state :
  stable (same rows_built) (RadioButton_set_state k state).
Proof.
  unfold RadioButton_set_state, button_set_state, store_button,
    SnapInfoView_state_change.
  repeat stable_step;
    first [ apply same_rows_CheckBox_set_state | rows_done ].
Qed.

Lemma same_rows_close_fetching fi : stable (same rows_built) (close_fetching fi).
Proof.
  destruct fi; cbn [close_fetching];
    unfold FetchingInfo_close, Spinner_stop, remove_overlay; same_rows.
Qed.

Lemma same_rows_info_ready frame chans :
  stable (same rows_built) (info_ready frame chans).
Proof.
  unfold info_ready, load_info_callback, show_info, FetchingFailed_init,
    new_dialog, show_overlay, show_screen.
  repeat stable_step; first [ apply same_rows_close_fetching | rows_done ].
Qed.

Lemma same_rows_load_info row answer :
  stable (same rows_built) (load_info row answer).
Proof.
  unfold load_info, new_info_frame, FetchingInfo_init, Spinner_init,
    Spinner_start, new_dialog, show_overlay.
  repeat stable_step; first [ apply same_rows_info_ready | rows_done ].
Qed.

Lemma same_rows_handle controller open_read yaml_load (e : ui_event) :
  builds e = false ->
  stable (same rows_built) (handle controller open_read yaml_load e).
Proof.
  intros He.
  destruct e; try discriminate; cbn [handle].
  - unfold CheckBox_toggle_state.
    repeat stable_step;
      first [ apply same_rows_CheckBox_set_state | rows_done ].
  - apply same_rows_load_info.
  - apply same_rows_info_ready.
  - apply (same_rows_close_fetching (Some d)).
  - unfold FetchingFailed_load, FetchingFailed_close, remove_overlay.
    repeat stable_step; first [ apply same_rows_load_info | rows_done ].
  - unfold FetchingFailed_close, remove_overlay. same_rows.
  - apply same_rows_RadioButton_set_state.
  - unfold show_main_screen. same_rows.
  - unfold done. same_rows.
  - unfold cancel, show_main_screen. same_rows.
Qed.

(** X15. The check boxes, the registry [snap_boxes] and the main screen
    are set up when the list of snaps arrives, and no other event
    touches them: no key, button or answer about one snap creates or
    renames a check box, registers one or replaces the main screen. *)
Theorem rows_change_by_building_only (controller : Controller)
    (open_read : string -> result string) (yaml_load : string -> result yaml)
    (e : ui_event) (v : View) :
  builds e = false ->
  let v' := exec (handle controller open_read yaml_load e) v in
  box_names v' = box_names v /\ snap_boxes v' = snap_boxes v /\
  main_screen v' = main_screen v.
Proof.
  intros He v'. subst v'.
  pose proof (same_rows_handle controller open_read yaml_load e He v) as H.
  unfold same, rows_built in H. injection H as H1 H2 H3. auto.
Qed.

Lemma rows_change_by_building_only_witness :
  box_names Session.chosen = box_names Session.detail.
Proof.
  destruct (rows_change_by_building_only Session.controller Session.open_read
              Session.yaml_load (PressChannel 1) Session.detail eq_refl)
    as (H & _).
  exact H.
Defined.

(** ** Preinstalled snaps are never selected *)

Lemma names_outside_ext pre (v v' : View) :
  boxes v' = boxes v -> names_outside pre v -> names_outside pre v'.
Proof. unfold names_outside, box_names. now intros ->. Qed.

Ltac outside_ext :=
  let H := fresh in
  intros H; first [ exact H | apply (names_outside_ext _ _ _ eq_refl H) ].

Lemma keeps_outside_make_rows pre snap_list :
  forall body, stable (keeps (names_outside pre)) (make_rows pre snap_list body).
Proof.
  induction snap_list as [| snap snap_list IH]; intros body; cbn [make_rows].
  - repeat stable_step; outside_ext.
  - destruct (bool_decide (KStr (name snap) ∈ pre)) eqn:Hin; [apply IH |].
    apply bool_decide_eq_false in Hin. unfold SnapCheckBox_init.
    repeat stable_step; first [ apply IH | outside_ext | idtac ].
    intros H n Hn. unfold box_names in Hn.
    cbn [boxes with_boxes] in Hn. rewrite fmap_app in Hn.
    apply elem_of_app in Hn as [Hn | Hn]; [now apply H |].
    cbn in Hn. apply list_elem_of_singleton in Hn. now subst n.
Qed.

Lemma stable_lift_ok (R : View -> View -> Prop) {A B} (a : A) (k : A -> M B) :
  stable R (k a) -> stable R (lift (Ok a) ≫= k).
Proof. intros H v. exact (H v). Qed.

Lemma keeps_outside_show_list controller open_read yaml_load pre snap_list :
  get_preinstalled_snaps controller open_read yaml_load = Ok pre ->
  stable (keeps (names_outside pre))
    (show_list controller open_read yaml_load snap_list).
Proof.
  intros Hpre. unfold show_list, offer_retry, make_main_screen.
  rewrite Hpre. unfold show_main_screen.
  repeat match goal with
         | |- stable _ (mbind _ (lift (Ok _))) => apply stable_lift_ok
         | _ => stable_step
         end;
    first [ apply keeps_outside_make_rows | outside_ext ].
Qed.

Lemma keeps_outside_load_callback controller open_read yaml_load pre frame
    snap_list :
  get_preinstalled_snaps controller open_read yaml_load = Ok pre ->
  stable (keeps (names_outside pre))
    (load_callback controller open_read yaml_load frame snap_list).
Proof.
  intros Hpre. unfold load_callback, Spinner_stop.
  repeat stable_step;
    first [ now apply keeps_outside_show_list | outside_ext ].
Qed.

Lemma keeps_outside_load controller open_read yaml_load pre answer :
  get_preinstalled_snaps controller open_read yaml_load = Ok pre ->
  stable (keeps (names_outside pre))
    (load controller open_read yaml_load answer).
Proof.
  intros Hpre. unfold load, new_load_frame, Spinner_init, Spinner_start.
  repeat stable_step;
    first [ now apply keeps_outside_load_callback | outside_ext ].
Qed.

Lemma keeps_outside_handle controller open_read yaml_load pre (e : ui_event) :
  get_preinstalled_snaps controller open_read yaml_load = Ok pre ->
  stable (keeps (names_outside pre))
    (handle controller open_read yaml_load e).
Proof.
  intros Hpre. destruct (builds e) eqn:He.
  - destruct e; try discriminate; cbn [handle].
    + now apply keeps_outside_load_callback.
    + now apply keeps_outside_load.
  - intros v H n Hn.
    pose proof (same_rows_handle controller open_read yaml_load e He v) as Hs.
    unfold same, rows_built in Hs. injection Hs as Hs _ _.
    rewrite Hs in Hn. now apply H.
Qed.

Lemma reachable_names_outside controller open_read yaml_load pre (v : View) :
  get_preinstalled_snaps controller open_read yaml_load = Ok pre ->
  reachable controller open_read yaml_load v ->
  names_outside pre v.
Proof.
  intros Hpre. induction 1 as [answer Ha | v e Hr IH He Hok].
  - apply (keeps_outside_load _ _ _ _ answer Hpre new_view).
    intros n Hn. now apply elem_of_nil in Hn.
  - now apply (keeps_outside_handle _ _ _ _ e Hpre v).
Qed.

(** X16. When the seed manifest is read, then in every state that the
    view can be in no check box is of a preinstalled snap and no
    preinstalled snap has a selection: what [done] hands to the
    controller holds none of them. *)
Theorem preinstalled_snaps_never_selected (controller : Controller)
    (open_read : string -> result string) (yaml_load : string -> result yaml)
    (preinstalled : gset key) (v : View) :
  get_preinstalled_snaps controller open_read yaml_load = Ok preinstalled ->
  reachable controller open_read yaml_load v ->
  (forall box, box ∈ boxes v -> KStr (name (cb_snap box)) ∉ preinstalled) /\
  (forall n, KStr n ∈ preinstalled -> to_install v !! n = None) /\
  exists selections,
    trace (exec done v) = trace v ++ [ControllerDone selections] /\
    forall n, KStr n ∈ preinstalled -> selections !! n = None.
Proof.
  intros Hpre Hr.
  pose proof (reachable_names_outside _ _ _ _ _ Hpre Hr) as Hout.
  assert (Hboxes : forall box, box ∈ boxes v ->
                     KStr (name (cb_snap box)) ∉ preinstalled).
  { intros box Hin. apply Hout. unfold box_names.
    apply list_elem_of_fmap. eauto. }
  assert (Hsel : forall n, KStr n ∈ preinstalled -> to_install v !! n = None).
  { intros n Hn.
    destruct (reachable_screen_inv _ _ _ _ Hr) as [Hv | [Hv _]].
    - destruct Hv as (_ & _ & -> & _). apply lookup_empty.
    - destruct Hv as (_ & _ & _ & Hstore & _).
      destruct (to_install v !! n) as [sel |] eqn:Hlook; [| reflexivity].
      destruct (proj1 (Hstore n)) as (i & box & Hi & Hname & _);
        [rewrite Hlook; eauto |].
      exfalso. apply (Hboxes box); [| now rewrite Hname].
      now apply list_elem_of_lookup_2 in Hi. }
  split; [exact Hboxes |]. split; [exact Hsel |].
  exists (to_install v). split; [reflexivity | exact Hsel].
Qed.

Lemma preinstalled_snaps_never_selected_witness :
  to_install Session.chosen !! "B" = None.
Proof.
  assert (Hmain : reachable Session.controller Session.open_read
                    Session.yaml_load Session.main).
  { apply reachable_init. cbn [answer_ok]. unfold distinct_names.
    apply (bool_decide_unpack _). vm_compute. exact I. }
  assert (Hfetching : reachable Session.controller Session.open_read
                        Session.yaml_load Session.fetching).
  { apply (reachable_event _ _ _ _ (KeyEnter 0 Async) Hmain);
      [reflexivity | exact I]. }
  assert (Hdetail : reachable Session.controller Session.open_read
                      Session.yaml_load Session.detail).
  { apply (reachable_event _ _ _ _
             (InfoReady 0 [Session.stable; Session.edge]) Hfetching);
      [reflexivity | exact I]. }
  assert (Hchosen : reachable Session.controller Session.open_read
                      Session.yaml_load Session.chosen).
  { apply (reachable_event _ _ _ _ (PressChannel 1) Hdetail);
      [reflexivity | exact I]. }
  assert (Hpre : get_preinstalled_snaps Session.controller Session.open_read
                   Session.yaml_load = Ok {[ KStr "B" ]}).
  { vm_compute. reflexivity. }
  destruct (preinstalled_snaps_never_selected _ _ _ _ _ Hpre Hchosen)
    as (_ & H & _).
  apply H. set_solver.
Defined.

(** ** An answer that comes after Cancel *)

(** X17. Enter on a row whose answer is not immediate shows the fetching
    dialog, and Cancel on it stops the spinner and removes the dialog;
    the callback handed to the controller is still to be invoked.  When
    the answer comes after that, the closed dialog is left alone: the
    spinner is not stopped and no overlay is removed a second time.
    With channels the detail view replaces the screen that Cancel gave
    back, and with none a new failure dialog for the row is shown. *)
Theorem answer_after_cancel (v : View) (row : nat) (box : SnapCheckBox)
    (cur : widget) (chans : list ChannelSnapInfo) :
  boxes v !! row = Some box ->
  w v = Some cur ->
  let fi := length (dialogs v) in
  let frame := length (info_frames v) in
  let snap := set_channels chans (cb_snap box) in
  let v1 := exec (load_info row Async) v in
  let v2 := exec (FetchingInfo_close fi) v1 in
  let v3 := exec (info_ready frame chans) v2 in
  enabled (PressCancelFetching fi) v1 = true /\
  enabled (InfoReady frame chans) v2 = true /\
  eval (info_ready frame chans) v2 = Ok tt /\
  trace v3 =
    trace v ++
    [GetSnapInfo (name (cb_snap box)) frame; SpinnerStart (spinners v);
     ShowOverlay fi (fetching_width (cb_snap box));
     SpinnerStop (spinners v); RemoveOverlay] ++
    match chans with
    | [] => [ShowOverlay (S fi) (failed_width snap)]
    | _ :: _ =>
        [SetHeader (SnapTitle (name snap) (publisher snap) (verified snap))]
    end /\
  (chans <> [] -> w v3 = Some (DetailScreen (detail_of v snap))) /\
  (chans = [] ->
   dialogs v3 !! S fi = Some (FetchingFailed false row (failed_width snap))).
Proof.
  intros Hbox Hw fi frame snap v1 v2 v3.
  assert (Hv1 : load_info row Async v = (Ok tt, v1))
    by (subst v1; unfold exec; now rewrite (load_info_async v row box cur)).
  pose proof (load_info_async v row box cur Hbox Hw) as Hrun1.
  rewrite Hv1 in Hrun1. injection Hrun1 as Hrun1.
  assert (Hd1 : dialogs v1 !! fi
                = Some (FetchingInfo false (spinners v)
                          (fetching_width (cb_snap box)))).
  { rewrite Hrun1. cbn [dialogs with_w with_trace with_info_frames
                        with_dialogs with_spinners].
    apply lookup_snoc. }
  assert (Hv2 : FetchingInfo_close fi v1 = (Ok tt, v2))
    by (subst v2; unfold exec;
        now rewrite (FetchingInfo_close_open v1 fi _ _ Hd1)).
  pose proof (FetchingInfo_close_open v1 fi _ _ Hd1) as Hrun2.
  rewrite Hv2 in Hrun2. injection Hrun2 as Hrun2.
  set (fr := {| if_self := row; if_called := false; if_fi := Some fi |}).
  assert (Hf2 : info_frames v2 !! frame = Some fr).
  { rewrite Hrun2, Hrun1.
    cbn [info_frames with_w with_trace with_info_frames with_dialogs
         with_spinners].
    rewrite list_lookup_alter_eq, lookup_snoc. reflexivity. }
  assert (Hb2 : boxes v2 !! row = Some box)
    by (rewrite Hrun2, Hrun1; exact Hbox).
  assert (Hd2 : dialogs v2 !! fi
                = Some (FetchingInfo true (spinners v)
                          (fetching_width (cb_snap box)))).
  { rewrite Hrun2.
    cbn [dialogs with_w with_trace with_info_frames with_dialogs
         with_spinners].
    apply list_lookup_insert_eq. now apply lookup_lt_Some in Hd1. }
  assert (Hw2 : w v2 = Some cur) by (rewrite Hrun2, Hrun1; reflexivity).
  assert (Hlen2 : length (dialogs v2) = S fi).
  { rewrite Hrun2, Hrun1.
    cbn [dialogs with_w with_trace with_info_frames with_dialogs
         with_spinners].
    rewrite length_insert, length_app. cbn. subst fi. lia. }
  assert (Ht2 : trace v2 =
                trace v ++
                [GetSnapInfo (name (cb_snap box)) frame;
                 SpinnerStart (spinners v);
                 ShowOverlay fi (fetching_width (cb_snap box));
                 SpinnerStop (spinners v); RemoveOverlay]).
  { rewrite Hrun2, Hrun1.
    cbn [trace with_w with_trace with_info_frames with_dialogs
         with_spinners].
    rewrite <- !app_assoc. reflexivity. }
  pose proof (info_ready_outcome v2 v2 frame fr box cur chans Hf2 Hb2
                (FetchingInfo_close_closed v2 fi _ _ Hd2) Hw2) as Hrun3.
  cbn zeta in Hrun3. cbn [if_self fr] in Hrun3. fold snap in Hrun3.
  split.
  { unfold enabled. rewrite Hrun1 at 1.
    cbn [w with_w]. rewrite Hd1. rewrite bool_decide_eq_true_2; reflexivity. }
  split.
  { unfold enabled, is_uncalled_info. rewrite Hf2.
    destruct (w v2) as [[] |]; reflexivity. }
  split; [now rewrite (eval_run _ _ _ _ Hrun3) |].
  subst v3. rewrite (exec_run _ _ _ _ Hrun3).
  destruct chans as [| c chans].
  - split; [| split; [congruence |]].
    + cbn [trace with_w with_trace with_dialogs with_info_frames with_boxes].
      rewrite Ht2, Hlen2, <- app_assoc. reflexivity.
    + intros _.
      cbn [dialogs with_w with_trace with_dialogs with_info_frames
           with_boxes].
      rewrite <- Hlen2. apply lookup_snoc.
  - split; [| split; [| discriminate]].
    + cbn [trace with_w with_trace with_dialogs with_info_frames with_boxes].
      rewrite Ht2, <- app_assoc. reflexivity.
    + intros _. cbn [w with_w]. unfold detail_of.
      replace (to_install v2) with (to_install v)
        by (rewrite Hrun2, Hrun1; reflexivity).
      reflexivity.
Qed.

Lemma answer_after_cancel_witness :
  let v2 := exec (FetchingInfo_close 0) Session.fetching in
  w (exec (info_ready 0 [Session.stable; Session.edge]) v2)
    = Some (DetailScreen Session.detail_A).
Proof.
  destruct (answer_after_cancel Session.main 0 (new_box (Session.snap "A"))
              (MainScreen 0 (rows_of 0 [Session.snap "A"; Session.snap "C"]))
              [Session.stable; Session.edge] eq_refl eq_refl)
    as (_ & _ & _ & _ & H & _).
  apply H. discriminate.
Defined.

(** ** Try again on the failure dialog *)

(** X18. Try again on the failure dialog of a row fetches the
    information of the snap of the row again, whether the dialog was
    closed before or not: the overlay is removed only if the dialog was
    not closed, and the dialog is closed afterwards.  When the answer is
    not immediate, a new spinner is started and a new fetching dialog is
    shown, whose callback is still to be invoked. *)
Theorem try_again_fetches_again (v : View) (d row width : nat)
    (closed : bool) (box : SnapCheckBox) (cur : widget) :
  dialogs v !! d = Some (FetchingFailed closed row width) ->
  boxes v !! row = Some box ->
  w v = Some cur ->
  let v' := exec (FetchingFailed_load d Async) v in
  let fi := length (dialogs v) in
  let frame := length (info_frames v) in
  eval (FetchingFailed_load d Async) v = Ok tt /\
  trace v' =
    trace v ++ (if closed then [] else [RemoveOverlay]) ++
    [GetSnapInfo (name (cb_snap box)) frame; SpinnerStart (spinners v);
     ShowOverlay fi (fetching_width (cb_snap box))] /\
  dialogs v' !! d = Some (FetchingFailed true row width) /\
  dialogs v' !! fi
    = Some (FetchingInfo false (spinners v) (fetching_width (cb_snap box))) /\
  is_uncalled_info v' frame = true.
Proof.
  intros Hd Hbox Hw v' fi frame.
  assert (Hclose : exists v1,
    FetchingFailed_close d v = (Ok tt, v1) /\
    dialogs v1 !! d = Some (FetchingFailed true row width) /\
    length (dialogs v1) = length (dialogs v) /\
    boxes v1 = boxes v /\ info_frames v1 = info_frames v /\
    spinners v1 = spinners v /\
    (exists cur1, w v1 = Some cur1) /\
    trace v1 = trace v ++ (if closed then [] else [RemoveOverlay])).
  { destruct closed.
    - exists v. rewrite (FetchingFailed_close_closed v d _ _ Hd).
      rewrite app_nil_r. eauto 10.
    - eexists. rewrite (FetchingFailed_close_open v d _ _ Hd).
      split; [reflexivity |].
      cbn [dialogs boxes info_frames spinners w trace with_w with_trace
           with_dialogs].
      split; [apply list_lookup_insert_eq; now apply lookup_lt_Some in Hd |].
      split; [apply length_insert |]. rewrite Hw.
      repeat split. destruct cur; eauto. }
  destruct Hclose as (v1 & Hclose & Hd1 & Hlen & Hb1 & Hf1 & Hs1 & [cur1 Hw1]
                      & Ht1).
  assert (Hbox1 : boxes v1 !! row = Some box) by now rewrite Hb1.
  assert (Hrun : FetchingFailed_load d Async v = load_info row Async v1).
  { unfold FetchingFailed_load.
    rewrite (run_bind_ok _ _ _ _ _ Hclose).
    rewrite (run_bind_ok _ _ _ _ _ (run_deref dialogs d _ v1 Hd1)).
    reflexivity. }
  subst v'. unfold eval, exec. rewrite Hrun.
  rewrite (load_info_async v1 row box cur1 Hbox1 Hw1). cbn [fst snd].
  cbn [dialogs info_frames trace with_w with_trace with_info_frames
       with_dialogs with_spinners].
  rewrite Hlen, Hf1, Hs1, Ht1. subst fi frame.
  split; [reflexivity |].
  split; [now rewrite <- !app_assoc |].
  split.
  { rewrite lookup_app_l by (rewrite Hlen; now apply lookup_lt_Some in Hd).
    exact Hd1. }
  split; [rewrite <- Hlen; apply lookup_snoc |].
  unfold is_uncalled_info.
  cbn [dialogs info_frames trace with_w with_trace with_info_frames
       with_dialogs with_spinners].
  rewrite Hf1, list_lookup_alter_eq, lookup_snoc. reflexivity.
Qed.

Lemma try_again_fetches_again_witness :
  trace (exec (FetchingFailed_load 1 Async) Session.failed)
  = trace Session.failed ++
    [RemoveOverlay; GetSnapInfo "A" 1; SpinnerStart 1; ShowOverlay 2 23].
Proof.
  destruct (try_again_fetches_again Session.failed 1 0 30 false
              (new_box (Session.snap "A"))
              (Overlay 1 30
                 (MainScreen 0 (rows_of 0 [Session.snap "A"; Session.snap "C"])))
              eq_refl eq_refl eq_refl)
    as (_ & H & _).
  exact H.
Defined.

(** ** The main screen, once built *)

Lemma main_shown_ext (v v' : View) :
  w v' = w v -> main_screen v' = main_screen v ->
  main_shown v -> main_shown v'.
Proof. unfold main_shown. now intros -> ->. Qed.

Ltac shown_ext :=
  let H := fresh in
  intros H; first [ exact H | apply (main_shown_ext _ _ eq_refl eq_refl H) ].

Lemma main_shown_w (v : View) (x : widget) :
  shows_main (main_screen v) x ->
  main_shown v -> main_shown (with_w (fun _ => Some x) v).
Proof. intros Hx [Hm _]. split; [exact Hm |]. exists x. auto. Qed.

Lemma shown_CheckBox_set_state i state :
  stable (keeps main_shown) (CheckBox_set_state i state).
Proof.
  unfold CheckBox_set_state, SnapCheckBox_state_change.
  repeat stable_step; shown_ext.
Qed.

Lemma shown_show_overlay top width :
  stable (keeps main_shown) (show_overlay top width).
Proof.
  intros v Hv. unfold exec, show_overlay. run.
  cbn [w with_trace]. destruct (w v) as [x |] eqn:Hx; [| exact Hv].
  cbn [snd]. destruct Hv as (Hm & y & Hy & Hs).
  split; [exact Hm |]. eexists. split; [reflexivity |].
  cbn. congruence.
Qed.

Lemma shown_remove_overlay : stable (keeps main_shown) remove_overlay.
Proof.
  intros v Hv. unfold exec, remove_overlay. run. cbn [snd].
  destruct Hv as (Hm & y & Hy & Hs). split; [exact Hm |].
  cbn [w main_screen with_w with_trace]. rewrite Hy.
  destruct y; eauto.
Qed.

Lemma shown_FetchingInfo_close d :
  stable (keeps main_shown) (FetchingInfo_close d).
Proof.
  unfold FetchingInfo_close, Spinner_stop.
  repeat stable_step; first [ apply shown_remove_overlay | shown_ext ].
Qed.

Lemma shown_FetchingFailed_close d :
  stable (keeps main_shown) (FetchingFailed_close d).
Proof.
  unfold FetchingFailed_close.
  repeat stable_step; first [ apply shown_remove_overlay | shown_ext ].
Qed.

Lemma shown_close_fetching fi : stable (keeps main_shown) (close_fetching fi).
Proof.
  destruct fi; cbn [close_fetching];
    [apply shown_FetchingInfo_close | repeat stable_step].
Qed.

Lemma shown_show_info row : stable (keeps main_shown) (show_info row).
Proof.
  unfold show_info, FetchingFailed_init, new_dialog, show_screen.
  repeat stable_step;
    first [ apply shown_show_overlay
          | intros ?; now apply main_shown_w
          | shown_ext ].
Qed.

Lemma shown_info_ready frame chans :
  stable (keeps main_shown) (info_ready frame chans).
Proof.
  unfold info_ready, load_info_callback.
  repeat stable_step;
    first [ apply shown_close_fetching | apply shown_show_info | shown_ext ].
Qed.

Lemma shown_load_info row answer :
  stable (keeps main_shown) (load_info row answer).
Proof.
  unfold load_info, new_info_frame, FetchingInfo_init, new_dialog,
    Spinner_init, Spinner_start.
  repeat stable_step;
    first [ apply shown_info_ready | apply shown_show_overlay | shown_ext ].
Qed.

Lemma shown_store_button k state :
  stable (keeps main_shown) (store_button k state).
Proof.
  intros v Hv. unfold exec, store_button. run. cbn [snd].
  destruct Hv as (Hm & y & Hy & Hs). split; [exact Hm |].
  cbn [w main_screen with_w]. rewrite Hy. destruct y; eauto.
Qed.

Lemma shown_RadioButton_set_state k state :
  stable (keeps main_shown) (RadioButton_set_state k state).
Proof.
  unfold RadioButton_set_state, button_set_state, SnapInfoView_state_change.
  repeat stable_step;
    first [ apply shown_CheckBox_set_state | apply shown_store_button
          | shown_ext ].
Qed.

Lemma shown_show_main_screen : stable (keeps main_shown) show_main_screen.
Proof.
  intros v Hv. unfold exec, show_main_screen. run.
  cbn [main_screen with_trace].
  destruct Hv as ((i & body & Hm) & Hw). rewrite Hm. cbn [snd].
  split; [eauto |]. eexists. split; [reflexivity |]. exact Hm.
Qed.

Lemma shown_handle controller open_read yaml_load (e : ui_event) :
  builds e = false ->
  stable (keeps main_shown) (handle controller open_read yaml_load e).
Proof.
  intros He. destruct e; try discriminate; cbn [handle].
  - unfold CheckBox_toggle_state.
    repeat stable_step; apply shown_CheckBox_set_state.
  - apply shown_load_info.
  - apply shown_info_ready.
  - apply shown_FetchingInfo_close.
  - unfold FetchingFailed_load.
    repeat stable_step;
      first [ apply shown_FetchingFailed_close | apply shown_load_info
            | shown_ext ].
  - apply shown_FetchingFailed_close.
  - apply shown_RadioButton_set_state.
  - apply shown_show_main_screen.
  - unfold done. repeat stable_step. shown_ext.
  - unfold cancel.
    repeat stable_step; first [ apply shown_show_main_screen | shown_ext ].
Qed.

(** Building the list from a state with no main screen. *)
Lemma show_list_shown controller open_read yaml_load snap_list (v : View) :
  main_screen v = None ->
  let v' := exec (show_list controller open_read yaml_load snap_list) v in
  main_screen v' = None \/ main_shown v'.
Proof.
  intros Hnone v'. subst v'. unfold show_list.
  destruct (length snap_list =? 0)%nat.
  - left. exact Hnone.
  - destruct (get_preinstalled_snaps controller open_read yaml_load)
      as [pre | err] eqn:Hpre.
    + destruct (make_main_screen_spec controller open_read yaml_load pre
                  snap_list v Hpre) as (v1 & Hrun & _ & Hm & _).
      unfold exec. rewrite (run_bind_ok _ _ _ _ _ Hrun).
      unfold show_main_screen. run. cbn [main_screen with_trace].
      rewrite Hm. cbn [snd]. right.
      split; [cbn [main_screen with_w with_trace]; eauto |].
      eexists. split; [reflexivity |].
      cbn [main_screen with_w with_trace shows_main]. exact Hm.
    + left. unfold exec, make_main_screen. rewrite Hpre. run.
      cbn [snd]. exact Hnone.
Qed.

Lemma load_callback_shown controller open_read yaml_load frame snap_list
    (v : View) :
  main_screen v = None ->
  let v' :=
    exec (load_callback controller open_read yaml_load frame snap_list) v in
  main_screen v' = None \/ main_shown v'.
Proof.
  intros Hnone v'. subst v'. unfold exec, load_callback. run.
  unfold deref. cbn [load_frames with_load_frames].
  destruct (alter set_lf_called frame (load_frames v) !! frame) as [fr |];
    [| left; exact Hnone].
  destruct (lf_spinner fr); unfold Spinner_stop; run;
    apply show_list_shown; exact Hnone.
Qed.

Lemma load_shown controller open_read yaml_load answer (v : View) :
  main_screen v = None ->
  let v' := exec (load controller open_read yaml_load answer) v in
  main_screen v' = None \/ main_shown v'.
Proof.
  intros Hnone v'. subst v'. destruct answer as [snap_list |].
  - unfold exec. rewrite load_sync. apply show_list_shown. exact Hnone.
  - unfold exec. rewrite load_async. left. exact Hnone.
Qed.

(** In every state of the view there is no main screen yet, or the main
    screen, a detail view or a dialog over one of them is shown. *)
Lemma reachable_main_shown controller open_read yaml_load (v : View) :
  reachable controller open_read yaml_load v ->
  main_screen v = None \/ main_shown v.
Proof.
  induction 1 as [answer Ha | v e Hr IH He Hok].
  - now apply load_shown.
  - destruct (reachable_screen_inv _ _ _ _ Hr) as [Hv | [Hv _]].
    + destruct Hv as (Hnone & _).
      destruct (builds e) eqn:Hb.
      * destruct e; try discriminate; cbn [handle];
          [now apply load_callback_shown | now apply load_shown].
      * left.
        pose proof (same_rows_handle controller open_read yaml_load e Hb v)
          as Hs.
        unfold same, rows_built in Hs. injection Hs as _ _ Hs. congruence.
    + destruct IH as [Hnone | Hshown].
      { destruct Hv as ((x & Hx & _) & _). congruence. }
      right. apply shown_handle; [| exact Hshown].
      destruct e; try reflexivity; exfalso.
      * destruct Hv as (_ & Hc & _).
        assert (Hun : is_uncalled_load v callback = true)
          by (unfold enabled in He; destruct (w v) as [[] |]; exact He).
        unfold is_uncalled_load in Hun.
        destruct (load_frames v !! callback) as [fr |] eqn:Hfr;
          [| discriminate].
        rewrite (Hc _ _ Hfr) in Hun. discriminate.
      * destruct Hv as (_ & _ & (x & Hw & Hx) & _).
        unfold enabled in He. rewrite Hw in He.
        destruct x; try discriminate. exact Hx.
Qed.

Lemma back_enabled_on_main (v : View) :
  enabled PressBack v = true -> exists i body, w v = Some (MainScreen i body).
Proof.
  unfold enabled. destruct (w v) as [[] |]; try discriminate. eauto.
Qed.

(** X19. Whenever Back can be pressed, the screen is the main screen
    that was built, so [cancel] returns and calls [cancel] on the
    controller, and leaves the screen and the selections as they are:
    its other branch, which shows the main screen, is not taken. *)
Theorem back_calls_controller_cancel (controller : Controller)
    (open_read : string -> result string) (yaml_load : string -> result yaml)
    (v : View) :
  reachable controller open_read yaml_load v ->
  enabled PressBack v = true ->
  let back := handle controller open_read yaml_load PressBack in
  w v = main_screen v /\
  eval back v = Ok tt /\
  trace (exec back v) = trace v ++ [ControllerCancel] /\
  w (exec back v) = w v /\
  to_install (exec back v) = to_install v.
Proof.
  intros Hr He back. subst back. cbn [handle].
  destruct (back_enabled_on_main v He) as (i & body & Hw).
  assert (Hm : main_screen v = Some (MainScreen i body)).
  { destruct (reachable_main_shown _ _ _ _ Hr)
      as [Hnone | (_ & x & Hx & Hs)].
    - destruct (reachable_screen_inv _ _ _ _ Hr) as [Hv | [Hv _]].
      + destruct Hv as (_ & _ & _ & _ & Hp & _). rewrite Hw in Hp.
        contradiction.
      + destruct Hv as ((x & Hx & _) & _). congruence.
    - rewrite Hw in Hx. injection Hx as <-. exact Hs. }
  split; [congruence |].
  unfold eval, exec, cancel. run. rewrite Hw, Hm, Nat.eqb_refl.
  cbn [fst snd trace w to_install with_trace]. rewrite Hw. auto.
Qed.

Lemma back_calls_controller_cancel_witness :
  trace (exec cancel Session.main) = trace Session.main ++ [ControllerCancel].
Proof.
  assert (Hmain : reachable Session.controller Session.open_read
                    Session.yaml_load Session.main).
  { apply reachable_init. cbn [answer_ok]. unfold distinct_names.
    apply (bool_decide_unpack _). vm_compute. exact I. }
  destruct (back_calls_controller_cancel _ _ _ _ Hmain eq_refl)
    as (_ & _ & H & _).
  exact H.
Defined.

(** X20. While the list is loading, and when loading it has failed, no
    main screen was built, there is no check box and nothing is
    selected: Continue hands the controller the empty selection. *)
Theorem continue_without_list_selects_nothing (controller : Controller)
    (open_read : string -> result string) (yaml_load : string -> result yaml)
    (v : View) :
  reachable controller open_read yaml_load v ->
  (w v = Some RetryScreen \/ exists spinner, w v = Some (LoadingScreen spinner)) ->
  let continue := handle controller open_read yaml_load PressDone in
  enabled PressDone v = true /\
  main_screen v = None /\ boxes v = [] /\ to_install v = ∅ /\
  eval continue v = Ok tt /\
  trace (exec continue v) = trace v ++ [ControllerDone ∅].
Proof.
  intros Hr Hw continue. subst continue. cbn [handle].
  assert (Hen : enabled PressDone v = true).
  { unfold enabled. destruct Hw as [-> | [s ->]]; reflexivity. }
  assert (Hv : before_main v).
  { destruct (reachable_screen_inv _ _ _ _ Hr) as [Hv | [Hv _]];
      [exact Hv | exfalso].
    destruct (reachable_main_shown _ _ _ _ Hr)
      as [Hnone | (_ & x & Hx & Hs)].
    - destruct Hv as ((x & Hx & _) & _). congruence.
    - destruct Hw as [Hw | [s Hw]]; rewrite Hw in Hx;
        injection Hx as <-; exact Hs. }
  destruct Hv as (Hm & Hb & Ht & _).
  split; [exact Hen |]. split; [exact Hm |]. split; [exact Hb |].
  split; [exact Ht |].
  unfold eval, exec, done. run. cbn [fst snd trace with_trace].
  rewrite Ht. auto.
Qed.

Lemma continue_without_list_selects_nothing_witness :
  trace (exec done (SnapListView_init Session.controller Session.open_read
                      Session.yaml_load (Sync [])))
  = [GetSnapList 0; ControllerDone ∅].
Proof.
  assert (Hinit : reachable Session.controller Session.open_read
                    Session.yaml_load
                    (SnapListView_init Session.controller Session.open_read
                       Session.yaml_load (Sync []))).
  { apply reachable_init. cbn [answer_ok]. unfold distinct_names.
    apply NoDup_nil_2. }
  destruct (continue_without_list_selects_nothing _ _ _ _ Hinit
              (or_introl eq_refl))
    as (_ & _ & _ & _ & _ & H).
  exact H.
Defined.

(** X21. Whenever a detail view is on screen, the main screen was built:
    Close returns, sets the header to the title of the screen and shows
    the main screen that was built, with the selections as they are. *)
Theorem close_returns_to_main_screen (controller : Controller)
    (open_read : string -> result string) (yaml_load : string -> result yaml)
    (v : View) (siv : SnapInfoView) :
  reachable controller open_read yaml_load v ->
  w v = Some (DetailScreen siv) ->
  let close := handle controller open_read yaml_load PressClose in
  enabled PressClose v = true /\
  eval close v = Ok tt /\
  (exists i body, w (exec close v) = Some (MainScreen i body)) /\
  w (exec close v) = main_screen v /\
  trace (exec close v) = trace v ++ [SetHeader (ScreenTitle title)] /\
  to_install (exec close v) = to_install v /\
  boxes (exec close v) = boxes v /\
  enabled PressBack (exec close v) = true.
Proof.
  intros Hr Hw close. subst close. cbn [handle].
  assert (Hm : exists i body, main_screen v = Some (MainScreen i body)).
  { destruct (reachable_main_shown _ _ _ _ Hr) as [Hnone | (Hm & _)];
      [| exact Hm].
    destruct (reachable_screen_inv _ _ _ _ Hr) as [Hv | [Hv _]].
    - destruct Hv as (_ & _ & _ & _ & Hp & _). rewrite Hw in Hp.
      contradiction.
    - destruct Hv as ((x & Hx & _) & _). congruence. }
  destruct Hm as (i & body & Hm).
  split; [unfold enabled; now rewrite Hw |].
  unfold eval, exec, show_main_screen. run. cbn [main_screen with_trace].
  rewrite Hm. cbn [fst snd].
  split; [reflexivity |]. split; [cbn; eauto |].
  split; [cbn; congruence |]. split; [reflexivity |].
  split; [reflexivity |]. split; [reflexivity |].
  reflexivity.
Qed.

Lemma close_returns_to_main_screen_witness :
  w (exec show_main_screen Session.detail) = main_screen Session.detail.
Proof.
  assert (Hmain : reachable Session.controller Session.open_read
                    Session.yaml_load Session.main).
  { apply reachable_init. cbn [answer_ok]. unfold distinct_names.
    apply (bool_decide_unpack _). vm_compute. exact I. }
  assert (Hfetching : reachable Session.controller Session.open_read
                        Session.yaml_load Session.fetching).
  { apply (reachable_event _ _ _ _ (KeyEnter 0 Async) Hmain);
      [reflexivity | exact I]. }
  assert (Hdetail : reachable Session.controller Session.open_read
                      Session.yaml_load Session.detail).
  { apply (reachable_event _ _ _ _
             (InfoReady 0 [Session.stable; Session.edge]) Hfetching);
      [reflexivity | exact I]. }
  destruct (close_returns_to_main_screen _ _ _ _ Session.detail_A Hdetail
              eq_refl)
    as (_ & _ & _ & H & _).
  exact H.
Defined.

(** ** An empty list *)

(** X22. When the controller answers with an empty list, at once or
    after the loading screen was shown, the retry screen is shown, whose
    Try again button fetches the list again.  The seed manifest is not
    read, so the answer returns whatever the install sources are; no
    main screen is built and no check box is created. *)
Theorem empty_list_offers_retry (controller : Controller)
    (open_read : string -> result string) (yaml_load : string -> result yaml)
    (v : View) :
  let frame := length (load_frames v) in
  let now := load controller open_read yaml_load (Sync []) in
  let later := load_callback controller open_read yaml_load frame [] in
  let v1 := exec (load controller open_read yaml_load Async) v in
  (eval now v = Ok tt /\
   w (exec now v) = Some RetryScreen /\
   trace (exec now v) = trace v ++ [GetSnapList frame] /\
   spinners (exec now v) = spinners v) /\
  (eval later v1 = Ok tt /\
   w (exec later v1) = Some RetryScreen /\
   trace (exec later v1)
     = trace v ++ [GetSnapList frame; SpinnerStart (spinners v);
                   SpinnerStop (spinners v)]) /\
  (forall v', v' = exec now v \/ v' = exec later v1 ->
     main_screen v' = main_screen v /\ boxes v' = boxes v /\
     to_install v' = to_install v /\
     forall answer, enabled (PressTryAgain answer) v' = true).
Proof.
  intros frame now later v1.
  assert (Hnow : now v =
    (Ok tt,
     with_w (fun _ => Some RetryScreen)
       (with_load_frames (alter set_lf_called frame)
          (with_trace (fun t => t ++ [GetSnapList frame])
             (with_load_frames
                (fun l => l ++ [{| lf_spinner := None; lf_called := false |}])
                v))))).
  { subst now frame. rewrite load_sync. reflexivity. }
  pose proof (load_async controller open_read yaml_load v) as Hv1.
  assert (Hlater : later v1 =
    (Ok tt,
     with_w (fun _ => Some RetryScreen)
       (with_trace (fun t => t ++ [SpinnerStop (spinners v)])
          (with_load_frames (alter set_lf_called frame) v1)))).
  { subst later v1 frame.
    rewrite (load_async_then_callback controller open_read yaml_load [] v).
    reflexivity. }
  unfold eval, exec. rewrite Hnow, Hlater. cbn [fst snd].
  split; [repeat split |]. split.
  - split; [reflexivity |]. split; [reflexivity |].
    subst v1. unfold exec. rewrite Hv1.
    cbn [snd trace with_w with_trace with_load_frames with_spinners].
    now rewrite <- !app_assoc.
  - intros v' [-> | ->].
    + repeat split.
    + subst v1. unfold exec. rewrite Hv1. repeat split.
Qed.

(** ** The registry of the check boxes *)

(** X23. For a list of snaps of distinct names, [make_main_screen]
    creates one check box, not checked, for each snap that is not
    preinstalled, in the order of the list, and leaves in [snap_boxes]
    exactly the names of these snaps, each mapped to the check box of
    its row: what was registered before is dropped, and the name of a
    preinstalled snap is not registered. *)
Theorem registry_of_rows (controller : Controller)
    (open_read : string -> result string) (yaml_load : string -> result yaml)
    (preinstalled : gset key) (snap_list : list Snap) (v : View) :
  get_preinstalled_snaps controller open_read yaml_load = Ok preinstalled ->
  distinct_names snap_list ->
  let v' :=
    exec (make_main_screen controller open_read yaml_load snap_list) v in
  let first := length (boxes v) in
  let rows := offered preinstalled snap_list in
  main_screen v' = Some (MainScreen (screens v) (rows_of first rows)) /\
  (forall k snap, rows !! k = Some snap ->
     snap_boxes v' !! name snap = Some (first + k)%nat /\
     boxes v' !! (first + k)%nat = Some (new_box snap)) /\
  (forall n, is_Some (snap_boxes v' !! n) <-> n ∈ name <$> rows) /\
  (forall n, KStr n ∈ preinstalled -> snap_boxes v' !! n = None).
Proof.
  intros Hpre Hd v' first rows.
  destruct (make_main_screen_spec controller open_read yaml_load preinstalled
              snap_list v Hpre) as (v1 & Hrun & Hboxes & Hmain & Hsb & _).
  pose proof (make_main_screen_registers controller open_read yaml_load
                preinstalled snap_list v Hpre) as Hreg.
  fold v' in Hreg. subst v'. unfold exec in *. rewrite Hrun in *.
  cbn [snd] in *. fold first rows in Hboxes, Hmain, Hsb, Hreg.
  assert (Hiff : forall n, is_Some (snap_boxes v1 !! n) <-> n ∈ name <$> rows).
  { intros n. split.
    - intros [i Hi]. destruct (Hsb n i Hi) as (k & s & Hk & <- & _).
      apply list_elem_of_fmap. exists s. split; [reflexivity |].
      now apply list_elem_of_lookup_2 in Hk.
    - intros Hn. apply list_elem_of_fmap in Hn as (s & -> & Hs).
      now apply Hreg. }
  split; [exact Hmain |]. split; [| split; [exact Hiff |]].
  - intros k snap Hk. split.
    + destruct (Hreg snap) as [i Hi];
        [now apply list_elem_of_lookup_2 in Hk |].
      destruct (Hsb _ i Hi) as (k' & s' & Hk' & Hname & ->).
      rewrite Hi. do 2 f_equal.
      apply (NoDup_lookup (name <$> rows) k' k (name snap)).
      * now apply NoDup_offered.
      * rewrite list_lookup_fmap, Hk'. cbn. now rewrite Hname.
      * now rewrite list_lookup_fmap, Hk.
    + rewrite Hboxes, lookup_app_r by (subst first; lia).
      replace (first + k - length (boxes v))%nat with k by (subst first; lia).
      now rewrite list_lookup_fmap, Hk.
  - intros n Hn. destruct (snap_boxes v1 !! n) as [i |] eqn:Hi;
      [| reflexivity].
    exfalso.
    assert (Hin' : n ∈ name <$> rows) by (apply Hiff; rewrite Hi; eauto).
    apply list_elem_of_fmap in Hin' as (s & -> & Hs).
    unfold rows, offered in Hs. apply list_elem_of_filter in Hs as [Hs _].
    contradiction.
Qed.

Lemma registry_of_rows_witness :
  snap_boxes
    (exec (make_main_screen Session.controller Session.open_read
             Session.yaml_load
             [Session.snap "A"; Session.snap "B"; Session.snap "C"]) new_view)
    !! "C" = Some 1%nat.
Proof.
  assert (Hpre : get_preinstalled_snaps Session.controller Session.open_read
                   Session.yaml_load = Ok {[ KStr "B" ]}).
  { vm_compute. reflexivity. }
  assert (Hd : distinct_names
                 [Session.snap "A"; Session.snap "B"; Session.snap "C"]).
  { unfold distinct_names. apply (bool_decide_unpack _). vm_compute. exact I. }
  destruct (registry_of_rows _ _ _ _ _ new_view Hpre Hd) as (_ & H & _).
  destruct (H 1%nat (Session.snap "C")) as [H1 _]; [| exact H1].
  now rewrite (offered_ABC (Session.snap "A") (Session.snap "B")
                 (Session.snap "C")).
Defined.
